(** * Stock and price synchronisation for two marketplaces

    A shallow embedding of [seller.py] (Ozon) and [market.py]
    (Yandex.Market): the reconciliation of the supplier's feed with the
    catalogue of a marketplace account, the chunking of the result and the
    dispatch of the chunks.

    Conventions of the embedding.
    - A Python [str] is a [string]: the bytes of its UTF-8 encoding.  The
      operations the programs apply to identifiers and prices (equality,
      splitting at ["."], keeping the characters ['0'..'9']) act on the
      encoding exactly as they act on the text; [int], which accepts the
      white space and the decimal digits of all of Unicode, reads the
      characters back from the encoding.
    - The feed is the list of records [download_stock] returns, with the
      three columns the programs read, already as text.
    - A Python exception is a value [Raise e]; a function that mutates a
      list it received is a state transformer over the contents of that
      list; a function that talks to a marketplace is a state transformer
      over the log of requests issued so far. *)

From Stdlib Require Import Decimal DecimalString DecimalN DecimalPos.
From Stdlib Require Import String Ascii ZArith Lia Bool Arith List Permutation.
Import ListNotations.
Local Open Scope string_scope.
Local Open Scope list_scope.

(** ** Results, exceptions and the state-and-exception monad *)

Inductive exn : Type :=
| ValueError        (* int() on a malformed literal, range() with step 0,
                       list.remove of an absent item: the specification's
                       FormatError and InvalidArgument *)
| RequestException. (* raise_for_status, ReadTimeout, ConnectionError: the
                       specification's TransportError and TimeoutError *)

Inductive res (A : Type) : Type :=
| Ok (a : A)
| Raise (e : exn).
Arguments Ok {A} a.
Arguments Raise {A} e.

Definition res_bind {A B} (r : res A) (k : A -> res B) : res B :=
  match r with
  | Ok a => k a
  | Raise e => Raise e
  end.

Definition res_map {A B} (f : A -> B) (r : res A) : res B :=
  res_bind r (fun a => Ok (f a)).

(** [traverse f l] evaluates [f] on the items of [l] from left to right and
    stops at the first exception. *)
Fixpoint traverse {A B} (f : A -> res B) (l : list A) : res (list B) :=
  match l with
  | [] => Ok []
  | a :: l' => res_bind (f a) (fun b => res_map (cons b) (traverse f l'))
  end.

(** A computation over a mutable store [S]: the store survives an
    exception, as a Python object does. *)
Definition Eff (S A : Type) : Type := S -> res A * S.

Definition ret {S A} (a : A) : Eff S A := fun s => (Ok a, s).

Definition bind {S A B} (m : Eff S A) (k : A -> Eff S B) : Eff S B :=
  fun s => match m s with
           | (Ok a, s') => k a s'
           | (Raise e, s') => (Raise e, s')
           end.

Definition lift {S A} (r : res A) : Eff S A := fun s => (r, s).
Definition get {S} : Eff S S := fun s => (Ok s, s).
Definition put {S} (s : S) : Eff S unit := fun _ => (Ok tt, s).

Declare Scope eff_scope.
Delimit Scope eff_scope with eff.
Notation "x <- m ;; k" := (bind m (fun x => k))
  (at level 61, m at next level, right associativity) : eff_scope.
Notation "m ;;; k" := (bind m (fun _ => k))
  (at level 61, right associativity) : eff_scope.

(** Running a computation over one component of a pair of stores. *)
Definition on_fst {S T A} (m : Eff S A) : Eff (S * T) A :=
  fun st => let (r, s') := m (fst st) in (r, (s', snd st)).
Definition on_snd {S T A} (m : Eff T A) : Eff (S * T) A :=
  fun st => let (r, t') := m (snd st) in (r, (fst st, t')).

(** [for x in l: body(x)] *)
Fixpoint for_each {S A} (l : list A) (body : A -> Eff S unit) : Eff S unit :=
  match l with
  | [] => ret tt
  | a :: l' => bind (body a) (fun _ => for_each l' body)
  end.

(** A local variable bound to a list object: [m] runs with the object as
    the first component of the store, and the object is dropped when [m] is
    done. *)
Definition with_local {S T A} (init : S) (m : Eff (S * T) A) : Eff T A :=
  fun t => let (r, st) := m (init, t) in (r, snd st).

(** Calling an [async def] function runs none of its body: the call
    returns a coroutine object that holds the body.  Only [await] (or an
    event loop) runs it. *)
Definition coroutine (S A : Type) : Type := Eff S A.
Definition call_async {S A} (body : Eff S A) : Eff S (coroutine S A) := ret body.

(** ** The Python built-ins the programs use *)
Module Py.

(** [x in l] on a list of strings. *)
Fixpoint contains (x : string) (l : list string) : bool :=
  match l with
  | [] => false
  | y :: l' => if String.eqb y x then true else contains x l'
  end.

(** [l.remove(x)]: deletes the first item equal to [x]; [ValueError] when
    there is none. *)
Fixpoint remove (x : string) (l : list string) : res (list string) :=
  match l with
  | [] => Raise ValueError
  | y :: l' => if String.eqb y x then Ok l' else res_map (cons y) (remove x l')
  end.

(** The characters [int] skips around a literal: tab, line feed, vertical
    tab, form feed, carriage return and space. *)
Definition is_space (c : ascii) : bool :=
  let n := nat_of_ascii c in
  ((9 <=? n)%nat && (n <=? 13)%nat) || (n =? 32)%nat.

Definition digit_of (c : ascii) : option Z :=
  let n := nat_of_ascii c in
  if ((48 <=? n)%nat && (n <=? 57)%nat)
  then Some (Z.of_nat (n - 48))
  else None.

Fixpoint lstrip (l : list ascii) : list ascii :=
  match l with
  | c :: l' => if is_space c then lstrip l' else l
  | [] => []
  end.

Definition strip (l : list ascii) : list ascii :=
  List.rev (lstrip (List.rev (lstrip l))).

(** U+FFFD, which stands for a byte that starts no character. *)
Definition replacement : N := 65533.

(** The code points of a text, read from the bytes of its UTF-8
    encoding: one byte below 128, or a lead byte and one, two or three
    continuation bytes that carry six bits each.  A [str] is always the
    encoding of a list of code points; a continuation byte where a
    character should start, or a character cut short, reads as
    [replacement]. *)
Fixpoint decode (l : list ascii) : list N :=
  match l with
  | [] => []
  | b :: l1 =>
      let n := N_of_ascii b in
      if (n <? 128)%N then n :: decode l1
      else if (n <? 192)%N then replacement :: decode l1
      else
        match l1 with
        | [] => [replacement]
        | b1 :: l2 =>
            let n1 := (N_of_ascii b1 mod 64)%N in
            if (n <? 224)%N then ((n - 192) * 64 + n1)%N :: decode l2
            else
              match l2 with
              | [] => [replacement]
              | b2 :: l3 =>
                  let n2 := (N_of_ascii b2 mod 64)%N in
                  if (n <? 240)%N
                  then ((n - 224) * 4096 + n1 * 64 + n2)%N :: decode l3
                  else
                    match l3 with
                    | [] => [replacement]
                    | b3 :: l4 =>
                        let n3 := (N_of_ascii b3 mod 64)%N in
                        ((n - 240) * 262144 + n1 * 4096 + n2 * 64 + n3)%N
                          :: decode l4
                    end
              end
        end
  end.

(** The white space of Unicode beyond ASCII ([str.isspace]). *)
Definition unicode_spaces : list N :=
  [133; 160; 5760; 8192; 8193; 8194; 8195; 8196; 8197; 8198; 8199; 8200;
   8201; 8202; 8232; 8233; 8239; 8287; 12288]%N.

(** The code points of the digit zero of the decimal digit sets of
    Unicode 14.0 beyond ASCII; the digits 1 to 9 of a set follow its
    zero. *)
Definition unicode_zeros : list N :=
  [1632; 1776; 1984; 2406; 2534; 2662; 2790; 2918; 3046; 3174; 3302; 3430;
   3558; 3664; 3792; 3872; 4160; 4240; 6112; 6160; 6470; 6608; 6784; 6800;
   6992; 7088; 7232; 7248; 42528; 43216; 43264; 43472; 43504; 43600; 44016;
   65296; 66720; 68912; 69734; 69872; 69942; 70096; 70384; 70736; 70864;
   71248; 71360; 71472; 71904; 72016; 72784; 73040; 73120; 92768; 92864;
   93008; 120782; 120792; 120802; 120812; 120822; 123200; 123632; 125264;
   130032]%N.

(** The value of a decimal digit beyond ASCII. *)
Definition unicode_decimal (c : N) : option N :=
  option_map (fun zero => (c - zero)%N)
             (find (fun zero => (zero <=? c)%N && (c <? zero + 10)%N) unicode_zeros).

(** What [int] makes of one character before it parses: an ASCII
    character stays, a white space of Unicode becomes a space, a decimal
    digit of Unicode becomes the ASCII digit of its value; any other
    character makes the literal invalid. *)
Definition fold_char (c : N) : option ascii :=
  if (c <? 128)%N then Some (ascii_of_N c)
  else if existsb (N.eqb c) unicode_spaces then Some " "%char
  else option_map (fun d => ascii_of_N (48 + d)) (unicode_decimal c).

Fixpoint to_ascii (l : list N) : option (list ascii) :=
  match l with
  | [] => Some []
  | c :: l' =>
      match fold_char c, to_ascii l' with
      | Some a, Some r => Some (a :: r)
      | _, _ => None
      end
  end.

(** The digits of a base-10 literal, read left to right: the value and
    the number of digits read.  [after_digit] tells whether the previous
    character was a digit: an underscore is accepted only between two
    digits, and the literal may not be empty. *)
Fixpoint digits (acc : Z) (count : N) (after_digit : bool) (l : list ascii)
  : option (Z * N) :=
  match l with
  | [] => if after_digit then Some (acc, count) else None
  | c :: l' =>
      match digit_of c with
      | Some d => digits (10 * acc + d)%Z (count + 1)%N true l'
      | None =>
          if Ascii.eqb c "_" && after_digit then digits acc count false l'
          else None
      end
  end.

(** [sys.int_info.default_max_str_digits] of CPython 3.11: the number of
    digits above which [int] refuses a decimal literal. *)
Definition max_str_digits : N := 4300.

(** [int] on ASCII text: surrounding white space, an optional sign, then
    decimal digits with single underscores allowed between digits, and no
    more digits than the interpreter's limit. *)
Definition parse_int (l : list ascii) : option Z :=
  match strip l with
  | [] => None
  | c :: r =>
      let negative := Ascii.eqb c "-" in
      let body := if Ascii.eqb c "+" || negative then r else c :: r in
      match digits 0 0 false body with
      | Some (v, n) =>
          if (n <=? max_str_digits)%N
          then Some (if negative then (- v)%Z else v)
          else None
      | None => None
      end
  end.

(** [int(s)] for a string [s], base 10, as CPython 3.11 computes it;
    [None] stands for [ValueError]. *)
Definition int (s : string) : option Z :=
  match to_ascii (decode (list_ascii_of_string s)) with
  | Some l => parse_int l
  | None => None
  end.

(** The number of items of [range(start, stop, step)], [step <> 0]. *)
Definition range_length (start stop step : Z) : Z :=
  if (0 <? step)%Z
  then (if (start <? stop)%Z then (stop - start - 1) / step + 1 else 0)%Z
  else (if (stop <? start)%Z then (start - stop - 1) / (- step) + 1 else 0)%Z.

(** [list(range(start, stop, step))]; a zero step is a [ValueError]. *)
Definition range (start stop step : Z) : res (list Z) :=
  if (step =? 0)%Z then Raise ValueError
  else Ok (map (fun k => (start + Z.of_nat k * step)%Z)
               (seq 0 (Z.to_nat (range_length start stop step)))).

(** [l[i:j]] with the default step: negative bounds count from the end,
    and both bounds are clamped to the list. *)
Definition slice {A} (l : list A) (i j : Z) : list A :=
  let len := Z.of_nat (List.length l) in
  let clamp k := Z.max 0 (Z.min len (if (k <? 0)%Z then k + len else k))%Z in
  let lo := clamp i in
  let hi := clamp j in
  firstn (Z.to_nat (hi - lo)) (skipn (Z.to_nat lo) l).

(** [s.split(".")[0]]: the text before the first full stop, all of [s]
    when it has none. *)
Fixpoint before_dot (s : string) : string :=
  match s with
  | EmptyString => EmptyString
  | String c s' => if Ascii.eqb c "." then EmptyString else String c (before_dot s')
  end.

(** [re.sub] with the pattern ["[^0-9]"] and the empty replacement: the
    characters ['0'] to ['9'] of [s], in order. *)
Fixpoint only_digits (s : string) : string :=
  match s with
  | EmptyString => EmptyString
  | String c s' =>
      match digit_of c with
      | Some _ => String c (only_digits s')
      | None => only_digits s'
      end
  end.

End Py.

(** ** The feed *)

(** One row of the supplier's sheet: the columns "Код" (identifier),
    "Количество" (quantity) and "Цена" (price). *)
Record watch : Type := {
  Kod : string;
  Kolichestvo : string;
  Tsena : string
}.

(** ** seller.py *)
Module Seller.

Local Open Scope eff_scope.

(** An item of the "stocks" payload: [{"offer_id": ..., "stock": ...}]. *)
Record stock_entry : Type := {
  offer_id : string;
  stock : Z
}.

(** An item of the "prices" payload. *)
Record price_entry : Type := {
  auto_action_enabled : string;
  currency_code : string;
  price_offer_id : string;
  old_price : string;
  price : string
}.

(** The quantity rule of [create_stocks], lines 227-233: [">10"] is sent
    as 100, ["1"] as 0, anything else goes through [int]. *)
Definition stock_of_count (count : string) : res Z :=
  if String.eqb count ">10" then Ok 100%Z
  else if String.eqb count "1" then Ok 0%Z
  else match Py.int count with
       | Some n => Ok n
       | None => Raise ValueError
       end.

(** The first loop of [create_stocks]: [stocks] is the list built so far,
    the store is the list object [offer_ids]. *)
Fixpoint stocks_loop (watch_remnants : list watch) (stocks : list stock_entry)
  : Eff (list string) (list stock_entry) :=
  match watch_remnants with
  | [] => ret stocks
  | w :: rest =>
      offer_ids <- get ;;
      if Py.contains (Kod w) offer_ids then
        n <- lift (stock_of_count (Kolichestvo w)) ;;
        let stocks := stocks ++ [{| offer_id := Kod w; stock := n |}] in
        offer_ids <- get ;;
        offer_ids <- lift (Py.remove (Kod w) offer_ids) ;;
        put offer_ids ;;;
        stocks_loop rest stocks
      else stocks_loop rest stocks
  end.

(** [create_stocks(watch_remnants, offer_ids)]; the store is [offer_ids]. *)
Definition create_stocks (watch_remnants : list watch)
  : Eff (list string) (list stock_entry) :=
  stocks <- stocks_loop watch_remnants [] ;;
  offer_ids <- get ;;
  ret (stocks ++ map (fun id => {| offer_id := id; stock := 0%Z |}) offer_ids).

(** [price_conversion(price)] *)
Definition price_conversion (price : string) : string :=
  Py.only_digits (Py.before_dot price).

(** [create_prices(watch_remnants, offer_ids)]; the store is [offer_ids]. *)
Fixpoint prices_loop (watch_remnants : list watch) (prices : list price_entry)
  : Eff (list string) (list price_entry) :=
  match watch_remnants with
  | [] => ret prices
  | w :: rest =>
      offer_ids <- get ;;
      if Py.contains (Kod w) offer_ids then
        prices_loop rest
          (prices ++ [{| auto_action_enabled := "UNKNOWN";
                         currency_code := "RUB";
                         price_offer_id := Kod w;
                         old_price := "0";
                         price := price_conversion (Tsena w) |}])
      else prices_loop rest prices
  end.

Definition create_prices (watch_remnants : list watch)
  : Eff (list string) (list price_entry) :=
  prices_loop watch_remnants [].

(** [list(divide(lst, n))]: every use of the generator drains it at once. *)
Definition divide {A} (lst : list A) (n : Z) : res (list (list A)) :=
  res_map (map (fun i => Py.slice lst i (i + n)))
          (Py.range 0 (Z.of_nat (List.length lst)) n).

(** *** Requests to the marketplace *)

Inductive request : Type :=
| UpdateStocks (stocks : list stock_entry)   (* POST /v1/product/import/stocks *)
| UpdatePrice (prices : list price_entry).   (* POST /v1/product/import/prices *)

(** A page of the catalogue listing: the "result" object of
    /v2/product/list. *)
Record product : Type := { product_offer_id : string }.
Record product_page : Type := {
  items : list product;
  total : Z;
  page_last_id : string   (* the key "last_id" *)
}.

Section Transport.

(** The marketplace, as the program sees it: whether a request is
    answered with a success status, given the requests issued before
    it. *)
Variable accepted : list request -> request -> bool.

(** A request is issued, then [raise_for_status] raises on a failure. *)
Definition post (r : request) : Eff (list request) unit :=
  fun log =>
    (if accepted log r then Ok tt else Raise RequestException, log ++ [r]).

Definition update_price (prices : list price_entry) : Eff (list request) unit :=
  post (UpdatePrice prices).

Definition update_stocks (stocks : list stock_entry) : Eff (list request) unit :=
  post (UpdateStocks stocks).

(** The body of [upload_prices]; [offer_ids] is the list its call of
    [get_offer_ids] returned. *)
Definition upload_prices (watch_remnants : list watch) (offer_ids : list string)
  : Eff (list request) (list price_entry) :=
  with_local offer_ids
    (prices <- on_fst (create_prices watch_remnants) ;;
     batches <- lift (divide prices 1000) ;;
     on_snd (for_each batches update_price) ;;;
     ret prices).

(** The body of [upload_stocks]. *)
Definition upload_stocks (watch_remnants : list watch) (offer_ids : list string)
  : Eff (list request) (list stock_entry * list stock_entry) :=
  with_local offer_ids
    (stocks <- on_fst (create_stocks watch_remnants) ;;
     batches <- lift (divide stocks 100) ;;
     on_snd (for_each batches update_stocks) ;;;
     let not_empty := filter (fun s => negb (stock s =? 0)%Z) stocks in
     ret (not_empty, stocks)).

(** The [try] block of [main], from the point where [get_offer_ids] has
    returned [offer_ids] and [download_stock] has returned
    [watch_remnants].  The one list object goes to [create_stocks] and
    then to [create_prices]. *)
Definition main_try (watch_remnants : list watch) (offer_ids : list string)
  : Eff (list request) unit :=
  with_local offer_ids
    (stocks <- on_fst (create_stocks watch_remnants) ;;
     batches <- lift (divide stocks 100) ;;
     on_snd (for_each batches update_stocks) ;;;
     prices <- on_fst (create_prices watch_remnants) ;;
     batches <- lift (divide prices 900) ;;
     on_snd (for_each batches update_price)).

(** [main]: every exception of the [try] block is caught and printed;
    what the run leaves behind is the requests it issued. *)
Definition main (watch_remnants : list watch) (offer_ids : list string)
  : list request :=
  snd (main_try watch_remnants offer_ids []).

End Transport.

Section Pagination.

(** The reply of [get_product_list] to the [k]-th listing request of a
    run, [k] counting from 0. *)
Variable get_product_list : nat -> res product_page.

(** The [while True] loop of [get_offer_ids].  [k] is the number of
    requests sent so far and [asked] their cursors; [None] means the
    loop is still running after [fuel] iterations. *)
Fixpoint listing_loop (fuel k : nat) (last_id : string)
    (product_list : list product) (asked : list string)
  : option (res (list product) * list string) :=
  match fuel with
  | O => None
  | S fuel' =>
      let asked := asked ++ [last_id] in
      match get_product_list k with
      | Raise e => Some (Raise e, asked)
      | Ok some_prod =>
          let product_list := product_list ++ items some_prod in
          if (total some_prod =? Z.of_nat (List.length product_list))%Z
          then Some (Ok product_list, asked)
          else listing_loop fuel' (S k) (page_last_id some_prod) product_list asked
      end
  end.

(** [get_offer_ids]: the identifiers listed, and the cursors sent. *)
Definition get_offer_ids (fuel : nat) : option (res (list string) * list string) :=
  option_map (fun out => (res_map (map product_offer_id) (fst out), snd out))
             (listing_loop fuel 0 EmptyString [] []).

End Pagination.

End Seller.

(** ** market.py *)
Module Market.

Local Open Scope eff_scope.

(** An item of the "skus" payload. *)
Record item : Type := {
  count : Z;
  type : string;
  updatedAt : string
}.

Record stock_entry : Type := {
  sku : string;
  warehouseId : string;
  items : list item
}.

(** An item of the "offers" payload. *)
Record price_value : Type := {
  value : Z;
  currencyId : string
}.

Record price_entry : Type := {
  id : string;
  price : price_value
}.

Definition stock_record (sku warehouse_id : string) (stock : Z) (date : string)
  : stock_entry :=
  {| sku := sku;
     warehouseId := warehouse_id;
     items := [{| count := stock; type := "FIT"; updatedAt := date |}] |}.

(** The first loop of [create_stocks].  [date] is the text of the clock
    reading taken before the loop. *)
Fixpoint stocks_loop (watch_remnants : list watch) (warehouse_id date : string)
    (stocks : list stock_entry)
  : Eff (list string) (list stock_entry) :=
  match watch_remnants with
  | [] => ret stocks
  | w :: rest =>
      offer_ids <- get ;;
      if Py.contains (Kod w) offer_ids then
        n <- lift (Seller.stock_of_count (Kolichestvo w)) ;;
        let stocks := stocks ++ [stock_record (Kod w) warehouse_id n date] in
        offer_ids <- get ;;
        offer_ids <- lift (Py.remove (Kod w) offer_ids) ;;
        put offer_ids ;;;
        stocks_loop rest warehouse_id date stocks
      else stocks_loop rest warehouse_id date stocks
  end.

(** [create_stocks(watch_remnants, offer_ids, warehouse_id)], run when
    the clock reads [date]; the store is [offer_ids]. *)
Definition create_stocks (watch_remnants : list watch) (warehouse_id date : string)
  : Eff (list string) (list stock_entry) :=
  stocks <- stocks_loop watch_remnants warehouse_id date [] ;;
  offer_ids <- get ;;
  ret (stocks ++ map (fun offer_id => stock_record offer_id warehouse_id 0%Z date) offer_ids).

(** [create_prices(watch_remnants, offer_ids)]: the price text goes
    through [price_conversion] and then [int]. *)
Fixpoint prices_loop (watch_remnants : list watch) (prices : list price_entry)
  : Eff (list string) (list price_entry) :=
  match watch_remnants with
  | [] => ret prices
  | w :: rest =>
      offer_ids <- get ;;
      if Py.contains (Kod w) offer_ids then
        v <- lift (match Py.int (Seller.price_conversion (Tsena w)) with
                   | Some v => Ok v
                   | None => Raise ValueError
                   end) ;;
        prices_loop rest
          (prices ++ [{| id := Kod w;
                         price := {| value := v; currencyId := "RUR" |} |}])
      else prices_loop rest prices
  end.

Definition create_prices (watch_remnants : list watch)
  : Eff (list string) (list price_entry) :=
  prices_loop watch_remnants [].

(** *** Requests to the marketplace, per campaign *)

Inductive request : Type :=
| UpdateStocks (campaign_id : string) (skus : list stock_entry)   (* PUT .../offers/stocks *)
| UpdatePrice (campaign_id : string) (offers : list price_entry). (* POST .../offer-prices/updates *)

(** A page of the catalogue listing: the "result" object of
    offer-mapping-entries; [nextPageToken] may be missing. *)
Record offer : Type := { shopSku : string }.
Record paging_info : Type := { nextPageToken : option string }.
Record mapping_page : Type := {
  offerMappingEntries : list offer;
  paging : paging_info
}.

(** What one run of [main] is given: the campaigns and warehouses from
    the environment, the feed, the two catalogue listings and the clock
    readings of the two calls of [create_stocks]. *)
Record run : Type := {
  campaign_fbs_id : string;
  campaign_dbs_id : string;
  warehouse_fbs_id : string;
  warehouse_dbs_id : string;
  watch_remnants : list watch;
  offer_ids_fbs : list string;
  offer_ids_dbs : list string;
  date_fbs : string;
  date_dbs : string
}.

Section Transport.

Variable accepted : list request -> request -> bool.

Definition send (r : request) : Eff (list request) unit :=
  fun log =>
    (if accepted log r then Ok tt else Raise RequestException, log ++ [r]).

Definition update_stocks (stocks : list stock_entry) (campaign_id : string)
  : Eff (list request) unit :=
  send (UpdateStocks campaign_id stocks).

Definition update_price (prices : list price_entry) (campaign_id : string)
  : Eff (list request) unit :=
  send (UpdatePrice campaign_id prices).

(** The body of [upload_prices]; [offer_ids] is the list its call of
    [get_offer_ids] returned. *)
Definition upload_prices (watch_remnants : list watch) (campaign_id : string)
    (offer_ids : list string)
  : Eff (list request) (list price_entry) :=
  with_local offer_ids
    (prices <- on_fst (create_prices watch_remnants) ;;
     batches <- lift (Seller.divide prices 500) ;;
     on_snd (for_each batches (fun some_prices => update_price some_prices campaign_id)) ;;;
     ret prices).

(** The body of [upload_stocks]. *)
Definition upload_stocks (watch_remnants : list watch) (campaign_id : string)
    (warehouse_id date : string) (offer_ids : list string)
  : Eff (list request) (list stock_entry * list stock_entry) :=
  with_local offer_ids
    (stocks <- on_fst (create_stocks watch_remnants warehouse_id date) ;;
     batches <- lift (Seller.divide stocks 2000) ;;
     on_snd (for_each batches (fun some_stock => update_stocks some_stock campaign_id)) ;;;
     let not_empty :=
       filter (fun s => match items s with
                        | i :: _ => negb (count i =? 0)%Z
                        | [] => false
                        end) stocks in
     ret (not_empty, stocks)).

(** The [try] block of [main].  [upload_prices] is called without
    [await], both times: the coroutine object is built and dropped. *)
Definition main_try (r : run) : Eff (list request) unit :=
  with_local (offer_ids_fbs r)
    (stocks <- on_fst (create_stocks (watch_remnants r) (warehouse_fbs_id r) (date_fbs r)) ;;
     batches <- lift (Seller.divide stocks 2000) ;;
     on_snd (for_each batches (fun some_stock => update_stocks some_stock (campaign_fbs_id r))) ;;;
     _ <- on_snd (call_async (upload_prices (watch_remnants r) (campaign_fbs_id r) (offer_ids_fbs r))) ;;
     on_fst (put (offer_ids_dbs r)) ;;;
     stocks <- on_fst (create_stocks (watch_remnants r) (warehouse_dbs_id r) (date_dbs r)) ;;
     batches <- lift (Seller.divide stocks 2000) ;;
     on_snd (for_each batches (fun some_stock => update_stocks some_stock (campaign_dbs_id r))) ;;;
     _ <- on_snd (call_async (upload_prices (watch_remnants r) (campaign_dbs_id r) (offer_ids_dbs r))) ;;
     ret tt).

Definition main (r : run) : list request :=
  snd (main_try r []).

End Transport.

Section Pagination.

(** The reply of [get_product_list] to the [k]-th listing request. *)
Variable get_product_list : nat -> res mapping_page.

(** [not page] for the token read from a reply. *)
Definition falsy (page : option string) : bool :=
  match page with
  | None => true
  | Some t => String.eqb t EmptyString
  end.

(** The [while True] loop of [get_offer_ids]; [page] is the token sent
    with the next request, [None] when the previous reply had none. *)
Fixpoint listing_loop (fuel k : nat) (page : option string)
    (product_list : list offer) (asked : list (option string))
  : option (res (list offer) * list (option string)) :=
  match fuel with
  | O => None
  | S fuel' =>
      let asked := asked ++ [page] in
      match get_product_list k with
      | Raise e => Some (Raise e, asked)
      | Ok some_prod =>
          let product_list := product_list ++ offerMappingEntries some_prod in
          let page := nextPageToken (paging some_prod) in
          if falsy page
          then Some (Ok product_list, asked)
          else listing_loop fuel' (S k) page product_list asked
      end
  end.

Definition get_offer_ids (fuel : nat)
  : option (res (list string) * list (option string)) :=
  option_map (fun out => (res_map (map shopSku) (fst out), snd out))
             (listing_loop fuel 0 (Some EmptyString) [] []).

End Pagination.

End Market.

(** ** Vocabulary of the statements *)

Definition is_digit (c : ascii) : Prop := Py.digit_of c <> None.

(** The characters of a decimal numeral of the standard library. *)
Definition numeral (d : uint) : list ascii :=
  list_ascii_of_string (NilEmpty.string_of_uint d).

(** The decimal text of a natural number, without leading zeros. *)
Definition decimal (n : N) : string := NilZero.string_of_uint (N.to_uint n).

(** *** The literals of [int]

    The decimal literals [int] accepts, stated apart from the code that
    reads them.  An ASCII literal is white space, an optional sign, a
    body and white space; the body is one or more decimal digits in
    which two digits may be separated by a single underscore, with at
    most 4300 digits in all; the value is the positional value of the
    digits, negated after a minus sign. *)

(** The white space of ASCII: space, tab, line feed, vertical tab, form
    feed and carriage return. *)
Definition blank (c : ascii) : Prop :=
  In c [" "; "009"; "010"; "011"; "012"; "013"]%char.

Definition digit_value (c : ascii) (d : Z) : Prop :=
  In (c, d) [("0", 0); ("1", 1); ("2", 2); ("3", 3); ("4", 4);
             ("5", 5); ("6", 6); ("7", 7); ("8", 8); ("9", 9)]%char%Z.

(** What may follow a digit of the body: nothing, a digit, or an
    underscore and a digit; with the values of the digits, in order. *)
Inductive literal_tail : list ascii -> list Z -> Prop :=
| tail_end : literal_tail [] []
| tail_digit c d l ds :
    digit_value c d -> literal_tail l ds -> literal_tail (c :: l) (d :: ds)
| tail_underscore c d l ds :
    digit_value c d -> literal_tail l ds ->
    literal_tail ("_"%char :: c :: l) (d :: ds).

Definition literal_body (l : list ascii) (ds : list Z) : Prop :=
  exists c d l' ds',
    l = c :: l' /\ ds = d :: ds' /\ digit_value c d /\ literal_tail l' ds'.

(** The number a list of digits denotes, most significant digit first. *)
Fixpoint positional (ds : list Z) : Z :=
  match ds with
  | [] => 0
  | d :: ds' => d * 10 ^ Z.of_nat (length ds') + positional ds'
  end.

Inductive literal_sign : list ascii -> Z -> Prop :=
| sign_none : literal_sign [] 1
| sign_plus : literal_sign ["+"%char] 1
| sign_minus : literal_sign ["-"%char] (-1).

Definition int_literal (l : list ascii) (v : Z) : Prop :=
  exists ws1 sign s body ds ws2,
    l = ws1 ++ sign ++ body ++ ws2 /\
    Forall blank ws1 /\ literal_sign sign s /\ literal_body body ds /\
    Forall blank ws2 /\
    (Z.of_nat (length ds) <= 4300)%Z /\
    v = (s * positional ds)%Z.

(** A [str] is the text of a list of code points, each encoded in
    UTF-8. *)
Definition utf8 (c : N) : list ascii :=
  (if c <? 128 then [ascii_of_N c]
   else if c <? 2048 then
     [ascii_of_N (192 + c / 64); ascii_of_N (128 + c mod 64)]
   else if c <? 65536 then
     [ascii_of_N (224 + c / 4096); ascii_of_N (128 + (c / 64) mod 64);
      ascii_of_N (128 + c mod 64)]
   else
     [ascii_of_N (240 + c / 262144); ascii_of_N (128 + (c / 4096) mod 64);
      ascii_of_N (128 + (c / 64) mod 64); ascii_of_N (128 + c mod 64)])%N.

Definition text (cps : list N) : string :=
  string_of_list_ascii (concat (map utf8 cps)).

Definition code_point (c : N) : Prop := (c < 1114112)%N.

(** The characters beyond ASCII that Unicode 14.0 classes as white space,
    and its sets of decimal digits beyond ASCII, as ranges of code points
    from the first to the last; the value of a digit is its offset in its
    range. *)
Definition space_ranges : list (N * N) :=
  [(133, 133); (160, 160); (5760, 5760); (8192, 8202); (8232, 8233);
   (8239, 8239); (8287, 8287); (12288, 12288)]%N.

Definition digit_ranges : list (N * N) :=
  [(1632, 1641); (1776, 1785); (1984, 1993); (2406, 2415); (2534, 2543);
   (2662, 2671); (2790, 2799); (2918, 2927); (3046, 3055); (3174, 3183);
   (3302, 3311); (3430, 3439); (3558, 3567); (3664, 3673); (3792, 3801);
   (3872, 3881); (4160, 4169); (4240, 4249); (6112, 6121); (6160, 6169);
   (6470, 6479); (6608, 6617); (6784, 6793); (6800, 6809); (6992, 7001);
   (7088, 7097); (7232, 7241); (7248, 7257); (42528, 42537);
   (43216, 43225); (43264, 43273); (43472, 43481); (43504, 43513);
   (43600, 43609); (44016, 44025); (65296, 65305); (66720, 66729);
   (68912, 68921); (69734, 69743); (69872, 69881); (69942, 69951);
   (70096, 70105); (70384, 70393); (70736, 70745); (70864, 70873);
   (71248, 71257); (71360, 71369); (71472, 71481); (71904, 71913);
   (72016, 72025); (72784, 72793); (73040, 73049); (73120, 73129);
   (92768, 92777); (92864, 92873); (93008, 93017); (120782, 120791);
   (120792, 120801); (120802, 120811); (120812, 120821);
   (120822, 120831); (123200, 123209); (123632, 123641);
   (125264, 125273); (130032, 130041)]%N.

Definition within (c : N) (r : N * N) : Prop := (fst r <= c <= snd r)%N.

(** The code points of a range. *)
Definition range_points (r : N * N) : list N :=
  map (fun k => (fst r + N.of_nat k)%N)
      (seq 0 (S (N.to_nat (snd r - fst r)))).

(** What a character counts as in a literal of [int]: an ASCII character
    as itself, a white space as a space, a decimal digit as the ASCII
    digit of its value. *)
Inductive folded : N -> ascii -> Prop :=
| folded_ascii c : (c < 128)%N -> folded c (ascii_of_N c)
| folded_space c r : In r space_ranges -> within c r -> folded c " "%char
| folded_digit c r :
    In r digit_ranges -> within c r ->
    folded c (ascii_of_N (48 + (c - fst r))).

(** A text of ASCII characters. *)
Definition ascii_text (s : string) : Prop :=
  Forall (fun c => (N_of_ascii c < 128)%N) (list_ascii_of_string s).

(** The text of code points [cps] is a literal of [int] with value [v]:
    folded to ASCII, character by character, it is one. *)
Definition reads_as (cps : list N) (v : Z) : Prop :=
  exists l, Forall2 folded cps l /\ int_literal l v.

(** The white space [int] skips: that of ASCII and that of Unicode. *)
Definition white_space (c : N) : Prop :=
  In c [9; 10; 11; 12; 13; 32]%N \/ exists r, In r space_ranges /\ within c r.

(** The chunk of [l] that starts at index [j * n]. *)
Definition chunk_at {A} (n : nat) (l : list A) (j : nat) : list A :=
  firstn n (skipn (j * n) l).

(** The number of chunks [divide] cuts a list of [len] items into. *)
Definition chunk_count (len : nat) (n : Z) : nat :=
  Z.to_nat (Py.range_length 0 (Z.of_nat len) n).

(** [l] without its first item equal to [x]; [l] itself when there is
    none. *)
Fixpoint remove_first (x : string) (l : list string) : list string :=
  match l with
  | [] => []
  | y :: l' => if String.eqb y x then l' else y :: remove_first x l'
  end.

(** The identifier list after one occurrence has been deleted for every
    record of the feed that finds its identifier in it. *)
Definition depleted (feed : list watch) (ids : list string) : list string :=
  fold_left (fun ids w => remove_first (Kod w) ids) feed ids.

(** The records of the feed that find their identifier in the list when
    their turn comes, each one using up one occurrence. *)
Fixpoint matched (feed : list watch) (ids : list string) : list watch :=
  match feed with
  | [] => []
  | w :: rest =>
      if Py.contains (Kod w) ids
      then w :: matched rest (remove_first (Kod w) ids)
      else matched rest ids
  end.

(** The stock entry of a record, and the zero entry of an identifier. *)
Definition stock_item (w : watch) : res Seller.stock_entry :=
  res_map (fun n => {| Seller.offer_id := Kod w; Seller.stock := n |})
          (Seller.stock_of_count (Kolichestvo w)).

Definition stub (id : string) : Seller.stock_entry :=
  {| Seller.offer_id := id; Seller.stock := 0%Z |}.

(** The result the specification describes for [create_stocks]: the full
    outer join of the feed and the remote catalogue.  First one entry for
    each feed record whose identifier is in the remote list, in feed
    order, with the normalised quantity; then one zero entry for each
    remote identifier that no feed record carries, in remote order.  Feed
    records whose identifier is not in the remote list give nothing. *)
Definition full_outer_join (feed : list watch) (remote : list string)
  : res (list Seller.stock_entry) :=
  res_map
    (fun entries =>
       entries ++
       map stub (filter (fun id => negb (Py.contains id (map Kod feed))) remote))
    (traverse stock_item (filter (fun w => Py.contains (Kod w) remote) feed)).

(** The Yandex.Market entry that carries the same identifier and quantity
    as an Ozon entry. *)
Definition to_market (warehouse_id date : string) (e : Seller.stock_entry)
  : Market.stock_entry :=
  Market.stock_record (Seller.offer_id e) warehouse_id (Seller.stock e) date.

(** The price entries of a record, as the two programs build them. *)
Definition seller_price (w : watch) : Seller.price_entry :=
  {| Seller.auto_action_enabled := "UNKNOWN";
     Seller.currency_code := "RUB";
     Seller.price_offer_id := Kod w;
     Seller.old_price := "0";
     Seller.price := Seller.price_conversion (Tsena w) |}.

Definition market_price (w : watch) : res Market.price_entry :=
  match Py.int (Seller.price_conversion (Tsena w)) with
  | Some v =>
      Ok {| Market.id := Kod w;
            Market.price := {| Market.value := v; Market.currencyId := "RUR" |} |}
  | None => Raise ValueError
  end.

(** The records of the feed whose identifier is in the list. *)
Definition listed (ids : list string) (feed : list watch) : list watch :=
  filter (fun w => Py.contains (Kod w) ids) feed.

(** Sample rows of the feed, after the examples of the docstrings. *)
Definition watch_123 : watch :=
  {| Kod := "123"; Kolichestvo := "10"; Tsena := "5'990.00 руб." |}.

Definition watch_123_again : watch :=
  {| Kod := "123"; Kolichestvo := "7"; Tsena := "5'990.00 руб." |}.

Definition watch_777 : watch :=
  {| Kod := "777"; Kolichestvo := ">10"; Tsena := "1'500.50 руб." |}.

(** A marketplace that answers listing request [k] with the well-formed
    page [pages k]. *)
Definition answering {P} (pages : nat -> P) : nat -> res P :=
  fun k => Ok (pages k).

(** A sequence of batches that respects [limit]: no batch is empty or
    longer than [limit], and every batch but the last holds exactly
    [limit] items. *)
Definition batches_within {A} (limit : nat) (batches : list (list A)) : Prop :=
  (forall b, In b batches -> 0 < length b <= limit) /\
  (forall j, S j < length batches -> length (nth j batches []) = limit).

(** *** Listings, page by page *)

(** The entries of the first [k] pages of a listing, and the cursor sent
    with request [k]: empty for the first request, then what the previous
    page gave. *)
Definition seller_listing (pages : nat -> Seller.product_page) (k : nat)
  : list Seller.product :=
  concat (map (fun i => Seller.items (pages i)) (seq 0 k)).

Definition seller_cursor (pages : nat -> Seller.product_page) (k : nat) : string :=
  match k with
  | O => EmptyString
  | S i => Seller.page_last_id (pages i)
  end.

(** Page [k] reports as total the number of entries received up to and
    including it. *)
Definition total_reached (pages : nat -> Seller.product_page) (k : nat) : bool :=
  (Seller.total (pages k) =? Z.of_nat (length (seller_listing pages (S k))))%Z.

Definition market_listing (pages : nat -> Market.mapping_page) (k : nat)
  : list Market.offer :=
  concat (map (fun i => Market.offerMappingEntries (pages i)) (seq 0 k)).

Definition market_cursor (pages : nat -> Market.mapping_page) (k : nat)
  : option string :=
  match k with
  | O => Some EmptyString
  | S i => Market.nextPageToken (Market.paging (pages i))
  end.

(** Page [k] carries no continuation token, or an empty one. *)
Definition token_missing (pages : nat -> Market.mapping_page) (k : nat) : bool :=
  Market.falsy (Market.nextPageToken (Market.paging (pages k))).

(** What a page says about the rest of the listing: it carries a
    continuation token that is not empty, or it carries none or an empty
    one. *)
Definition token_given (pages : nat -> Market.mapping_page) (k : nat) : Prop :=
  exists t,
    Market.nextPageToken (Market.paging (pages k)) = Some t /\
    t <> EmptyString.

Definition token_ended (pages : nat -> Market.mapping_page) (k : nat) : Prop :=
  Market.nextPageToken (Market.paging (pages k)) = None \/
  Market.nextPageToken (Market.paging (pages k)) = Some EmptyString.

(** Sample listings: two pages under each protocol, the second one
    without a token or with an empty one, and a marketplace that keeps
    reporting a total of 0 next to a non-empty page. *)
Definition market_pages_example (k : nat) : Market.mapping_page :=
  match k with
  | O => {| Market.offerMappingEntries := [{| Market.shopSku := "123" |}];
            Market.paging := {| Market.nextPageToken := Some "p1" |} |}
  | S _ => {| Market.offerMappingEntries := [{| Market.shopSku := "124" |}];
              Market.paging := {| Market.nextPageToken := None |} |}
  end.

Definition market_pages_empty_token (k : nat) : Market.mapping_page :=
  match k with
  | O => {| Market.offerMappingEntries := [{| Market.shopSku := "123" |}];
            Market.paging := {| Market.nextPageToken := Some "p1" |} |}
  | S _ => {| Market.offerMappingEntries := [{| Market.shopSku := "124" |}];
              Market.paging := {| Market.nextPageToken := Some EmptyString |} |}
  end.

Definition seller_pages_example (k : nat) : Seller.product_page :=
  match k with
  | O => {| Seller.items := [{| Seller.product_offer_id := "123" |};
                             {| Seller.product_offer_id := "124" |}];
            Seller.total := 3%Z;
            Seller.page_last_id := "124" |}
  | S _ => {| Seller.items := [{| Seller.product_offer_id := "125" |}];
              Seller.total := 3%Z;
              Seller.page_last_id := "125" |}
  end.

Definition seller_pages_stuck (k : nat) : Seller.product_page :=
  {| Seller.items := [{| Seller.product_offer_id := "123" |}];
     Seller.total := 0%Z;
     Seller.page_last_id := "123" |}.

(** The price batches among the requests of a run, in the order sent. *)
Definition seller_price_updates (log : list Seller.request)
  : list (list Seller.price_entry) :=
  flat_map (fun r => match r with
                     | Seller.UpdatePrice prices => [prices]
                     | Seller.UpdateStocks _ => []
                     end) log.

Definition market_price_updates (log : list Market.request)
  : list (list Market.price_entry) :=
  flat_map (fun r => match r with
                     | Market.UpdatePrice _ offers => [offers]
                     | Market.UpdateStocks _ _ => []
                     end) log.

(** The number of entries a request carries. *)
Definition seller_request_size (r : Seller.request) : nat :=
  match r with
  | Seller.UpdateStocks stocks => length stocks
  | Seller.UpdatePrice prices => length prices
  end.

(** A marketplace that accepts every request. *)
Definition always {R} (log : list R) (r : R) : bool := true.

(** A feed of [n] rows with the identifiers "0", "1", ... and the remote
    list of the same identifiers. *)
Definition numbered_ids (n : nat) : list string :=
  map (fun k => decimal (N.of_nat k)) (seq 0 n).

Definition numbered_feed (n : nat) : list watch :=
  map (fun id => {| Kod := id; Kolichestvo := "5"; Tsena := "100.00 руб." |})
      (numbered_ids n).

(** The entry of a Yandex.Market stock payload with another time stamp. *)
Definition restamp (date : string) (e : Market.stock_entry) : Market.stock_entry :=
  {| Market.sku := Market.sku e;
     Market.warehouseId := Market.warehouseId e;
     Market.items :=
       map (fun i => {| Market.count := Market.count i;
                        Market.type := Market.type i;
                        Market.updatedAt := date |})
           (Market.items e) |}.

(** A row whose price cell holds no digit ("on request"). *)
Definition watch_on_request : watch :=
  {| Kod := "123"; Kolichestvo := "10"; Tsena := "по запросу" |}.

(** A run of [main] of [market.py] on a one-row feed and a two-item
    catalogue, the clock reading [date] at both calls of
    [create_stocks]. *)
Definition run_at (date : string) : Market.run :=
  {| Market.campaign_fbs_id := "fbs";
     Market.campaign_dbs_id := "dbs";
     Market.warehouse_fbs_id := "warehouse_1";
     Market.warehouse_dbs_id := "warehouse_2";
     Market.watch_remnants := [watch_123];
     Market.offer_ids_fbs := ["123"; "124"];
     Market.offer_ids_dbs := ["123"];
     Market.date_fbs := date;
     Market.date_dbs := date |}.

(** *** Vocabulary of the further properties *)

(** The first row of the feed for each identifier, in feed order; [seen]
    holds the identifiers met so far. *)
Fixpoint first_rows (seen : list string) (feed : list watch) : list watch :=
  match feed with
  | [] => []
  | w :: rest =>
      if Py.contains (Kod w) seen
      then first_rows seen rest
      else w :: first_rows (Kod w :: seen) rest
  end.

(** A log in which nothing follows a rejected request. *)
Definition stops_at_rejection {R} (accepted : list R -> R -> bool) (log : list R)
  : Prop :=
  forall before r after,
    log = before ++ r :: after -> accepted before r = false -> after = [].

(** A marketplace that answers the first [n] listing requests with the
    pages [pages 0], ..., [pages (n - 1)] and fails with [e] from request
    [n] on. *)
Definition failing_at {P} (n : nat) (e : exn) (pages : nat -> P) : nat -> res P :=
  fun k => if (k <? n)%nat then Ok (pages k) else Raise e.

(** A row listed remotely whose quantity cell is not a number. *)
Definition watch_777_broken : watch :=
  {| Kod := "777"; Kolichestvo := "нет"; Tsena := "1'500.50 руб." |}.

(** A log whose requests were all accepted. *)
Definition all_accepted {R} (accepted : list R -> R -> bool) (log : list R) : Prop :=
  forall before r after, log = before ++ r :: after -> accepted before r = true.

(** A marketplace that rejects every request. *)
Definition never {R} (log : list R) (r : R) : bool := false.

(** A marketplace whose every page carries the same continuation token. *)
Definition market_pages_looping (k : nat) : Market.mapping_page :=
  {| Market.offerMappingEntries := [{| Market.shopSku := "123" |}];
     Market.paging := {| Market.nextPageToken := Some "p1" |} |}.

(** * Properties *)

(** ** The monad *)

Lemma res_bind_ok {A B} (r : res A) (k : A -> res B) (b : B) :
  res_bind r k = Ok b -> exists a, r = Ok a /\ k a = Ok b.
Proof. destruct r as [a|e]; simpl; intros H; [eauto | discriminate]. Qed.

Lemma res_map_ok {A B} (f : A -> B) (r : res A) (b : B) :
  res_map f r = Ok b -> exists a, r = Ok a /\ b = f a.
Proof.
  unfold res_map. intros H. apply res_bind_ok in H as (a & -> & E).
  inversion E. eauto.
Qed.

(** Opening the monad: a run becomes nested matches on the results of
    its steps. *)
Ltac open_eff :=
  unfold with_local, bind, on_fst, on_snd, lift, call_async, ret, put, get;
  cbn [fst snd].

(** ** UTF-8 *)

Lemma continuation_bits r :
  (r < 64)%N -> (N_of_ascii (ascii_of_N (128 + r)) mod 64 = r)%N.
Proof.
  intros H. rewrite N_ascii_embedding by lia.
  symmetry. apply (N.mod_unique _ _ 2); lia.
Qed.

Lemma decode_utf8 c rest :
  code_point c -> Py.decode (utf8 c ++ rest) = c :: Py.decode rest.
Proof.
  unfold code_point, utf8. intros Hc.
  replace (c / 262144)%N with (c / 64 / 64 / 64)%N
    by (now rewrite !N.Div0.div_div).
  replace (c / 4096)%N with (c / 64 / 64)%N by (now rewrite N.Div0.div_div).
  pose proof (N.div_mod c 64 ltac:(discriminate)) as E1.
  pose proof (N.mod_lt c 64 ltac:(discriminate)) as L1.
  pose proof (N.div_mod (c / 64) 64 ltac:(discriminate)) as E2.
  pose proof (N.mod_lt (c / 64) 64 ltac:(discriminate)) as L2.
  pose proof (N.div_mod (c / 64 / 64) 64 ltac:(discriminate)) as E3.
  pose proof (N.mod_lt (c / 64 / 64) 64 ltac:(discriminate)) as L3.
  revert E1 L1 E2 L2 E3 L3.
  generalize (c / 64 / 64 mod 64)%N as r3, (c / 64 / 64 / 64)%N as q3.
  generalize (c / 64 mod 64)%N as r2, (c / 64 / 64)%N as q2.
  generalize (c mod 64)%N as r1, (c / 64)%N as q1.
  intros r1 q1 r2 q2 r3 q3 E1 L1 E2 L2 E3 L3.
  destruct (c <? 128)%N eqn:C1; [apply N.ltb_lt in C1|apply N.ltb_ge in C1].
  { cbn [app Py.decode]. rewrite N_ascii_embedding by lia.
    replace (c <? 128)%N with true by (symmetry; apply N.ltb_lt; lia).
    reflexivity. }
  destruct (c <? 2048)%N eqn:C2; [apply N.ltb_lt in C2|apply N.ltb_ge in C2].
  { cbn [app Py.decode]. rewrite continuation_bits by lia.
    rewrite N_ascii_embedding by lia.
    replace (192 + q1 <? 128)%N with false by (symmetry; apply N.ltb_ge; lia).
    replace (192 + q1 <? 192)%N with false by (symmetry; apply N.ltb_ge; lia).
    replace (192 + q1 <? 224)%N with true by (symmetry; apply N.ltb_lt; lia).
    f_equal. lia. }
  destruct (c <? 65536)%N eqn:C3; [apply N.ltb_lt in C3|apply N.ltb_ge in C3].
  { cbn [app Py.decode]. rewrite !continuation_bits by lia.
    rewrite N_ascii_embedding by lia.
    replace (224 + q2 <? 128)%N with false by (symmetry; apply N.ltb_ge; lia).
    replace (224 + q2 <? 192)%N with false by (symmetry; apply N.ltb_ge; lia).
    replace (224 + q2 <? 224)%N with false by (symmetry; apply N.ltb_ge; lia).
    replace (224 + q2 <? 240)%N with true by (symmetry; apply N.ltb_lt; lia).
    f_equal. lia. }
  cbn [app Py.decode]. rewrite !continuation_bits by lia.
  rewrite N_ascii_embedding by lia.
  replace (240 + q3 <? 128)%N with false by (symmetry; apply N.ltb_ge; lia).
  replace (240 + q3 <? 192)%N with false by (symmetry; apply N.ltb_ge; lia).
  replace (240 + q3 <? 224)%N with false by (symmetry; apply N.ltb_ge; lia).
  replace (240 + q3 <? 240)%N with false by (symmetry; apply N.ltb_ge; lia).
  f_equal. lia.
Qed.

Lemma decode_text cps :
  Forall code_point cps ->
  Py.decode (list_ascii_of_string (text cps)) = cps.
Proof.
  unfold text. rewrite list_ascii_of_string_of_list_ascii.
  induction 1 as [|c cps Hc _ IH]; [reflexivity|].
  cbn [map concat]. now rewrite decode_utf8, IH.
Qed.

(** ** Folding to ASCII *)

Lemma digit_ranges_zeros :
  digit_ranges = map (fun zero => (zero, zero + 9)%N) Py.unicode_zeros.
Proof. reflexivity. Qed.

Lemma space_ranges_spaces :
  Py.unicode_spaces = flat_map range_points space_ranges.
Proof. reflexivity. Qed.

Lemma within_range_points c r :
  (fst r <= snd r)%N -> In c (range_points r) <-> within c r.
Proof.
  unfold range_points, within. intros Hr. rewrite in_map_iff. split.
  - intros (k & <- & Hk). apply in_seq in Hk. lia.
  - intros Hc. exists (N.to_nat (c - fst r)). split; [lia|].
    apply in_seq. lia.
Qed.

Lemma in_unicode_spaces c :
  In c Py.unicode_spaces <-> exists r, In r space_ranges /\ within c r.
Proof.
  assert (Hr : forall r, In r space_ranges -> (fst r <= snd r)%N).
  { intros r Hin. cbn [space_ranges In] in Hin.
    repeat (destruct Hin as [<- | Hin]; [cbn; lia|]). destruct Hin. }
  rewrite space_ranges_spaces, in_flat_map. split.
  - intros (r & Hin & Hc). exists r. split; [exact Hin|].
    now apply within_range_points; [apply Hr|].
  - intros (r & Hin & Hc). exists r. split; [exact Hin|].
    now apply within_range_points; [apply Hr|].
Qed.

Lemma in_digit_range c r :
  In r digit_ranges -> within c r ->
  exists zero d,
    In zero Py.unicode_zeros /\ (d < 10)%N /\ c = (zero + d)%N /\ fst r = zero.
Proof.
  rewrite digit_ranges_zeros, in_map_iff. unfold within.
  intros (zero & <- & Hz) Hc. cbn [fst snd] in Hc.
  exists zero, (c - zero)%N. split; [exact Hz|]. cbn [fst]. lia.
Qed.

Lemma fold_char_folded c a : Py.fold_char c = Some a <-> folded c a.
Proof.
  split.
  - unfold Py.fold_char.
    destruct (c <? 128)%N eqn:C1.
    { intros [= <-]. constructor. now apply N.ltb_lt. }
    destruct (existsb (N.eqb c) Py.unicode_spaces) eqn:C2.
    { intros [= <-]. apply existsb_exists in C2 as (x & Hx & E).
      apply N.eqb_eq in E. subst x.
      apply in_unicode_spaces in Hx as (r & Hr & Hc).
      now apply (folded_space c r). }
    unfold Py.unicode_decimal.
    destruct (find _ Py.unicode_zeros) as [zero|] eqn:C3; [|discriminate].
    apply find_some in C3 as [Hin Hr].
    apply andb_true_iff in Hr as [H1 H2].
    apply N.leb_le in H1. apply N.ltb_lt in H2.
    cbn [option_map]. intros [= <-].
    apply (folded_digit c (zero, zero + 9)%N).
    + rewrite digit_ranges_zeros. apply in_map_iff. now exists zero.
    + unfold within. cbn [fst snd]. lia.
  - destruct 1 as [c Hc | c r Hr Hc | c r Hr Hc].
    + unfold Py.fold_char. apply N.ltb_lt in Hc. now rewrite Hc.
    + assert (Hin : In c Py.unicode_spaces)
        by (apply in_unicode_spaces; eauto).
      clear - Hin.
      repeat (destruct Hin as [<- | Hin]; [reflexivity|]). destruct Hin.
    + destruct (in_digit_range _ _ Hr Hc) as (zero & d & Hz & Hd & -> & ->).
      replace (zero + d - zero)%N with d by lia. clear - Hz Hd.
      assert (Hd' : In d [0; 1; 2; 3; 4; 5; 6; 7; 8; 9]%N).
      { cbn [In]. lia. }
      repeat (destruct Hz as [<- | Hz];
              [repeat (destruct Hd' as [<- | Hd']; [reflexivity|]); destruct Hd'|]).
      destruct Hz.
Qed.

Lemma to_ascii_folded cps l :
  Py.to_ascii cps = Some l <-> Forall2 folded cps l.
Proof.
  revert l. induction cps as [|c cps IH]; intros l; cbn [Py.to_ascii].
  - split; [intros [= <-]; constructor | now inversion 1].
  - split.
    + destruct (Py.fold_char c) as [a|] eqn:E; [|discriminate].
      destruct (Py.to_ascii cps) as [r|]; [|discriminate].
      intros [= <-]. constructor; [now apply fold_char_folded | now apply IH].
    + inversion 1 as [|? a ? r Hc Hr]; subst.
      apply fold_char_folded in Hc. apply IH in Hr. now rewrite Hc, Hr.
Qed.

(** ** The grammar of [int] *)

Lemma is_space_blank c : Py.is_space c = true <-> blank c.
Proof.
  split.
  - destruct c as [[] [] [] [] [] [] [] []]; intros H;
      try discriminate H; unfold blank; cbn [In]; tauto.
  - unfold blank. cbn [In]. intros H.
    repeat (destruct H as [<- | H]; [reflexivity|]). destruct H.
Qed.

Lemma digit_of_value c d : Py.digit_of c = Some d <-> digit_value c d.
Proof.
  split.
  - destruct c as [[] [] [] [] [] [] [] []]; intros H;
      try discriminate H; injection H as <-;
      unfold digit_value; cbn [In]; tauto.
  - unfold digit_value. cbn [In]. intros H.
    repeat (destruct H as [[= <- <-] | H]; [reflexivity|]). destruct H.
Qed.

Lemma digit_not_blank c d : digit_value c d -> ~ blank c.
Proof.
  intros H B. apply digit_of_value in H. apply is_space_blank in B.
  revert H B. destruct c as [[] [] [] [] [] [] [] []]; discriminate.
Qed.

Lemma digit_not_a_sign c d :
  digit_value c d -> Ascii.eqb c "+" = false /\ Ascii.eqb c "-" = false.
Proof.
  unfold digit_value. cbn [In]. intros H.
  repeat (destruct H as [[= <- <-] | H]; [split; reflexivity|]). destruct H.
Qed.

Lemma lstrip_blank ws l :
  Forall blank ws -> Py.lstrip (ws ++ l) = Py.lstrip l.
Proof.
  induction 1 as [|c ws Hc _ IH]; [reflexivity|].
  cbn [app Py.lstrip]. apply is_space_blank in Hc. now rewrite Hc.
Qed.

Lemma lstrip_stop c l : ~ blank c -> Py.lstrip (c :: l) = c :: l.
Proof.
  intros H. cbn [Py.lstrip].
  destruct (Py.is_space c) eqn:E; [|reflexivity].
  now apply is_space_blank in E.
Qed.

Lemma lstrip_split l :
  exists ws, Forall blank ws /\ l = ws ++ Py.lstrip l.
Proof.
  induction l as [|c l (ws & Hws & E)]; [now exists []|].
  cbn [Py.lstrip]. destruct (Py.is_space c) eqn:Ec.
  - exists (c :: ws). split.
    + constructor; [now apply is_space_blank | exact Hws].
    + cbn [app]. now rewrite <- E.
  - now exists [].
Qed.

Lemma strip_split l :
  exists ws1 ws2,
    Forall blank ws1 /\ Forall blank ws2 /\ l = ws1 ++ Py.strip l ++ ws2.
Proof.
  destruct (lstrip_split l) as (ws1 & H1 & E1).
  destruct (lstrip_split (List.rev (Py.lstrip l))) as (ws2 & H2 & E2).
  exists ws1, (List.rev ws2). split; [exact H1|]. split.
  - now apply Forall_rev.
  - unfold Py.strip. rewrite <- List.rev_app_distr, <- E2.
    now rewrite List.rev_involutive.
Qed.

Lemma strip_core ws1 ws2 c mid z :
  Forall blank ws1 -> Forall blank ws2 -> ~ blank c -> ~ blank z ->
  Py.strip (ws1 ++ (c :: mid ++ [z]) ++ ws2) = c :: mid ++ [z].
Proof.
  intros H1 H2 Hc Hz. unfold Py.strip.
  rewrite lstrip_blank by exact H1.
  cbn [app]. rewrite lstrip_stop by exact Hc.
  change (c :: (mid ++ [z]) ++ ws2) with ((c :: mid ++ [z]) ++ ws2).
  rewrite List.rev_app_distr.
  rewrite lstrip_blank by now apply Forall_rev.
  change (c :: mid ++ [z]) with ((c :: mid) ++ [z]).
  rewrite List.rev_app_distr. cbn [List.rev app].
  rewrite lstrip_stop by exact Hz.
  change (z :: List.rev mid ++ [c]) with ([z] ++ List.rev (c :: mid)).
  rewrite List.rev_app_distr, List.rev_involutive. reflexivity.
Qed.

Lemma strip_one ws1 ws2 c :
  Forall blank ws1 -> Forall blank ws2 -> ~ blank c ->
  Py.strip (ws1 ++ [c] ++ ws2) = [c].
Proof.
  intros H1 H2 Hc. unfold Py.strip.
  rewrite lstrip_blank by exact H1.
  cbn [app]. rewrite lstrip_stop by exact Hc.
  change (c :: ws2) with ([c] ++ ws2).
  rewrite List.rev_app_distr.
  rewrite lstrip_blank by now apply Forall_rev.
  cbn [List.rev app]. now rewrite lstrip_stop by exact Hc.
Qed.

Lemma positional_cons d ds :
  positional (d :: ds) = (d * 10 ^ Z.of_nat (length ds) + positional ds)%Z.
Proof. reflexivity. Qed.

Lemma shift_digit acc d (ds : list Z) :
  ((10 * acc + d) * 10 ^ Z.of_nat (length ds) + positional ds
   = acc * 10 ^ Z.of_nat (length (d :: ds)) + positional (d :: ds))%Z.
Proof.
  rewrite positional_cons. cbn [length].
  rewrite Nat2Z.inj_succ, Z.pow_succ_r by lia. ring.
Qed.

Lemma digits_literal l ds :
  literal_tail l ds ->
  forall acc n,
    Py.digits acc n true l
    = Some ((acc * 10 ^ Z.of_nat (length ds) + positional ds)%Z,
            (n + N.of_nat (length ds))%N).
Proof.
  induction 1 as [|c d l ds Hd _ IH|c d l ds Hd _ IH]; intros acc n.
  - cbn. f_equal. f_equal; [ring | lia].
  - cbn [Py.digits]. apply digit_of_value in Hd. rewrite Hd.
    rewrite IH, shift_digit. f_equal. f_equal. cbn [length]. lia.
  - cbn [Py.digits]. apply digit_of_value in Hd.
    change (Py.digit_of "_") with (@None Z). cbn [Ascii.eqb Bool.eqb andb].
    rewrite Hd. rewrite IH, shift_digit. f_equal. f_equal. cbn [length]. lia.
Qed.

Lemma literal_digits l :
  (forall acc n v k,
     Py.digits acc n true l = Some (v, k) ->
     exists ds,
       literal_tail l ds /\
       v = (acc * 10 ^ Z.of_nat (length ds) + positional ds)%Z /\
       k = (n + N.of_nat (length ds))%N) /\
  (forall acc n v k,
     Py.digits acc n false l = Some (v, k) ->
     exists c d l' ds,
       l = c :: l' /\ digit_value c d /\ literal_tail l' ds /\
       v = (acc * 10 ^ Z.of_nat (length (d :: ds)) + positional (d :: ds))%Z /\
       k = (n + N.of_nat (length (d :: ds)))%N).
Proof.
  induction l as [|c l [IHt IHf]].
  - split; intros acc n v k; cbn [Py.digits]; [|discriminate].
    intros [= <- <-]. exists []. split; [constructor|].
    cbn. split; [ring | lia].
  - assert (Hstep : forall acc n v k d,
              Py.digit_of c = Some d ->
              Py.digits (10 * acc + d) (n + 1) true l = Some (v, k) ->
              exists ds,
                digit_value c d /\ literal_tail l ds /\
                v = (acc * 10 ^ Z.of_nat (length (d :: ds))
                     + positional (d :: ds))%Z /\
                k = (n + N.of_nat (length (d :: ds)))%N).
    { intros acc n v k d Hd H.
      apply IHt in H as (ds & Ht & -> & ->).
      exists ds. split; [now apply digit_of_value|]. split; [exact Ht|].
      split; [apply shift_digit | cbn [length]; lia]. }
    split; intros acc n v k; cbn [Py.digits];
      destruct (Py.digit_of c) as [d|] eqn:Hd.
    + intros H. destruct (Hstep _ _ _ _ _ eq_refl H) as (ds & Hc & Ht & Hv & Hk).
      exists (d :: ds). split; [now constructor | now split].
    + destruct (Ascii.eqb c "_") eqn:Ec; [|discriminate].
      apply Ascii.eqb_eq in Ec. subst c. cbn [andb]. intros H.
      apply IHf in H as (c' & d' & l' & ds & -> & Hc & Ht & Hv & Hk).
      exists (d' :: ds). split; [now constructor | now split].
    + intros H. destruct (Hstep _ _ _ _ _ eq_refl H) as (ds & Hc & Ht & Hv & Hk).
      now exists c, d, l, ds.
    + rewrite andb_false_r. discriminate.
Qed.

Lemma tail_last l ds :
  literal_tail l ds ->
  l = [] \/ exists r z d, l = r ++ [z] /\ digit_value z d.
Proof.
  induction 1 as [|c d l ds Hd _ IH|c d l ds Hd _ IH]; [now left|..]; right.
  - destruct IH as [-> | (r & z & d' & -> & Hz)].
    + now exists [], c, d.
    + now exists (c :: r), z, d'.
  - destruct IH as [-> | (r & z & d' & -> & Hz)].
    + now exists ["_"%char], c, d.
    + now exists ("_"%char :: c :: r), z, d'.
Qed.

Lemma strip_literal ws1 ws2 sign s body ds :
  Forall blank ws1 -> Forall blank ws2 ->
  literal_sign sign s -> literal_body body ds ->
  Py.strip (ws1 ++ sign ++ body ++ ws2) = sign ++ body.
Proof.
  intros H1 H2 Hs (c & d & l' & ds' & -> & -> & Hc & Ht).
  assert (Hsign : forall x, In x sign -> ~ blank x).
  { intros x Hx B. apply is_space_blank in B.
    destruct Hs; cbn [In] in Hx;
      [destruct Hx | destruct Hx as [<- | []] ..]; discriminate. }
  pose proof (digit_not_blank _ _ Hc) as Hcb.
  rewrite (app_assoc sign).
  destruct (tail_last _ _ Ht) as [-> | (r & z & dz & -> & Hz)].
  - destruct Hs; cbn [app].
    + now apply (strip_one ws1 ws2 c).
    + apply (strip_core ws1 ws2 "+"%char [] c); trivial.
      apply Hsign. now left.
    + apply (strip_core ws1 ws2 "-"%char [] c); trivial.
      apply Hsign. now left.
  - pose proof (digit_not_blank _ _ Hz) as Hzb.
    destruct Hs; cbn [app].
    + now apply (strip_core ws1 ws2 c r z).
    + apply (strip_core ws1 ws2 "+"%char (c :: r) z); trivial.
      apply Hsign. now left.
    + apply (strip_core ws1 ws2 "-"%char (c :: r) z); trivial.
      apply Hsign. now left.
Qed.

(** [int] on ASCII text accepts exactly the literals of the grammar, and
    returns the number they denote. *)
Lemma parse_int_literal l v : Py.parse_int l = Some v <-> int_literal l v.
Proof.
  split.
  - unfold Py.parse_int. intros H.
    destruct (strip_split l) as (ws1 & ws2 & H1 & H2 & E).
    destruct (Py.strip l) as [|c r]; [discriminate|].
    match type of H with
    | context [Py.digits 0 0 false ?b] =>
        destruct (Py.digits 0 0 false b) as [[v' n]|] eqn:D; [|discriminate]
    end.
    destruct (n <=? Py.max_str_digits)%N eqn:Hn; [|discriminate].
    apply N.leb_le in Hn. unfold Py.max_str_digits in Hn.
    injection H as <-.
    apply (proj2 (literal_digits _)) in D
      as (c' & d & l' & ds & Eb & Hc & Ht & -> & ->).
    assert (Hbody : forall b, b = c' :: l' -> literal_body b (d :: ds)).
    { intros b ->. now exists c', d, l', ds. }
    assert (Hlen : (Z.of_nat (length (d :: ds)) <= 4300)%Z) by lia.
    destruct (Ascii.eqb c "+") eqn:Ep; [|destruct (Ascii.eqb c "-") eqn:Em];
      cbn [orb] in Eb.
    + apply Ascii.eqb_eq in Ep. subst c.
      exists ws1, ["+"%char], 1%Z, r, (d :: ds), ws2.
      repeat (split; [now auto using literal_sign|]).
      change ("+" =? "-")%char with false. cbv iota. lia.
    + apply Ascii.eqb_eq in Em. subst c.
      exists ws1, ["-"%char], (-1)%Z, r, (d :: ds), ws2.
      repeat (split; [now auto using literal_sign|]).
      change ("-" =? "-")%char with true. cbv iota. lia.
    + exists ws1, [], 1%Z, (c :: r), (d :: ds), ws2.
      repeat (split; [now auto using literal_sign|]). lia.
  - intros (ws1 & sign & s & body & ds & ws2 & -> & H1 & Hs & Hb & H2 & Hlen & ->).
    unfold Py.parse_int.
    rewrite (strip_literal _ _ _ _ _ _ H1 H2 Hs Hb).
    destruct Hb as (c & d & l' & ds' & -> & -> & Hc & Ht).
    assert (D : Py.digits 0 0 false (c :: l')
                = Some (positional (d :: ds'), N.of_nat (length (d :: ds')))).
    { cbn [Py.digits]. rewrite (proj2 (digit_of_value c d) Hc).
      rewrite (digits_literal _ _ Ht), shift_digit.
      apply (f_equal Some), f_equal2; [ring | cbn [length]; lia]. }
    assert (Hn : (N.of_nat (length (d :: ds')) <=? Py.max_str_digits)%N = true).
    { apply N.leb_le. unfold Py.max_str_digits. lia. }
    destruct (digit_not_a_sign _ _ Hc) as [Ep Em].
    destruct Hs; cbn [app Ascii.eqb Bool.eqb orb].
    + rewrite Ep, Em. cbn [orb]. rewrite D, Hn. f_equal; lia.
    + rewrite D, Hn. f_equal; lia.
    + rewrite D, Hn. f_equal; lia.
Qed.

(** ** Quantities *)

Lemma digit_not_space c : is_digit c -> Py.is_space c = false.
Proof.
  unfold is_digit, Py.digit_of, Py.is_space.
  destruct (48 <=? nat_of_ascii c)%nat eqn:E1; simpl; [|congruence].
  destruct (nat_of_ascii c <=? 57)%nat eqn:E2; simpl; [|congruence].
  intros _. apply Nat.leb_le in E1.
  destruct (nat_of_ascii c <=? 13)%nat eqn:E3;
    [apply Nat.leb_le in E3; lia|].
  destruct (nat_of_ascii c =? 32)%nat eqn:E4;
    [apply Nat.eqb_eq in E4; lia|].
  now rewrite andb_false_r.
Qed.

Lemma digit_not_sign c :
  is_digit c -> Ascii.eqb c "+" = false /\ Ascii.eqb c "-" = false.
Proof.
  unfold is_digit, Py.digit_of.
  destruct (48 <=? nat_of_ascii c)%nat eqn:E1; simpl; [|congruence].
  intros _. apply Nat.leb_le in E1.
  split; apply Ascii.eqb_neq; intros ->;
    [change (nat_of_ascii "+") with 43%nat in E1
    |change (nat_of_ascii "-") with 45%nat in E1]; lia.
Qed.

Lemma lstrip_digit c l : is_digit c -> Py.lstrip (c :: l) = c :: l.
Proof. intros H. simpl. now rewrite (digit_not_space c H). Qed.

Lemma strip_digits l : Forall is_digit l -> Py.strip l = l.
Proof.
  intros H. unfold Py.strip. destruct l as [|c l]; [reflexivity|].
  rewrite lstrip_digit by now inversion H.
  apply Forall_rev in H.
  destruct (List.rev (c :: l)) as [|d r] eqn:E.
  - apply (f_equal (@List.length _)) in E. rewrite List.length_rev in E. discriminate.
  - rewrite lstrip_digit by now inversion H.
    rewrite <- E. apply List.rev_involutive.
Qed.

Lemma numeral_digits d : Forall is_digit (numeral d).
Proof.
  unfold numeral.
  induction d; simpl; constructor; trivial; unfold is_digit; simpl; discriminate.
Qed.

Lemma digits_numeral_acc d p k :
  Py.digits (Zpos p) k true (numeral d)
  = Some (Zpos (Pos.of_uint_acc d p),
          (k + N.of_nat (length (numeral d)))%N).
Proof.
  unfold numeral. revert p k.
  induction d; intros p k;
    [cbn; f_equal; f_equal; lia|..];
    cbn [NilEmpty.string_of_uint list_ascii_of_string Py.digits
         Pos.of_uint_acc length];
    match goal with
    | |- context [Py.digit_of ?c] =>
        change (Py.digit_of c) with (Some (Z.of_nat (nat_of_ascii c - 48)))
    end;
    cbv iota beta;
    match goal with
    | |- context [Z.of_nat ?n] =>
        let v := eval vm_compute in (Z.of_nat n) in
        change (Z.of_nat n) with v
    end;
    match goal with
    | |- Py.digits ?a _ _ _ = Some (Zpos (Pos.of_uint_acc _ ?q), _) =>
        replace a with (Zpos q) by lia
    end;
    rewrite IHd; f_equal; f_equal; lia.
Qed.

Lemma digits_numeral d k :
  Py.digits 0 k true (numeral d)
  = Some (Z.of_N (Pos.of_uint d), (k + N.of_nat (length (numeral d)))%N).
Proof.
  revert k. induction d; intros k; unfold numeral in *;
    cbn [NilEmpty.string_of_uint list_ascii_of_string Py.digits length];
    [cbn; f_equal; f_equal; lia
    | change (Py.digit_of "0") with (Some 0%Z); cbv iota beta;
      change (10 * 0 + 0)%Z with 0%Z;
      rewrite IHd; apply (f_equal Some), f_equal2; [reflexivity | lia]
    |..];
    (etransitivity; [apply (digits_numeral_acc d _ (k + 1)) |];
     apply (f_equal Some), f_equal2; [reflexivity | unfold numeral; lia]).
Qed.

Lemma decimal_chars n :
  list_ascii_of_string (decimal n) = numeral (N.to_uint n)
  /\ N.to_uint n <> Nil.
Proof.
  assert (H : N.to_uint n <> Nil).
  { destruct n; simpl; [discriminate | apply DecimalPos.Unsigned.to_uint_nonnil]. }
  split; [|exact H].
  unfold decimal, NilZero.string_of_uint, numeral.
  destruct (N.to_uint n); congruence.
Qed.

Lemma decimal_digits n : Forall is_digit (list_ascii_of_string (decimal n)).
Proof. destruct (decimal_chars n) as [-> _]. apply numeral_digits. Qed.

Lemma length_chars s :
  length (list_ascii_of_string s) = String.length s.
Proof. induction s as [|c s IH]; simpl; congruence. Qed.

Lemma decode_ascii l :
  Forall (fun c => (N_of_ascii c < 128)%N) l ->
  Py.decode l = map N_of_ascii l.
Proof.
  induction 1 as [|c l Hc _ IH]; [reflexivity|].
  cbn [Py.decode map]. apply N.ltb_lt in Hc. now rewrite Hc, IH.
Qed.

Lemma to_ascii_ascii l :
  Forall (fun c => (N_of_ascii c < 128)%N) l ->
  Py.to_ascii (map N_of_ascii l) = Some l.
Proof.
  induction 1 as [|c l Hc _ IH]; [reflexivity|].
  cbn [Py.to_ascii map]. unfold Py.fold_char.
  apply N.ltb_lt in Hc. now rewrite Hc, IH, ascii_N_embedding.
Qed.

(** On ASCII text [int] parses the text as it stands. *)
Lemma int_ascii s :
  ascii_text s -> Py.int s = Py.parse_int (list_ascii_of_string s).
Proof.
  intros H. unfold Py.int. now rewrite decode_ascii, to_ascii_ascii.
Qed.

(** On any text [int] parses the characters folded to ASCII. *)
Lemma int_text cps v :
  Forall code_point cps ->
  Py.int (text cps) = Some v <-> reads_as cps v.
Proof.
  intros H. unfold Py.int, reads_as. rewrite decode_text by exact H. split.
  - destruct (Py.to_ascii cps) as [l|] eqn:E; [|discriminate].
    intros Hv. exists l. split; [now apply to_ascii_folded|].
    now apply parse_int_literal.
  - intros (l & Hl & Hv). apply to_ascii_folded in Hl. rewrite Hl.
    now apply parse_int_literal.
Qed.

Lemma digit_ascii c : is_digit c -> (N_of_ascii c < 128)%N.
Proof.
  unfold is_digit, Py.digit_of, nat_of_ascii.
  destruct (48 <=? N.to_nat (N_of_ascii c))%nat; simpl; [|congruence].
  destruct (N.to_nat (N_of_ascii c) <=? 57)%nat eqn:E; [|congruence].
  intros _. apply Nat.leb_le in E. lia.
Qed.

Lemma digits_ascii s :
  Forall is_digit (list_ascii_of_string s) -> ascii_text s.
Proof.
  unfold ascii_text. apply Forall_impl. exact digit_ascii.
Qed.

Lemma digits_of_digits l :
  Forall is_digit l ->
  forall acc k b, l <> [] \/ b = true -> (0 <= acc)%Z ->
    exists v, Py.digits acc k b l = Some (v, (k + N.of_nat (length l))%N)
              /\ (0 <= v)%Z.
Proof.
  induction 1 as [|c l Hc Hl IH]; intros acc k b Hne Hacc.
  - destruct Hne as [Hne| ->]; [congruence|].
    exists acc. split; [|exact Hacc]. cbn. f_equal. f_equal. lia.
  - cbn [Py.digits]. unfold is_digit in Hc.
    destruct (Py.digit_of c) as [d|] eqn:Ed; [|congruence].
    assert (0 <= d)%Z.
    { apply digit_of_value in Ed. unfold digit_value in Ed. cbn [In] in Ed.
      repeat (destruct Ed as [[= _ <-] | Ed]; [lia|]). destruct Ed. }
    destruct (IH (10 * acc + d)%Z (k + 1)%N true) as (v & Hv & Hpos);
      [now right | lia |].
    exists v. split; [|exact Hpos]. rewrite Hv. f_equal. f_equal.
    cbn [length]. lia.
Qed.

(** [int] on a text of ASCII digits: a number that is not negative when
    the text has between 1 and 4300 digits, [ValueError] otherwise. *)
Lemma int_of_digits s :
  Forall is_digit (list_ascii_of_string s) ->
  (s <> EmptyString /\ (Z.of_nat (String.length s) <= 4300)%Z ->
   exists v, Py.int s = Some v /\ (0 <= v)%Z) /\
  (s = EmptyString \/ (4300 < Z.of_nat (String.length s))%Z ->
   Py.int s = None).
Proof.
  intros Hd. rewrite int_ascii by now apply digits_ascii.
  unfold Py.parse_int. rewrite strip_digits by exact Hd.
  rewrite <- length_chars.
  destruct s as [|c s]; cbn [list_ascii_of_string] in *.
  { split; [intros [H _]; congruence | reflexivity]. }
  inversion Hd as [|? ? Hc Hs]; subst.
  destruct (digit_not_sign c Hc) as [-> ->]. cbn [orb].
  destruct (digits_of_digits _ Hd 0%Z 0%N false) as (v & -> & Hv);
    [left; discriminate | lia |].
  unfold Py.max_str_digits. split.
  - intros [_ Hlen]. exists v. split; [|exact Hv].
    replace (_ <=? _)%N with true by (symmetry; apply N.leb_le; lia).
    reflexivity.
  - intros [H | Hlen]; [discriminate|].
    replace (_ <=? _)%N with false by (symmetry; apply N.leb_gt; lia).
    reflexivity.
Qed.

(** [int] reads the decimal text of a number back as that number, up to
    the limit on the digits. *)
Lemma int_decimal n :
  (Z.of_nat (String.length (decimal n)) <= 4300)%Z ->
  Py.int (decimal n) = Some (Z.of_N n).
Proof.
  intros Hlen. rewrite <- length_chars in Hlen.
  rewrite int_ascii by apply digits_ascii, decimal_digits.
  destruct (decimal_chars n) as [E Hnil]. rewrite E in *.
  unfold Py.parse_int. rewrite strip_digits by apply numeral_digits.
  pose proof (numeral_digits (N.to_uint n)) as Hd.
  pose proof (digits_numeral (N.to_uint n) 0) as Hv.
  change (Pos.of_uint (N.to_uint n)) with (N.of_uint (N.to_uint n)) in Hv.
  rewrite DecimalN.Unsigned.of_to in Hv.
  destruct (numeral (N.to_uint n)) as [|c l] eqn:El.
  - exfalso. apply Hnil. unfold numeral in El.
    destruct (N.to_uint n); simpl in El; congruence.
  - inversion Hd as [|? ? Hc _]; subst.
    destruct (digit_not_sign c Hc) as [-> ->]. cbn [orb].
    assert (D : Py.digits 0 0 false (c :: l) = Py.digits 0 0 true (c :: l)).
    { cbn [Py.digits]. unfold is_digit in Hc.
      destruct (Py.digit_of c); [reflexivity | congruence]. }
    rewrite D, Hv. unfold Py.max_str_digits.
    replace (_ <=? _)%N with true by (symmetry; apply N.leb_le; lia).
    reflexivity.
Qed.

Lemma int_decimal_long n :
  (4300 < Z.of_nat (String.length (decimal n)))%Z ->
  Py.int (decimal n) = None.
Proof.
  intros Hlen. apply (int_of_digits _ (decimal_digits n)). now right.
Qed.

Lemma decimal_not_sentinel n :
  decimal n <> ">10" /\ (n <> 1%N -> decimal n <> "1").
Proof.
  split.
  - intros E. pose proof (decimal_digits n) as H. rewrite E in H.
    inversion H as [|? ? Hc _]. now apply Hc.
  - intros Hn E. pose proof (int_decimal n) as H. rewrite E in H.
    specialize (H ltac:(cbn; lia)). vm_compute in H.
    apply Hn. destruct n as [|p]; [discriminate|].
    injection H as H. now subst.
Qed.

(** ** Chunks *)

Lemma chunk_at_length {A} n (l : list A) j :
  length (chunk_at n l j) = Nat.min n (length l - j * n).
Proof. unfold chunk_at. now rewrite length_firstn, length_skipn. Qed.

Lemma chunks_concat {A} n k :
  forall l : list A, length l <= k * n -> concat (map (chunk_at n l) (seq 0 k)) = l.
Proof.
  induction k as [|k IH]; intros l Hl.
  - simpl in *. destruct l; [reflexivity | simpl in Hl; lia].
  - cbn [seq map concat]. rewrite <- seq_shift, map_map.
    rewrite (map_ext (fun j => chunk_at n l (S j)) (chunk_at n (skipn n l))).
    + rewrite IH.
      * unfold chunk_at. simpl. apply firstn_skipn.
      * rewrite length_skipn. simpl in Hl. lia.
    + intros j. unfold chunk_at. rewrite skipn_skipn.
      do 2 f_equal. simpl. lia.
Qed.

Lemma slice_chunk {A} (l : list A) (i n : Z) :
  (0 <= i)%Z -> (0 < n)%Z ->
  Py.slice l i (i + n) = firstn (Z.to_nat n) (skipn (Z.to_nat i) l).
Proof.
  intros Hi Hn. unfold Py.slice.
  destruct (i <? 0)%Z eqn:E1; [apply Z.ltb_lt in E1; lia|].
  destruct (i + n <? 0)%Z eqn:E2; [apply Z.ltb_lt in E2; lia|].
  destruct (Z_le_gt_dec i (Z.of_nat (length l))) as [Hle|Hgt].
  - replace (Z.to_nat (Z.max 0 (Z.min (Z.of_nat (length l)) i))) with (Z.to_nat i)
      by (f_equal; lia).
    destruct (Z_le_gt_dec (i + n) (Z.of_nat (length l))) as [Hle'|Hgt'].
    + f_equal. lia.
    + rewrite !firstn_all2; trivial; rewrite length_skipn; lia.
  - rewrite !skipn_all2 by lia. now rewrite !firstn_nil.
Qed.

Lemma chunk_count_bounds len n :
  (0 < n)%Z ->
  (Z.of_nat len <= Z.of_nat (chunk_count len n) * n)%Z /\
  (0 < len -> 0 < chunk_count len n /\
              ((Z.of_nat (chunk_count len n) - 1) * n < Z.of_nat len)%Z) /\
  (len = 0 -> chunk_count len n = 0).
Proof.
  intros Hn. unfold chunk_count, Py.range_length.
  destruct (0 <? n)%Z eqn:E; [|apply Z.ltb_ge in E; lia].
  destruct (0 <? Z.of_nat len)%Z eqn:E'.
  - apply Z.ltb_lt in E'.
    pose proof (Z.mul_div_le (Z.of_nat len - 0 - 1) n Hn).
    pose proof (Z.mul_succ_div_gt (Z.of_nat len - 0 - 1) n Hn).
    assert (0 <= (Z.of_nat len - 0 - 1) / n)%Z by (apply Z.div_pos; lia).
    rewrite Z2Nat.id by lia. repeat split; try lia.
  - apply Z.ltb_ge in E'. simpl. repeat split; lia.
Qed.

Lemma divide_positive {A} (lst : list A) (n : Z) :
  (0 < n)%Z ->
  Seller.divide lst n =
  Ok (map (chunk_at (Z.to_nat n) lst) (seq 0 (chunk_count (length lst) n))).
Proof.
  intros Hn. unfold Seller.divide, Py.range.
  destruct (n =? 0)%Z eqn:E; [apply Z.eqb_eq in E; lia|].
  unfold res_map. simpl. f_equal. rewrite map_map.
  apply map_ext. intros j. rewrite slice_chunk by lia.
  unfold chunk_at. do 2 f_equal. lia.
Qed.

Lemma last_chunk_arith (len n k : Z) :
  (0 < n)%Z -> (len <= k * n)%Z -> ((k - 1) * n < len)%Z ->
  (len - (k - 1) * n)%Z = (if (len mod n =? 0)%Z then n else len mod n)%Z.
Proof.
  intros Hn Hle Hlt.
  pose proof (Z.div_mod len n ltac:(lia)) as Hd.
  pose proof (Z.mod_pos_bound len n Hn) as Hr.
  destruct (len mod n =? 0)%Z eqn:E.
  - apply Z.eqb_eq in E.
    assert (len / n = k)%Z by nia. nia.
  - apply Z.eqb_neq in E.
    assert (len / n = k - 1)%Z by nia. nia.
Qed.

Lemma nth_chunks {A} n (l : list A) k j :
  j < k -> nth j (map (chunk_at n l) (seq 0 k)) [] = chunk_at n l j.
Proof.
  intros Hj.
  rewrite (nth_indep _ [] (chunk_at n l 0)) by now rewrite length_map, length_seq.
  rewrite map_nth, seq_nth by trivial. reflexivity.
Qed.

Lemma last_chunks {A} n (l : list A) k :
  last (map (chunk_at n l) (seq 0 (S k))) [] = chunk_at n l k.
Proof. rewrite seq_S, map_app. cbn [map]. now rewrite last_last. Qed.

(** What [divide] returns for a positive size, chunk by chunk. *)
Lemma divide_chunks_shape {A} (lst : list A) (n : Z) :
  (0 < n)%Z ->
  exists chunks,
    Seller.divide lst n = Ok chunks /\
    concat chunks = lst /\
    (forall c, In c chunks -> 0 < length c <= Z.to_nat n) /\
    (forall j, S j < length chunks -> length (nth j chunks []) = Z.to_nat n) /\
    (lst <> [] ->
     Z.of_nat (length (last chunks [])) =
     let len := Z.of_nat (length lst) in
     if (len mod n =? 0)%Z then n else (len mod n)%Z).
Proof.
  intros Hn. eexists. split; [apply divide_positive; exact Hn|].
  destruct (chunk_count_bounds (length lst) n Hn) as (Hup & Hlow & Hzero).
  set (k := chunk_count (length lst) n) in *.
  assert (Hn' : Z.of_nat (Z.to_nat n) = n) by lia.
  split; [|split; [|split]].
  - apply chunks_concat. nia.
  - intros c Hc. apply in_map_iff in Hc as (j & <- & Hj).
    apply in_seq in Hj. rewrite chunk_at_length.
    destruct (length lst) as [|m] eqn:El; [rewrite Hzero in Hj; lia|].
    destruct Hlow as [_ Hlow]; [lia|]. nia.
  - intros j Hj. rewrite length_map, length_seq in Hj.
    rewrite nth_chunks by lia. rewrite chunk_at_length.
    destruct (length lst) as [|m] eqn:El; [rewrite Hzero in Hj; lia|].
    destruct Hlow as [_ Hlow]; [lia|]. nia.
  - intros Hne. cbv zeta.
    assert (0 < length lst) as Hpos by (destruct lst; simpl; [congruence | lia]).
    destruct (Hlow Hpos) as [Hk Hlast].
    destruct k as [|k']; [lia|].
    rewrite last_chunks, chunk_at_length.
    rewrite <- (last_chunk_arith _ n (Z.of_nat (S k'))) by lia.
    nia.
Qed.

(** ** Claims about the quantity rule and the chunker *)

(** C2. The quantity rule of [create_stocks]: [">10"] becomes 100, ["1"]
    becomes 0, and every other token goes through [int], which returns
    the integer the token denotes and raises [ValueError] for a token
    that denotes none (so ["37"] becomes 37).

    What a token denotes is stated by the grammar of [int], not by its
    code.  A token is the text of a list of code points.  Folded to ASCII
    (a white space of Unicode counts as a space, a decimal digit of any
    script as the ASCII digit of its value) it has to be: white space, an
    optional sign, decimal digits with single underscores allowed between
    two digits and at most 4300 digits in all, white space.  Its value is
    the signed positional value of the digits.  For such a token the rule
    returns that value, and for every other token it raises [ValueError];
    on ASCII text nothing is folded.  In particular the decimal text of a
    natural number other than 1 becomes that number when it has at most
    4300 digits, and is refused by the interpreter when it has more. *)
Theorem quantity_normalization :
  Seller.stock_of_count ">10" = Ok 100%Z /\
  Seller.stock_of_count "1" = Ok 0%Z /\
  Seller.stock_of_count "37" = Ok 37%Z /\
  (forall cps : list N,
     Forall code_point cps -> text cps <> ">10" -> text cps <> "1" ->
     (forall v, Seller.stock_of_count (text cps) = Ok v <-> reads_as cps v) /\
     ((forall v, ~ reads_as cps v) ->
      Seller.stock_of_count (text cps) = Raise ValueError)) /\
  (forall count : string,
     ascii_text count -> count <> ">10" -> count <> "1" ->
     (forall v, Seller.stock_of_count count = Ok v <->
                int_literal (list_ascii_of_string count) v) /\
     ((forall v, ~ int_literal (list_ascii_of_string count) v) ->
      Seller.stock_of_count count = Raise ValueError)) /\
  (forall n : N,
     n <> 1%N ->
     ((Z.of_nat (String.length (decimal n)) <= 4300)%Z ->
      Seller.stock_of_count (decimal n) = Ok (Z.of_N n)) /\
     ((4300 < Z.of_nat (String.length (decimal n)))%Z ->
      Seller.stock_of_count (decimal n) = Raise ValueError)).
Proof.
  assert (Hgen : forall count, count <> ">10" -> count <> "1" ->
            Seller.stock_of_count count =
            match Py.int count with Some v => Ok v | None => Raise ValueError end).
  { intros count H1 H2. unfold Seller.stock_of_count.
    apply String.eqb_neq in H1, H2. now rewrite H1, H2. }
  assert (Hspec : forall count (P : Z -> Prop),
            count <> ">10" -> count <> "1" ->
            (forall v, Py.int count = Some v <-> P v) ->
            (forall v, Seller.stock_of_count count = Ok v <-> P v) /\
            ((forall v, ~ P v) ->
             Seller.stock_of_count count = Raise ValueError)).
  { intros count P H1 H2 HP. rewrite (Hgen _ H1 H2). split.
    - intros v. rewrite <- HP.
      destruct (Py.int count); split; congruence.
    - intros Hno. destruct (Py.int count) as [v|] eqn:E; [|reflexivity].
      exfalso. now apply (Hno v), HP. }
  split; [reflexivity|]. split; [reflexivity|]. split; [reflexivity|].
  split; [|split].
  - intros cps Hcps H1 H2. apply (Hspec _ _ H1 H2).
    intros v. now apply int_text.
  - intros count Ha H1 H2. apply (Hspec _ _ H1 H2).
    intros v. rewrite (int_ascii _ Ha). apply parse_int_literal.
  - intros n Hn. destruct (decimal_not_sentinel n) as [H1 H2].
    rewrite Hgen by auto. split; intros Hlen.
    + now rewrite int_decimal.
    + now rewrite int_decimal_long.
Qed.

Lemma quantity_normalization_witness :
  (reads_as [160; 1635; 1639; 8195]%N 37 /\
   Seller.stock_of_count (text [160; 1635; 1639; 8195]%N) = Ok 37%Z) /\
  (int_literal (list_ascii_of_string " -1_2 ") (-12) /\
   Seller.stock_of_count " -1_2 " = Ok (-12)%Z) /\
  Seller.stock_of_count "1.5" = Raise ValueError /\
  Seller.stock_of_count (decimal 250) = Ok 250%Z /\
  Seller.stock_of_count (decimal (10 ^ 4300)) = Raise ValueError.
Proof.
  destruct quantity_normalization as (_ & _ & _ & Htext & Hascii & Hdec).
  assert (H3 : digit_value "3" 3) by (unfold digit_value; cbn [In]; tauto).
  assert (H7 : digit_value "7" 7) by (unfold digit_value; cbn [In]; tauto).
  assert (H1 : digit_value "1" 1) by (unfold digit_value; cbn [In]; tauto).
  assert (H2 : digit_value "2" 2) by (unfold digit_value; cbn [In]; tauto).
  assert (Hb : Forall blank [" "%char])
    by (repeat constructor; unfold blank; cbn [In]; tauto).
  assert (Hr : reads_as [160; 1635; 1639; 8195]%N 37).
  { exists (list_ascii_of_string " 37 "). split.
    - constructor; [apply (folded_space _ (160, 160)%N) |];
        [cbn; tauto | unfold within; cbn; lia |].
      constructor; [apply (folded_digit 1635 (1632, 1641)%N) |];
        [cbn; tauto | unfold within; cbn; lia |].
      constructor; [apply (folded_digit 1639 (1632, 1641)%N) |];
        [cbn; tauto | unfold within; cbn; lia |].
      constructor; [apply (folded_space _ (8192, 8202)%N) |];
        [cbn; tauto | unfold within; cbn; lia |].
      constructor.
    - exists [" "%char], [], 1%Z, ["3"; "7"]%char, [3; 7]%Z, [" "%char].
      split; [reflexivity|]. split; [exact Hb|]. split; [constructor|].
      split; [|split; [exact Hb | split; [cbn; lia | reflexivity]]].
      exists "3"%char, 3%Z, ["7"%char], [7%Z].
      repeat split; trivial. now repeat constructor. }
  assert (Hl : int_literal (list_ascii_of_string " -1_2 ") (-12)).
  { exists [" "%char], ["-"%char], (-1)%Z, ["1"; "_"; "2"]%char, [1; 2]%Z,
      [" "%char].
    split; [reflexivity|]. split; [exact Hb|]. split; [constructor|].
    split; [|split; [exact Hb | split; [cbn; lia | reflexivity]]].
    exists "1"%char, 1%Z, ["_"; "2"]%char, [2%Z].
    repeat split; trivial. now repeat constructor. }
  split; [|split; [|split; [|split]]].
  - split; [exact Hr|].
    apply (Htext [160; 1635; 1639; 8195]%N);
      [repeat constructor | discriminate | discriminate | exact Hr].
  - split; [exact Hl|].
    apply (Hascii " -1_2 ");
      [repeat constructor | discriminate | discriminate | exact Hl].
  - apply (Hascii "1.5"); [repeat constructor | discriminate | discriminate |].
    intros v Hv. apply parse_int_literal in Hv. discriminate Hv.
  - apply (Hdec 250%N); [discriminate | vm_compute; discriminate].
  - apply (Hdec (10 ^ 4300)%N); [vm_compute; discriminate | vm_compute; reflexivity].
Defined.

(** C8, as the code has it.  [divide] fails with [ValueError] for size 0;
    for a negative size it does not fail and yields no chunk at all; for a
    positive size it cuts the list, in order, into chunks of that size,
    the last one holding the remainder ([len mod size] items, or [size]
    when that is 0), and an empty list gives no chunk. *)
Theorem divide_chunks {A} (lst : list A) (n : Z) :
  (n = 0%Z -> Seller.divide lst n = Raise ValueError) /\
  ((n < 0)%Z -> Seller.divide lst n = Ok []) /\
  ((0 < n)%Z ->
   exists chunks,
     Seller.divide lst n = Ok chunks /\
     concat chunks = lst /\
     (forall c, In c chunks -> 0 < length c <= Z.to_nat n) /\
     (forall j, S j < length chunks -> length (nth j chunks []) = Z.to_nat n) /\
     (lst <> [] ->
      Z.of_nat (length (last chunks [])) =
      let len := Z.of_nat (length lst) in
      if (len mod n =? 0)%Z then n else (len mod n)%Z)).
Proof.
  split; [|split].
  - intros ->. reflexivity.
  - intros Hn. unfold Seller.divide, Py.range, Py.range_length.
    destruct (n =? 0)%Z eqn:E; [apply Z.eqb_eq in E; lia|].
    destruct (0 <? n)%Z eqn:E1; [apply Z.ltb_lt in E1; lia|].
    destruct (Z.of_nat (length lst) <? 0)%Z eqn:E2; [apply Z.ltb_lt in E2; lia|].
    reflexivity.
  - apply divide_chunks_shape.
Qed.

Lemma divide_chunks_witness :
  Seller.divide [1; 2; 3] 0 = Raise ValueError /\
  Seller.divide [1; 2; 3] (-2) = Ok [] /\
  exists chunks, Seller.divide [1; 2; 3] 2 = Ok chunks /\ concat chunks = [1; 2; 3].
Proof.
  destruct (divide_chunks [1; 2; 3] 0) as (H0 & _ & _).
  destruct (divide_chunks [1; 2; 3] (-2)) as (_ & Hneg & _).
  destruct (divide_chunks [1; 2; 3] 2) as (_ & _ & Hpos).
  split; [apply H0; reflexivity|].
  split; [apply Hneg; reflexivity|].
  destruct (Hpos ltac:(reflexivity)) as (chunks & Hc & Hcat & _).
  exists chunks. split; assumption.
Defined.

(** C8 as stated fails: a negative size is not rejected. *)
Lemma divide_negative_size_accepted :
  (-1 <= 0)%Z /\
  Seller.divide [1; 2; 3] (-1) = Ok [] /\
  forall e, Seller.divide [1; 2; 3] (-1) <> Raise e.
Proof.
  split; [lia|]. split; [reflexivity|]. intros e. discriminate.
Qed.

(** ** Lists of identifiers *)

Lemma contains_In x l : Py.contains x l = true <-> In x l.
Proof.
  induction l as [|y l IH]; simpl; [split; [discriminate | tauto]|].
  destruct (String.eqb_spec y x) as [->|Hne]; [tauto|].
  rewrite IH. split; [tauto | intros [H|H]; [congruence | exact H]].
Qed.

Lemma contains_false x l : Py.contains x l = false <-> ~ In x l.
Proof.
  rewrite <- contains_In. destruct (Py.contains x l); split; congruence.
Qed.

Lemma remove_contained x l :
  Py.contains x l = true -> Py.remove x l = Ok (remove_first x l).
Proof.
  induction l as [|y l IH]; simpl; [discriminate|].
  destruct (String.eqb y x); [reflexivity|].
  intros H. now rewrite IH.
Qed.

Lemma remove_first_absent x l : ~ In x l -> remove_first x l = l.
Proof.
  induction l as [|y l IH]; simpl; [reflexivity|].
  intros H. destruct (String.eqb_spec y x) as [->|Hne]; [tauto|].
  f_equal. apply IH. tauto.
Qed.

Lemma remove_first_In x y l : In y (remove_first x l) -> In y l.
Proof.
  induction l as [|z l IH]; simpl; [tauto|].
  destruct (String.eqb z x); simpl; tauto.
Qed.

Lemma remove_first_other x y l : x <> y -> In y l -> In y (remove_first x l).
Proof.
  intros Hne. induction l as [|z l IH]; simpl; [tauto|].
  destruct (String.eqb_spec z x) as [->|Hz]; simpl; [intros [H|H]; congruence|tauto].
Qed.

Lemma remove_first_NoDup x l : NoDup l -> NoDup (remove_first x l).
Proof.
  induction 1 as [|z l Hz Hl IH]; simpl; [constructor|].
  destruct (String.eqb z x); [exact Hl|].
  constructor; [|exact IH]. intros H. apply Hz. eapply remove_first_In, H.
Qed.

Lemma remove_first_filter x l :
  NoDup l -> remove_first x l = filter (fun id => negb (String.eqb id x)) l.
Proof.
  induction 1 as [|z l Hz Hl IH]; simpl; [reflexivity|].
  destruct (String.eqb_spec z x) as [->|Hne]; simpl.
  - rewrite <- IH. symmetry. apply remove_first_absent, Hz.
  - now rewrite IH.
Qed.

Lemma remove_first_length x l :
  In x l -> S (length (remove_first x l)) = length l.
Proof.
  induction l as [|z l IH]; simpl; [tauto|].
  destruct (String.eqb_spec z x) as [->|Hne]; [reflexivity|].
  intros [H|H]; [congruence|]. simpl. now rewrite IH.
Qed.

Lemma contains_remove_first_other x y l :
  x <> y -> Py.contains y (remove_first x l) = Py.contains y l.
Proof.
  intros Hne. destruct (Py.contains y l) eqn:E.
  - apply contains_In. apply contains_In in E. now apply remove_first_other.
  - apply contains_false. apply contains_false in E.
    intros H. apply E. eapply remove_first_In, H.
Qed.

Lemma filter_filter {A} (f g : A -> bool) l :
  filter f (filter g l) = filter (fun a => g a && f a) l.
Proof.
  induction l as [|a l IH]; simpl; [reflexivity|].
  destruct (g a); simpl; [destruct (f a)|]; now rewrite IH.
Qed.

Lemma filter_all {A} (f : A -> bool) l :
  (forall a, In a l -> f a = true) -> filter f l = l.
Proof.
  induction l as [|a l IH]; simpl; intros H; [reflexivity|].
  rewrite (H a) by tauto. f_equal. apply IH. intros b Hb. apply H. tauto.
Qed.

(** ** Reconciliation *)

Lemma matched_distinct feed :
  NoDup (map Kod feed) ->
  forall ids, matched feed ids = filter (fun w => Py.contains (Kod w) ids) feed.
Proof.
  induction feed as [|w rest IH]; simpl; intros Hnd ids; [reflexivity|].
  inversion Hnd as [|? ? Hw Hrest]; subst.
  destruct (Py.contains (Kod w) ids); [|now apply IH].
  f_equal. rewrite IH by exact Hrest.
  apply filter_ext_in. intros w' Hw'.
  apply contains_remove_first_other. intros E. apply Hw.
  rewrite E. now apply in_map.
Qed.

Lemma depleted_distinct feed :
  forall ids, NoDup ids ->
  depleted feed ids = filter (fun id => negb (Py.contains id (map Kod feed))) ids.
Proof.
  unfold depleted.
  induction feed as [|w rest IH]; simpl; intros ids Hnd.
  - symmetry. now apply filter_all.
  - rewrite IH by now apply remove_first_NoDup.
    rewrite remove_first_filter by exact Hnd.
    rewrite filter_filter. apply filter_ext. intros id.
    rewrite (String.eqb_sym (Kod w) id).
    now destruct (String.eqb id (Kod w)).
Qed.

Lemma matched_depleted_length feed :
  forall ids, length (matched feed ids) + length (depleted feed ids) = length ids.
Proof.
  unfold depleted.
  induction feed as [|w rest IH]; simpl; intros ids; [reflexivity|].
  destruct (Py.contains (Kod w) ids) eqn:E.
  - simpl. rewrite IH. apply remove_first_length. now apply contains_In.
  - rewrite remove_first_absent by now apply contains_false. apply IH.
Qed.

Lemma traverse_length {A B} (f : A -> res B) l r :
  traverse f l = Ok r -> length r = length l.
Proof.
  revert r. induction l as [|a l IH]; simpl; intros r H.
  - now inversion H.
  - apply res_bind_ok in H as (b & _ & H).
    apply res_map_ok in H as (r' & Hr' & ->). simpl. f_equal. now apply IH.
Qed.

Lemma stocks_loop_cons w rest acc ids :
  Seller.stocks_loop (w :: rest) acc ids =
  if Py.contains (Kod w) ids then
    match Seller.stock_of_count (Kolichestvo w) with
    | Ok n =>
        match Py.remove (Kod w) ids with
        | Ok ids' =>
            Seller.stocks_loop rest
              (acc ++ [{| Seller.offer_id := Kod w; Seller.stock := n |}]) ids'
        | Raise e => (Raise e, ids)
        end
    | Raise e => (Raise e, ids)
    end
  else Seller.stocks_loop rest acc ids.
Proof.
  cbn [Seller.stocks_loop]. unfold bind, get, lift, put.
  destruct (Py.contains (Kod w) ids); [|reflexivity].
  destruct (Seller.stock_of_count (Kolichestvo w)); [|reflexivity].
  destruct (Py.remove (Kod w) ids); reflexivity.
Qed.

Lemma stocks_loop_run feed :
  forall acc ids,
    fst (Seller.stocks_loop feed acc ids) =
      res_map (app acc) (traverse stock_item (matched feed ids)) /\
    (forall r ids', Seller.stocks_loop feed acc ids = (Ok r, ids') ->
                    ids' = depleted feed ids).
Proof.
  induction feed as [|w rest IH]; intros acc ids.
  - simpl. unfold ret, res_map. simpl. rewrite app_nil_r.
    split; [reflexivity|]. intros r ids' H. now inversion H.
  - rewrite stocks_loop_cons. cbn [matched]. unfold depleted. cbn [fold_left].
    destruct (Py.contains (Kod w) ids) eqn:E.
    + cbn [traverse]. unfold stock_item at 1.
      destruct (Seller.stock_of_count (Kolichestvo w)) as [n|e]; simpl.
      * rewrite remove_contained by exact E.
        destruct (IH (acc ++ [{| Seller.offer_id := Kod w; Seller.stock := n |}])
                     (remove_first (Kod w) ids)) as [IH1 IH2].
        split; [|exact IH2].
        rewrite IH1.
        destruct (traverse stock_item (matched rest (remove_first (Kod w) ids)));
          simpl; [|reflexivity].
        now rewrite <- app_assoc.
      * split; [reflexivity|]. intros r ids' H. discriminate.
    + rewrite remove_first_absent by now apply contains_false.
      apply IH.
Qed.

(** [create_stocks] without the monad: the entries of the matched
    records, then a zero entry for each identifier left in the list. *)
Lemma create_stocks_run feed ids :
  fst (Seller.create_stocks feed ids) =
    res_map (fun entries => entries ++ map stub (depleted feed ids))
            (traverse stock_item (matched feed ids)) /\
  (forall r ids', Seller.create_stocks feed ids = (Ok r, ids') ->
                  ids' = depleted feed ids).
Proof.
  unfold Seller.create_stocks, bind, get, ret.
  destruct (stocks_loop_run feed [] ids) as [H1 H2].
  destruct (Seller.stocks_loop feed [] ids) as [[stocks|e] ids'] eqn:E;
    simpl in H1.
  - specialize (H2 stocks ids' eq_refl). subst ids'.
    split; [|intros r ids'' H; now inversion H].
    simpl. destruct (traverse stock_item (matched feed ids)); simpl in *;
      [|discriminate].
    inversion H1. reflexivity.
  - split; [|intros r ids'' H; discriminate].
    simpl. destruct (traverse stock_item (matched feed ids)); simpl in *;
      [discriminate | exact H1].
Qed.

Lemma market_stocks_loop feed warehouse_id date :
  forall acc ids,
    Market.stocks_loop feed warehouse_id date (map (to_market warehouse_id date) acc) ids =
    (res_map (map (to_market warehouse_id date)) (fst (Seller.stocks_loop feed acc ids)),
     snd (Seller.stocks_loop feed acc ids)).
Proof.
  induction feed as [|w rest IH]; intros acc ids; [reflexivity|].
  rewrite stocks_loop_cons. cbn [Market.stocks_loop]. unfold bind, get, lift, put.
  destruct (Py.contains (Kod w) ids); [|apply IH].
  destruct (Seller.stock_of_count (Kolichestvo w)) as [n|e]; [|reflexivity].
  destruct (Py.remove (Kod w) ids) as [ids'|e]; [|reflexivity].
  rewrite <- IH, map_app. reflexivity.
Qed.

(** The Yandex.Market variant computes what the Ozon variant computes,
    entry by entry, and leaves the same list behind. *)
Lemma market_create_stocks feed warehouse_id date ids :
  Market.create_stocks feed warehouse_id date ids =
  (res_map (map (to_market warehouse_id date)) (fst (Seller.create_stocks feed ids)),
   snd (Seller.create_stocks feed ids)).
Proof.
  unfold Market.create_stocks, Seller.create_stocks, bind, get, ret.
  change (@nil Market.stock_entry) with (map (to_market warehouse_id date) []).
  rewrite (market_stocks_loop feed warehouse_id date [] ids).
  destruct (Seller.stocks_loop feed [] ids) as [[stocks|e] ids']; simpl;
    [|reflexivity].
  now rewrite map_app, map_map.
Qed.

Lemma seller_prices_loop feed :
  forall acc ids,
    Seller.prices_loop feed acc ids = (Ok (acc ++ map seller_price (listed ids feed)), ids).
Proof.
  induction feed as [|w rest IH]; intros acc ids; simpl.
  - unfold ret. now rewrite app_nil_r.
  - unfold bind, get.
    destruct (Py.contains (Kod w) ids); [|apply IH].
    rewrite IH. simpl. now rewrite <- app_assoc.
Qed.

Lemma market_prices_loop feed :
  forall acc ids,
    Market.prices_loop feed acc ids =
    (res_map (app acc) (traverse market_price (listed ids feed)), ids).
Proof.
  induction feed as [|w rest IH]; intros acc ids; simpl.
  - unfold ret, res_map. simpl. now rewrite app_nil_r.
  - unfold bind, get, lift.
    destruct (Py.contains (Kod w) ids); [|apply IH].
    simpl. unfold market_price at 1.
    destruct (Py.int (Seller.price_conversion (Tsena w))) as [v|]; [|reflexivity].
    rewrite IH. simpl.
    destruct (traverse market_price (listed ids rest)); simpl; [|reflexivity].
    now rewrite <- app_assoc.
Qed.

(** ** Claims about reconciliation *)

(** C1, as the code has it.  When the identifiers of the feed are pairwise
    distinct and so are those of the remote list, [create_stocks] returns
    the full outer join of feed and remote catalogue: the entries of the
    feed records whose identifier is listed remotely, in feed order, with
    the normalised quantity, then a zero entry for every remote identifier
    the feed does not carry, in remote order; feed records not listed
    remotely give nothing.  It raises what the quantity rule raises on
    the first listed record it cannot normalise.  The Yandex.Market
    variant returns the same entries in its own format. *)
Theorem create_stocks_outer_join (feed : list watch) (remote : list string) :
  NoDup (map Kod feed) -> NoDup remote ->
  fst (Seller.create_stocks feed remote) = full_outer_join feed remote /\
  forall warehouse_id date,
    fst (Market.create_stocks feed warehouse_id date remote) =
    res_map (map (to_market warehouse_id date)) (full_outer_join feed remote).
Proof.
  intros Hfeed Hremote.
  assert (H : fst (Seller.create_stocks feed remote) = full_outer_join feed remote).
  { destruct (create_stocks_run feed remote) as [-> _].
    unfold full_outer_join.
    now rewrite matched_distinct, depleted_distinct. }
  split; [exact H|].
  intros warehouse_id date. rewrite market_create_stocks. simpl. now rewrite H.
Qed.

Lemma create_stocks_outer_join_witness :
  NoDup (map Kod [watch_123; watch_777]) /\
  NoDup ["124"; "123"] /\
  fst (Seller.create_stocks [watch_123; watch_777] ["124"; "123"]) =
  Ok [{| Seller.offer_id := "123"; Seller.stock := 10%Z |};
      {| Seller.offer_id := "124"; Seller.stock := 0%Z |}].
Proof.
  assert (H1 : NoDup (map Kod [watch_123; watch_777]))
    by (repeat constructor; simpl; intuition discriminate).
  assert (H2 : NoDup ["124"; "123"])
    by (repeat constructor; simpl; intuition discriminate).
  split; [exact H1|]. split; [exact H2|].
  exact (eq_trans
           (proj1 (create_stocks_outer_join [watch_123; watch_777] ["124"; "123"] H1 H2))
           eq_refl).
Defined.

(** C1 as stated fails: of two feed records with the same identifier only
    the first is matched, although the identifier is in the remote
    list. *)
Lemma create_stocks_repeated_feed_identifier :
  fst (Seller.create_stocks [watch_123; watch_123_again] ["123"]) =
    Ok [{| Seller.offer_id := "123"; Seller.stock := 10%Z |}] /\
  full_outer_join [watch_123; watch_123_again] ["123"] =
    Ok [{| Seller.offer_id := "123"; Seller.stock := 10%Z |};
        {| Seller.offer_id := "123"; Seller.stock := 7%Z |}] /\
  fst (Seller.create_stocks [watch_123; watch_123_again] ["123"]) <>
    full_outer_join [watch_123; watch_123_again] ["123"].
Proof.
  split; [reflexivity|]. split; [reflexivity|].
  vm_compute. discriminate.
Qed.

(** C3, as the code has it.  When [create_stocks] returns, the list it
    was given holds the identifiers that received a zero entry and nothing
    else: one occurrence has been removed for each feed record matched,
    as it was consumed, and the rest stays, in order.  Every remote
    identifier thus ends either consumed by a feed entry or left in the
    list; with pairwise distinct remote identifiers the list left is the
    remote list without the identifiers of the feed, so it is empty only
    when the feed carries every remote identifier. *)
Theorem create_stocks_leaves_unmatched
    (feed : list watch) (remote : list string)
    (stocks : list Seller.stock_entry) (remaining : list string) :
  Seller.create_stocks feed remote = (Ok stocks, remaining) ->
  remaining = depleted feed remote /\
  (exists entries,
      stocks = entries ++ map stub remaining /\
      length entries + length remaining = length remote) /\
  (NoDup remote ->
   remaining = filter (fun id => negb (Py.contains id (map Kod feed))) remote /\
   (remaining = [] <-> forall id, In id remote -> In id (map Kod feed))).
Proof.
  intros Hrun.
  destruct (create_stocks_run feed remote) as [Hres Hleft].
  specialize (Hleft _ _ Hrun). rewrite Hrun in Hres. simpl in Hres.
  split; [exact Hleft|]. split.
  - symmetry in Hres. apply res_map_ok in Hres as (entries & Htr & ->).
    exists entries. rewrite <- Hleft. split; [reflexivity|].
    rewrite (traverse_length _ _ _ Htr), Hleft.
    apply matched_depleted_length.
  - intros Hnd. rewrite depleted_distinct in Hleft by exact Hnd.
    split; [exact Hleft|]. rewrite Hleft. split.
    + intros Hempty id Hid.
      destruct (Py.contains id (map Kod feed)) eqn:E; [now apply contains_In|].
      assert (Hin : In id (filter (fun id => negb (Py.contains id (map Kod feed))) remote)).
      { apply filter_In. rewrite E. now split. }
      rewrite Hempty in Hin. destruct Hin.
    + intros Hall.
      destruct (filter (fun id => negb (Py.contains id (map Kod feed))) remote)
        as [|id l] eqn:E; [reflexivity|].
      assert (Hin : In id (id :: l)) by now left.
      rewrite <- E in Hin. apply filter_In in Hin as [Hin Hno].
      apply Hall, contains_In in Hin. rewrite Hin in Hno. discriminate.
Qed.

Lemma create_stocks_leaves_unmatched_witness :
  Seller.create_stocks [watch_123] ["123"; "124"] =
    (Ok [{| Seller.offer_id := "123"; Seller.stock := 10%Z |};
         {| Seller.offer_id := "124"; Seller.stock := 0%Z |}], ["124"]) /\
  ["124"] = depleted [watch_123] ["123"; "124"].
Proof.
  assert (H : Seller.create_stocks [watch_123] ["123"; "124"] =
              (Ok [{| Seller.offer_id := "123"; Seller.stock := 10%Z |};
                   {| Seller.offer_id := "124"; Seller.stock := 0%Z |}], ["124"]))
    by reflexivity.
  split; [exact H|].
  exact (proj1 (create_stocks_leaves_unmatched _ _ _ _ H)).
Defined.

(** C3 as stated fails on the example of the specification itself: the
    list is left holding ["124"]. *)
Lemma create_stocks_working_list_not_emptied :
  snd (Seller.create_stocks [watch_123] ["123"; "124"]) = ["124"] /\
  snd (Seller.create_stocks [watch_123] ["123"; "124"]) <> [].
Proof. split; [reflexivity | discriminate]. Qed.

(** C7.  [create_prices] leaves the identifier list as it found it, in
    both programs; called a second time on the same feed and the list it
    left, it returns what it returned the first time; and its entries are
    those of the feed records whose identifier is in the list, in feed
    order: no entry is made up for an identifier only the marketplace
    has. *)
Theorem create_prices_reads_only (feed : list watch) (ids : list string) :
  (Seller.create_prices feed ids = (Ok (map seller_price (listed ids feed)), ids) /\
   Market.create_prices feed ids = (traverse market_price (listed ids feed), ids)) /\
  (Seller.create_prices feed (snd (Seller.create_prices feed ids)) =
     Seller.create_prices feed ids /\
   Market.create_prices feed (snd (Market.create_prices feed ids)) =
     Market.create_prices feed ids) /\
  (forall prices, fst (Seller.create_prices feed ids) = Ok prices ->
     map Seller.price_offer_id prices = map Kod (listed ids feed)) /\
  (forall prices, fst (Market.create_prices feed ids) = Ok prices ->
     map Market.id prices = map Kod (listed ids feed)).
Proof.
  assert (Hs : Seller.create_prices feed ids =
               (Ok (map seller_price (listed ids feed)), ids))
    by apply (seller_prices_loop feed [] ids).
  assert (Hm : Market.create_prices feed ids =
               (traverse market_price (listed ids feed), ids)).
  { unfold Market.create_prices. rewrite market_prices_loop. f_equal.
    unfold res_map. now destruct (traverse market_price (listed ids feed)). }
  split; [now split|]. split; [now rewrite Hs, Hm|]. split.
  - intros prices H. rewrite Hs in H. inversion H. now rewrite map_map.
  - intros prices H. rewrite Hm in H. simpl in H. clear Hs Hm.
    revert prices H. induction (listed ids feed) as [|w l IH]; simpl; intros prices H.
    + now inversion H.
    + apply res_bind_ok in H as (p & Hp & H).
      apply res_map_ok in H as (ps & Hps & ->). simpl. f_equal; [|now apply IH].
      unfold market_price in Hp.
      destruct (Py.int (Seller.price_conversion (Tsena w))); inversion Hp.
      reflexivity.
Qed.

Lemma create_prices_reads_only_witness :
  fst (Seller.create_prices [watch_123; watch_777] ["123"; "124"]) =
    Ok [seller_price watch_123] /\
  map Seller.price_offer_id [seller_price watch_123] = ["123"].
Proof.
  assert (H : fst (Seller.create_prices [watch_123; watch_777] ["123"; "124"]) =
              Ok [seller_price watch_123]) by reflexivity.
  split; [exact H|].
  exact (proj1 (proj2 (proj2 (create_prices_reads_only _ _))) _ H).
Defined.

(** ** Pagination *)

Section TokenPaginator.

Variable pages : nat -> Market.mapping_page.

Lemma market_listing_S k :
  market_listing pages (S k) =
  market_listing pages k ++ Market.offerMappingEntries (pages k).
Proof.
  unfold market_listing. rewrite seq_S, map_app, concat_app. simpl.
  now rewrite app_nil_r.
Qed.

Lemma market_loop_step fuel k :
  Market.listing_loop (answering pages) (S fuel) k (market_cursor pages k)
    (market_listing pages k) (map (market_cursor pages) (seq 0 k)) =
  if token_missing pages k
  then Some (Ok (market_listing pages (S k)), map (market_cursor pages) (seq 0 (S k)))
  else Market.listing_loop (answering pages) fuel (S k) (market_cursor pages (S k))
         (market_listing pages (S k)) (map (market_cursor pages) (seq 0 (S k))).
Proof.
  cbn [Market.listing_loop]. unfold answering, token_missing.
  rewrite market_listing_S, (seq_S k), map_app. reflexivity.
Qed.

Lemma market_loop_running d :
  forall k fuel,
    (forall i, k <= i < k + d -> token_missing pages i = false) ->
    fuel <= d ->
    Market.listing_loop (answering pages) fuel k (market_cursor pages k)
      (market_listing pages k) (map (market_cursor pages) (seq 0 k)) = None.
Proof.
  induction d as [|d IH]; intros k fuel Hgo Hfuel.
  - now replace fuel with 0 by lia.
  - destruct fuel as [|fuel]; [reflexivity|].
    rewrite market_loop_step, Hgo by lia.
    apply IH; [|lia]. intros i Hi. apply Hgo. lia.
Qed.

Lemma market_loop_stops d :
  forall k fuel,
    (forall i, k <= i < k + d -> token_missing pages i = false) ->
    token_missing pages (k + d) = true ->
    d < fuel ->
    Market.listing_loop (answering pages) fuel k (market_cursor pages k)
      (market_listing pages k) (map (market_cursor pages) (seq 0 k)) =
    Some (Ok (market_listing pages (S (k + d))),
          map (market_cursor pages) (seq 0 (S (k + d)))).
Proof.
  induction d as [|d IH]; intros k fuel Hgo Hstop Hfuel;
    (destruct fuel as [|fuel]; [lia|]); rewrite market_loop_step.
  - rewrite Nat.add_0_r in Hstop. rewrite Hstop. now rewrite Nat.add_0_r.
  - rewrite Hgo by lia.
    replace (k + S d) with (S k + d) in * by lia.
    apply IH; [|exact Hstop|lia]. intros i Hi. apply Hgo. lia.
Qed.

End TokenPaginator.

Section CounterPaginator.

Variable pages : nat -> Seller.product_page.

Lemma seller_listing_S k :
  seller_listing pages (S k) = seller_listing pages k ++ Seller.items (pages k).
Proof.
  unfold seller_listing. rewrite seq_S, map_app, concat_app. simpl.
  now rewrite app_nil_r.
Qed.

Lemma seller_loop_step fuel k :
  Seller.listing_loop (answering pages) (S fuel) k (seller_cursor pages k)
    (seller_listing pages k) (map (seller_cursor pages) (seq 0 k)) =
  if total_reached pages k
  then Some (Ok (seller_listing pages (S k)), map (seller_cursor pages) (seq 0 (S k)))
  else Seller.listing_loop (answering pages) fuel (S k) (seller_cursor pages (S k))
         (seller_listing pages (S k)) (map (seller_cursor pages) (seq 0 (S k))).
Proof.
  cbn [Seller.listing_loop]. unfold answering, total_reached.
  rewrite seller_listing_S, (seq_S k), map_app. reflexivity.
Qed.

Lemma seller_loop_running d :
  forall k fuel,
    (forall i, k <= i < k + d -> total_reached pages i = false) ->
    fuel <= d ->
    Seller.listing_loop (answering pages) fuel k (seller_cursor pages k)
      (seller_listing pages k) (map (seller_cursor pages) (seq 0 k)) = None.
Proof.
  induction d as [|d IH]; intros k fuel Hgo Hfuel.
  - now replace fuel with 0 by lia.
  - destruct fuel as [|fuel]; [reflexivity|].
    rewrite seller_loop_step, Hgo by lia.
    apply IH; [|lia]. intros i Hi. apply Hgo. lia.
Qed.

Lemma seller_loop_stops d :
  forall k fuel,
    (forall i, k <= i < k + d -> total_reached pages i = false) ->
    total_reached pages (k + d) = true ->
    d < fuel ->
    Seller.listing_loop (answering pages) fuel k (seller_cursor pages k)
      (seller_listing pages k) (map (seller_cursor pages) (seq 0 k)) =
    Some (Ok (seller_listing pages (S (k + d))),
          map (seller_cursor pages) (seq 0 (S (k + d)))).
Proof.
  induction d as [|d IH]; intros k fuel Hgo Hstop Hfuel;
    (destruct fuel as [|fuel]; [lia|]); rewrite seller_loop_step.
  - rewrite Nat.add_0_r in Hstop. rewrite Hstop. now rewrite Nat.add_0_r.
  - rewrite Hgo by lia.
    replace (k + S d) with (S k + d) in * by lia.
    apply IH; [|exact Hstop|lia]. intros i Hi. apply Hgo. lia.
Qed.

End CounterPaginator.

Lemma token_given_goes_on (pages : nat -> Market.mapping_page) i :
  token_given pages i -> token_missing pages i = false.
Proof.
  unfold token_given, token_missing. intros (t & -> & Ht).
  now apply String.eqb_neq.
Qed.

Lemma token_ended_stops (pages : nat -> Market.mapping_page) i :
  token_ended pages i -> token_missing pages i = true.
Proof.
  unfold token_ended, token_missing. now intros [-> | ->].
Qed.

(** C5.  Against a marketplace that answers every listing request with a
    well-formed page, the token paginator of [market.py] stops exactly at
    the first page whose continuation token is empty or missing, and the
    counter paginator of [seller.py] stops exactly at the first page whose
    reported total equals the number of entries received so far: with [n]
    the index of that page (every page before it carrying a token that is
    not empty, or a total different from the count), the loop is still
    running after [n] iterations and returns in iteration [n + 1], with
    the identifiers of pages [0] to [n] in order (each request carrying
    the cursor of the previous page).  When no page of the counter variant
    ever reports a total equal to the count, the loop is still running
    after any number of iterations. *)
Theorem pagination_termination :
  (forall (pages : nat -> Market.mapping_page) (n : nat),
      (forall i, i < n -> token_given pages i) ->
      token_ended pages n ->
      (forall fuel, fuel <= n ->
         Market.get_offer_ids (answering pages) fuel = None) /\
      (forall fuel, n < fuel ->
         Market.get_offer_ids (answering pages) fuel =
         Some (Ok (map Market.shopSku (market_listing pages (S n))),
               map (market_cursor pages) (seq 0 (S n))))) /\
  (forall (pages : nat -> Seller.product_page) (n : nat),
      (forall i, i < n ->
         Seller.total (pages i)
         <> Z.of_nat (length (seller_listing pages (S i)))) ->
      Seller.total (pages n) = Z.of_nat (length (seller_listing pages (S n))) ->
      (forall fuel, fuel <= n ->
         Seller.get_offer_ids (answering pages) fuel = None) /\
      (forall fuel, n < fuel ->
         Seller.get_offer_ids (answering pages) fuel =
         Some (Ok (map Seller.product_offer_id (seller_listing pages (S n))),
               map (seller_cursor pages) (seq 0 (S n))))) /\
  (forall (pages : nat -> Seller.product_page),
      (forall i,
         Seller.total (pages i)
         <> Z.of_nat (length (seller_listing pages (S i)))) ->
      forall fuel, Seller.get_offer_ids (answering pages) fuel = None).
Proof.
  split; [|split].
  - intros pages n Hgo Hstop.
    assert (Hgo' : forall i, 0 <= i < 0 + n -> token_missing pages i = false)
      by (intros i Hi; apply token_given_goes_on, Hgo, Hi).
    apply token_ended_stops in Hstop.
    split; intros fuel Hfuel; unfold Market.get_offer_ids.
    + rewrite (market_loop_running pages n 0 fuel Hgo' Hfuel
               : Market.listing_loop _ fuel 0 (Some EmptyString) [] [] = _).
      reflexivity.
    + rewrite (market_loop_stops pages n 0 fuel Hgo' Hstop Hfuel
               : Market.listing_loop _ fuel 0 (Some EmptyString) [] [] = _).
      reflexivity.
  - intros pages n Hgo Hstop.
    assert (Hgo' : forall i, 0 <= i < 0 + n -> total_reached pages i = false)
      by (intros i Hi; apply Z.eqb_neq, Hgo, Hi).
    apply Z.eqb_eq in Hstop.
    split; intros fuel Hfuel; unfold Seller.get_offer_ids.
    + rewrite (seller_loop_running pages n 0 fuel Hgo' Hfuel
               : Seller.listing_loop _ fuel 0 EmptyString [] [] = _).
      reflexivity.
    + rewrite (seller_loop_stops pages n 0 fuel Hgo' Hstop Hfuel
               : Seller.listing_loop _ fuel 0 EmptyString [] [] = _).
      reflexivity.
  - intros pages Hgo fuel. unfold Seller.get_offer_ids.
    rewrite (seller_loop_running pages fuel 0 fuel
               (fun i _ => proj2 (Z.eqb_neq _ _) (Hgo i)) (le_n fuel)
             : Seller.listing_loop _ fuel 0 EmptyString [] [] = _).
    reflexivity.
Qed.

Lemma seller_pages_stuck_never_reached i :
  total_reached seller_pages_stuck i = false.
Proof.
  unfold total_reached. rewrite seller_listing_S, length_app.
  apply Z.eqb_neq. cbn [seller_pages_stuck Seller.total Seller.items length]. lia.
Qed.

Lemma pagination_termination_witness :
  (Market.get_offer_ids (answering market_pages_example) 1 = None /\
   Market.get_offer_ids (answering market_pages_example) 2 =
     Some (Ok ["123"; "124"], [Some EmptyString; Some "p1"])) /\
  (Market.get_offer_ids (answering market_pages_empty_token) 1 = None /\
   Market.get_offer_ids (answering market_pages_empty_token) 2 =
     Some (Ok ["123"; "124"], [Some EmptyString; Some "p1"])) /\
  (Seller.get_offer_ids (answering seller_pages_example) 1 = None /\
   Seller.get_offer_ids (answering seller_pages_example) 2 =
     Some (Ok ["123"; "124"; "125"], [EmptyString; "124"])) /\
  Seller.get_offer_ids (answering seller_pages_stuck) 1000 = None.
Proof.
  destruct pagination_termination as (Htoken & Hcounter & Hstuck).
  split; [|split; [|split]].
  - assert (Hgo : forall i, i < 1 -> token_given market_pages_example i).
    { intros i Hi. replace i with 0 by lia.
      exists "p1". split; [reflexivity | discriminate]. }
    destruct (Htoken market_pages_example 1 Hgo (or_introl eq_refl))
      as [Hrun Hret].
    split; [apply Hrun; lia | apply (Hret 2); lia].
  - assert (Hgo : forall i, i < 1 -> token_given market_pages_empty_token i).
    { intros i Hi. replace i with 0 by lia.
      exists "p1". split; [reflexivity | discriminate]. }
    destruct (Htoken market_pages_empty_token 1 Hgo (or_intror eq_refl))
      as [Hrun Hret].
    split; [apply Hrun; lia | apply (Hret 2); lia].
  - assert (Hgo : forall i, i < 1 ->
              Seller.total (seller_pages_example i)
              <> Z.of_nat (length (seller_listing seller_pages_example (S i)))).
    { intros i Hi. replace i with 0 by lia. discriminate. }
    destruct (Hcounter seller_pages_example 1 Hgo eq_refl) as [Hrun Hret].
    split; [apply Hrun; lia | apply (Hret 2); lia].
  - apply Hstuck. intros i.
    exact (proj1 (Z.eqb_neq _ _) (seller_pages_stuck_never_reached i)).
Defined.

(** ** Dispatch *)

Lemma for_each_log {R A} (send : A -> Eff (list R) unit) (mk : A -> R) :
  (forall a log, snd (send a log) = log ++ [mk a]) ->
  forall batches log,
  exists k, snd (for_each batches send log) = log ++ map mk (firstn k batches).
Proof.
  intros Hsend. induction batches as [|a batches IH]; intros log.
  - exists 0. simpl. now rewrite app_nil_r.
  - cbn [for_each]. unfold bind. specialize (Hsend a log).
    destruct (send a log) as [[u|e] log']; simpl in Hsend; subst log'.
    + destruct (IH (log ++ [mk a])) as [k Hk]. exists (S k).
      rewrite Hk. simpl. now rewrite <- app_assoc.
    + exists 1. simpl. now destruct batches.
Qed.

Lemma batches_within_firstn {A} limit k (batches : list (list A)) :
  batches_within limit batches -> batches_within limit (firstn k batches).
Proof.
  intros [Hall Hfull]. split.
  - intros b Hb. apply Hall.
    rewrite <- (firstn_skipn k batches). apply in_or_app. now left.
  - intros j Hj. rewrite length_firstn in Hj.
    rewrite nth_firstn.
    destruct (j <? k)%nat eqn:E; [|apply Nat.ltb_ge in E; lia].
    apply Hfull. lia.
Qed.

Lemma batches_within_nil {A} limit : batches_within limit (@nil (list A)).
Proof. split; [intros b [] | simpl; intros j Hj; lia]. Qed.

Lemma divide_batches_within {A} (l : list A) (limit : Z) :
  (0 < limit)%Z ->
  exists chunks,
    Seller.divide l limit = Ok chunks /\
    concat chunks = l /\
    batches_within (Z.to_nat limit) chunks.
Proof.
  intros Hl.
  destruct (divide_chunks_shape l limit Hl) as (chunks & Hd & Hcat & Hall & Hfull & _).
  exists chunks. repeat split; trivial; now apply Hall.
Qed.

Lemma seller_create_prices_run feed ids :
  Seller.create_prices feed ids = (Ok (map seller_price (listed ids feed)), ids).
Proof. apply (seller_prices_loop feed [] ids). Qed.

Lemma market_create_prices_run feed ids :
  Market.create_prices feed ids = (traverse market_price (listed ids feed), ids).
Proof.
  unfold Market.create_prices. rewrite market_prices_loop. f_equal.
  unfold res_map. now destruct (traverse market_price (listed ids feed)).
Qed.

(** The requests of [main] of [seller.py]: a prefix of the stock chunks,
    then a prefix of the price chunks, the prices being built from the
    list [create_stocks] left. *)
Lemma seller_main_run accepted feed ids :
  match Seller.create_stocks feed ids with
  | (Ok stocks, rest_ids) =>
      exists sbs pbs i j,
        Seller.divide stocks 100 = Ok sbs /\
        Seller.divide (map seller_price (listed rest_ids feed)) 900 = Ok pbs /\
        Seller.main accepted feed ids =
        map Seller.UpdateStocks (firstn i sbs) ++ map Seller.UpdatePrice (firstn j pbs)
  | (Raise _, _) => Seller.main accepted feed ids = []
  end.
Proof.
  unfold Seller.main, Seller.main_try. open_eff.
  destruct (Seller.create_stocks feed ids) as [[stocks|e] rest_ids]; [|reflexivity].
  destruct (divide_batches_within stocks 100 ltac:(lia)) as (sbs & Hs & _).
  destruct (divide_batches_within (map seller_price (listed rest_ids feed)) 900 ltac:(lia))
    as (pbs & Hp & _).
  exists sbs, pbs. rewrite Hs. cbn [fst snd].
  destruct (for_each_log (Seller.update_stocks accepted) Seller.UpdateStocks
              (fun a log => eq_refl) sbs []) as [i Hi].
  cbn [app] in Hi.
  destruct (for_each sbs (Seller.update_stocks accepted) []) as [[u|e] log1];
    cbn [fst snd] in *; subst log1.
  - rewrite seller_create_prices_run. cbn [fst snd]. rewrite Hp.
    destruct (for_each_log (Seller.update_price accepted) Seller.UpdatePrice
                (fun a log => eq_refl) pbs (map Seller.UpdateStocks (firstn i sbs)))
      as [j Hj].
    destruct (for_each pbs (Seller.update_price accepted)
                (map Seller.UpdateStocks (firstn i sbs))) as [r log2];
      cbn [fst snd] in *; subst log2.
    exists i, j. repeat split; trivial.
  - exists i, 0. repeat split; trivial. simpl. now rewrite app_nil_r.
Qed.


Lemma seller_upload_prices_run accepted feed ids :
  exists pbs j,
    Seller.divide (map seller_price (listed ids feed)) 1000 = Ok pbs /\
    snd (Seller.upload_prices accepted feed ids []) =
    map Seller.UpdatePrice (firstn j pbs).
Proof.
  unfold Seller.upload_prices. open_eff. rewrite seller_create_prices_run. cbn [fst snd].
  destruct (divide_batches_within (map seller_price (listed ids feed)) 1000 ltac:(lia))
    as (pbs & Hp & _).
  exists pbs. rewrite Hp. cbn [fst snd].
  destruct (for_each_log (Seller.update_price accepted) Seller.UpdatePrice
              (fun a log => eq_refl) pbs []) as [j Hj].
  cbn [app] in Hj.
  destruct (for_each pbs (Seller.update_price accepted) []) as [[u|e] log1];
    cbn [fst snd] in *; subst log1; exists j; now split.
Qed.

(** The requests of [main] of [market.py]: a prefix of the stock chunks
    of the FBS campaign, then a prefix of those of the DBS campaign. *)
Lemma market_main_run accepted r :
  exists fbs dbs,
    Market.main accepted r =
    map (Market.UpdateStocks (Market.campaign_fbs_id r)) fbs ++
    map (Market.UpdateStocks (Market.campaign_dbs_id r)) dbs /\
    batches_within 2000 fbs /\ batches_within 2000 dbs.
Proof.
  unfold Market.main, Market.main_try. open_eff.
  destruct (Market.create_stocks (Market.watch_remnants r) (Market.warehouse_fbs_id r)
              (Market.date_fbs r) (Market.offer_ids_fbs r)) as [[stocks|e] rest_ids].
  2: { exists [], []. split; [reflexivity|split; apply batches_within_nil]. }
  destruct (divide_batches_within stocks 2000 ltac:(lia)) as (sbs & Hs & _ & Hsw).
  change (Z.to_nat 2000) with 2000 in Hsw.
  rewrite Hs. cbn [fst snd].
  destruct (for_each_log
              (fun some_stock => Market.update_stocks accepted some_stock (Market.campaign_fbs_id r))
              (Market.UpdateStocks (Market.campaign_fbs_id r))
              (fun a log => eq_refl) sbs []) as [i Hi].
  cbn [app] in Hi.
  destruct (for_each sbs _ []) as [[u|e] log1]; cbn [fst snd] in *; subst log1.
  2: { exists (firstn i sbs), []. simpl. rewrite app_nil_r.
       split; [reflexivity|split; [now apply batches_within_firstn|apply batches_within_nil]]. }
  exists (firstn i sbs).
  destruct (Market.create_stocks (Market.watch_remnants r) (Market.warehouse_dbs_id r)
              (Market.date_dbs r) (Market.offer_ids_dbs r)) as [[stocks'|e] rest_ids'].
  2: { exists []. simpl. rewrite app_nil_r.
       split; [reflexivity|split; [now apply batches_within_firstn|apply batches_within_nil]]. }
  destruct (divide_batches_within stocks' 2000 ltac:(lia)) as (sbs' & Hs' & _ & Hsw').
  change (Z.to_nat 2000) with 2000 in Hsw'.
  rewrite Hs'. cbn [fst snd].
  destruct (for_each_log
              (fun some_stock => Market.update_stocks accepted some_stock (Market.campaign_dbs_id r))
              (Market.UpdateStocks (Market.campaign_dbs_id r))
              (fun a log => eq_refl) sbs'
              (map (Market.UpdateStocks (Market.campaign_fbs_id r)) (firstn i sbs)))
    as [j Hj].
  exists (firstn j sbs').
  destruct (for_each sbs' _ _) as [[u'|e] log2]; cbn [fst snd] in *; subst log2;
    (split; [reflexivity|split; now apply batches_within_firstn]).
Qed.



(** ** Claims about batches and about what the runs send *)


Lemma depleted_no_feed_identifier feed ids w :
  NoDup ids -> In w feed -> Py.contains (Kod w) (depleted feed ids) = false.
Proof.
  intros Hnd Hw. rewrite depleted_distinct by exact Hnd.
  apply contains_false. intros Hin. apply filter_In in Hin as [_ Hno].
  assert (Hc : Py.contains (Kod w) (map Kod feed) = true)
    by (apply contains_In; now apply in_map).
  rewrite Hc in Hno. discriminate.
Qed.

Lemma listed_none ids feed :
  (forall w, In w feed -> Py.contains (Kod w) ids = false) -> listed ids feed = [].
Proof.
  unfold listed. induction feed as [|w feed IH]; simpl; intros H; [reflexivity|].
  rewrite (H w) by now left. apply IH. intros w' Hw'. apply H. now right.
Qed.

Lemma seller_price_updates_app l1 l2 :
  seller_price_updates (l1 ++ l2) = seller_price_updates l1 ++ seller_price_updates l2.
Proof. apply flat_map_app. Qed.

Lemma seller_price_updates_stocks sb :
  seller_price_updates (map Seller.UpdateStocks sb) = [].
Proof. induction sb as [|b sb IH]; simpl; [reflexivity | exact IH]. Qed.

Lemma market_price_updates_stocks campaign_id sb :
  market_price_updates (map (Market.UpdateStocks campaign_id) sb) = [].
Proof. induction sb as [|b sb IH]; simpl; [reflexivity | exact IH]. Qed.

(** C10, as the code has it.  When the identifiers of the remote list are
    pairwise distinct, [main] of [seller.py] sends no price update at
    all: [create_stocks] has removed from the list every identifier the
    feed carries, so [create_prices], given that same list, returns the
    empty list.  [main] of [market.py] sends no price update either,
    whatever the lists: it calls [upload_prices] without awaiting it. *)
Theorem no_price_update_dispatched :
  (forall accepted feed ids,
      NoDup ids ->
      (forall stocks rest_ids,
          Seller.create_stocks feed ids = (Ok stocks, rest_ids) ->
          Seller.create_prices feed rest_ids = (Ok [], rest_ids)) /\
      seller_price_updates (Seller.main accepted feed ids) = []) /\
  (forall accepted r, market_price_updates (Market.main accepted r) = []).
Proof.
  split.
  - intros accepted feed ids Hnd.
    assert (Hnone : forall stocks rest_ids,
               Seller.create_stocks feed ids = (Ok stocks, rest_ids) ->
               listed rest_ids feed = []).
    { intros stocks rest_ids Hrun.
      destruct (create_stocks_run feed ids) as [_ Hrest].
      rewrite (Hrest _ _ Hrun). apply listed_none.
      intros w Hw. now apply depleted_no_feed_identifier. }
    split.
    + intros stocks rest_ids Hrun.
      rewrite seller_create_prices_run, (Hnone _ _ Hrun). reflexivity.
    + pose proof (seller_main_run accepted feed ids) as H.
      destruct (Seller.create_stocks feed ids) as [[stocks|e] rest_ids] eqn:Hrun.
      * destruct H as (sbs & pbs & i & j & _ & Hp & ->).
        rewrite (Hnone _ _ eq_refl) in Hp. vm_compute in Hp. injection Hp as <-.
        rewrite seller_price_updates_app, seller_price_updates_stocks.
        now destruct j.
      * now rewrite H.
  - intros accepted r.
    destruct (market_main_run accepted r) as (fbs & dbs & -> & _).
    unfold market_price_updates. rewrite flat_map_app.
    fold (market_price_updates (map (Market.UpdateStocks (Market.campaign_fbs_id r)) fbs)).
    fold (market_price_updates (map (Market.UpdateStocks (Market.campaign_dbs_id r)) dbs)).
    now rewrite !market_price_updates_stocks.
Qed.

Lemma no_price_update_dispatched_witness :
  NoDup ["123"; "124"] /\
  Seller.create_prices [watch_123; watch_777] ["124"] = (Ok [], ["124"]) /\
  seller_price_updates (Seller.main always [watch_123; watch_777] ["123"; "124"]) = [].
Proof.
  assert (Hnd : NoDup ["123"; "124"])
    by (repeat constructor; simpl; intuition discriminate).
  destruct (proj1 no_price_update_dispatched always [watch_123; watch_777]
                  ["123"; "124"] Hnd) as [Hprices Hlog].
  split; [exact Hnd|]. split; [|exact Hlog].
  exact (Hprices _ _ eq_refl).
Defined.

(** C10 as stated fails: when the remote list names an identifier twice,
    one occurrence survives [create_stocks] and [main] of [seller.py]
    sends a price for it. *)
Lemma price_update_dispatched_for_repeated_identifier :
  seller_price_updates (Seller.main always [watch_123] ["123"; "123"]) =
    [[seller_price watch_123]] /\
  seller_price_updates (Seller.main always [watch_123] ["123"; "123"]) <> [] /\
  [seller_price watch_123] <> [].
Proof.
  split; [vm_compute; reflexivity|].
  split; [vm_compute; discriminate | discriminate].
Qed.

(** ** Claims about repeated runs and about prices *)

Lemma restamp_to_market warehouse_id d1 d2 e :
  restamp d2 (to_market warehouse_id d1 e) = to_market warehouse_id d2 e.
Proof. reflexivity. Qed.

Lemma for_each_accepted {R A} (send : A -> Eff (list R) unit) (mk : A -> R) :
  (forall a log, send a log = (Ok tt, log ++ [mk a])) ->
  forall batches log, for_each batches send log = (Ok tt, log ++ map mk batches).
Proof.
  intros Hsend. induction batches as [|a batches IH]; intros log.
  - simpl. unfold ret. now rewrite app_nil_r.
  - cbn [for_each]. unfold bind. rewrite Hsend, IH. simpl.
    now rewrite <- app_assoc.
Qed.

(** An execution of [main] of [seller.py] against a marketplace that
    accepts every request adds the same requests to the log, whatever
    was sent before it. *)
Lemma seller_main_try_always feed ids log :
  snd (Seller.main_try always feed ids log) = log ++ Seller.main always feed ids.
Proof.
  unfold Seller.main, Seller.main_try. open_eff.
  destruct (Seller.create_stocks feed ids) as [[stocks|e] rest_ids];
    [|simpl; now rewrite app_nil_r].
  destruct (divide_batches_within stocks 100 ltac:(lia)) as (sbs & -> & _).
  destruct (divide_batches_within (map seller_price (listed rest_ids feed)) 900 ltac:(lia))
    as (pbs & Hp & _).
  cbn [fst snd].
  rewrite !(for_each_accepted (Seller.update_stocks always) Seller.UpdateStocks
              (fun a l => eq_refl)).
  cbn [fst snd]. rewrite seller_create_prices_run. cbn [fst snd]. rewrite Hp.
  rewrite !(for_each_accepted (Seller.update_price always) Seller.UpdatePrice
              (fun a l => eq_refl)).
  cbn [fst snd app]. now rewrite app_assoc.
Qed.

(** C9, as the code has it.  The stock payload of [market.py] is the
    stock payload of [seller.py], put in the Yandex.Market format and
    stamped with the clock reading of the run.  For a fixed feed and
    catalogue, two executions therefore build the same stock payload
    except for the [updatedAt] stamps, and leave the same list behind;
    when the payload is not empty and the clock readings differ, the two
    payloads differ.  The builders of [seller.py] and both
    [create_prices] read no clock, and each execution works on the list
    it fetched itself: an execution of [main] of [seller.py] that follows
    another one, against a marketplace that accepts every request, sends
    again exactly the requests the first one sent. *)
Theorem stock_payload_identical_up_to_stamp
    (feed : list watch) (warehouse_id d1 d2 : string) (ids : list string) :
  snd (Seller.main_try always feed ids (Seller.main always feed ids)) =
    Seller.main always feed ids ++ Seller.main always feed ids /\
  fst (Market.create_stocks feed warehouse_id d1 ids) =
    res_map (map (to_market warehouse_id d1)) (fst (Seller.create_stocks feed ids)) /\
  Market.create_stocks feed warehouse_id d2 ids =
    (res_map (map (restamp d2)) (fst (Market.create_stocks feed warehouse_id d1 ids)),
     snd (Market.create_stocks feed warehouse_id d1 ids)) /\
  (forall stocks,
      fst (Market.create_stocks feed warehouse_id d1 ids) = Ok stocks ->
      stocks <> [] -> d1 <> d2 ->
      fst (Market.create_stocks feed warehouse_id d2 ids) <> Ok stocks).
Proof.
  split; [apply seller_main_try_always|].
  rewrite !market_create_stocks. cbn [fst snd].
  destruct (fst (Seller.create_stocks feed ids)) as [s|e]; cbn [res_map res_bind].
  - split; [reflexivity|]. split.
    + f_equal. f_equal. rewrite map_map. apply map_ext. intros e.
      now rewrite restamp_to_market.
    + intros stocks Hs Hne Hd H. inversion Hs; subst stocks. inversion H as [H'].
      destruct s as [|e s]; [now apply Hne|].
      simpl in H'. inversion H'. now apply Hd.
  - split; [reflexivity|]. split; [reflexivity|]. intros stocks Hs. discriminate.
Qed.

Lemma stock_payload_identical_up_to_stamp_witness :
  fst (Market.create_stocks [watch_123] "warehouse_1" "2022-12-31T12:00:00Z" ["123"]) =
    Ok [Market.stock_record "123" "warehouse_1" 10%Z "2022-12-31T12:00:00Z"] /\
  fst (Market.create_stocks [watch_123] "warehouse_1" "2023-01-01T12:00:00Z" ["123"]) <>
    Ok [Market.stock_record "123" "warehouse_1" 10%Z "2022-12-31T12:00:00Z"].
Proof.
  assert (H : fst (Market.create_stocks [watch_123] "warehouse_1" "2022-12-31T12:00:00Z"
                     ["123"]) =
              Ok [Market.stock_record "123" "warehouse_1" 10%Z "2022-12-31T12:00:00Z"])
    by reflexivity.
  split; [exact H|].
  apply (proj2 (proj2 (proj2 (stock_payload_identical_up_to_stamp
                                [watch_123] "warehouse_1" "2022-12-31T12:00:00Z"
                                "2023-01-01T12:00:00Z" ["123"]))) _ H);
    discriminate.
Defined.

(** C9 as stated fails: the same feed and the same catalogue, run at two
    clock readings, give different requests. *)
Lemma market_payload_changes_with_clock :
  Market.watch_remnants (run_at "2022-12-31T12:00:00Z") =
    Market.watch_remnants (run_at "2023-01-01T12:00:00Z") /\
  Market.offer_ids_fbs (run_at "2022-12-31T12:00:00Z") =
    Market.offer_ids_fbs (run_at "2023-01-01T12:00:00Z") /\
  Market.offer_ids_dbs (run_at "2022-12-31T12:00:00Z") =
    Market.offer_ids_dbs (run_at "2023-01-01T12:00:00Z") /\
  Market.main always (run_at "2022-12-31T12:00:00Z") <>
    Market.main always (run_at "2023-01-01T12:00:00Z").
Proof.
  split; [reflexivity|]. split; [reflexivity|]. split; [reflexivity|].
  vm_compute. discriminate.
Qed.

(** ** Prices *)

Lemma only_digits_are_digits s :
  Forall is_digit (list_ascii_of_string (Py.only_digits s)).
Proof.
  induction s as [|c s IH]; simpl; [constructor|].
  destruct (Py.digit_of c) eqn:E; [|exact IH].
  simpl. constructor; [|exact IH]. unfold is_digit. congruence.
Qed.

Lemma digit_not_dot c : is_digit c -> Ascii.eqb c "." = false.
Proof.
  unfold is_digit, Py.digit_of.
  destruct (48 <=? nat_of_ascii c)%nat eqn:E1; simpl; [|congruence].
  intros _. apply Nat.leb_le in E1.
  apply Ascii.eqb_neq. intros ->.
  change (nat_of_ascii ".") with 46 in E1. lia.
Qed.

Lemma price_conversion_numeral a b :
  Seller.price_conversion (String.append (Py.only_digits a) (String "." b)) =
  Py.only_digits a.
Proof.
  unfold Seller.price_conversion.
  pose proof (only_digits_are_digits a) as H.
  induction (Py.only_digits a) as [|c s IH]; [reflexivity|].
  simpl in *. inversion H as [|? ? Hc Hs]; subst.
  rewrite (digit_not_dot c Hc). simpl.
  unfold is_digit in Hc. destruct (Py.digit_of c); [|congruence].
  f_equal. now apply IH.
Qed.

(** C4, on the code.  [price_conversion] returns the digits that stand
    before the first full stop, as text: ["5990"] and ["1500"] on the
    examples, and the numeral itself when the price starts with a numeral
    followed by a full stop.  It never fails: when no digit stands before
    the first full stop it returns the empty text, which [create_prices]
    of [seller.py] sends as the price, and on which the [int] of
    [create_prices] of [market.py] raises [ValueError]. *)
Theorem price_conversion_keeps_digits :
  Seller.price_conversion "5'990.00 руб." = "5990" /\
  Seller.price_conversion "1'500.50 руб." = "1500" /\
  (forall price, Forall is_digit (list_ascii_of_string (Seller.price_conversion price))) /\
  (forall a b,
      Seller.price_conversion (String.append (Py.only_digits a) (String "." b)) =
      Py.only_digits a) /\
  Seller.price_conversion "по запросу" = EmptyString /\
  Seller.create_prices [watch_on_request] ["123"] =
    (Ok [{| Seller.auto_action_enabled := "UNKNOWN";
            Seller.currency_code := "RUB";
            Seller.price_offer_id := "123";
            Seller.old_price := "0";
            Seller.price := EmptyString |}], ["123"]) /\
  Market.create_prices [watch_on_request] ["123"] = (Raise ValueError, ["123"]).
Proof.
  split; [reflexivity|]. split; [reflexivity|].
  split; [intros price; apply only_digits_are_digits|].
  split; [apply price_conversion_numeral|].
  repeat split; reflexivity.
Qed.

(** * Further properties of the code *)

(** ** [create_stocks]: one entry for each remote identifier *)

Lemma remove_first_permutation x l :
  In x l -> Permutation (x :: remove_first x l) l.
Proof.
  induction l as [|y l IH]; simpl; [tauto|].
  destruct (String.eqb_spec y x) as [->|Hne]; [reflexivity|].
  intros [H|H]; [congruence|].
  rewrite perm_swap. constructor. now apply IH.
Qed.

Lemma matched_depleted_permutation feed :
  forall ids, Permutation (map Kod (matched feed ids) ++ depleted feed ids) ids.
Proof.
  unfold depleted.
  induction feed as [|w rest IH]; simpl; intros ids; [reflexivity|].
  destruct (Py.contains (Kod w) ids) eqn:E.
  - simpl. rewrite IH. apply remove_first_permutation. now apply contains_In.
  - rewrite remove_first_absent by now apply contains_false. apply IH.
Qed.

Lemma traverse_stock_item_ids l entries :
  traverse stock_item l = Ok entries -> map Seller.offer_id entries = map Kod l.
Proof.
  revert entries. induction l as [|w l IH]; simpl; intros entries H.
  - now inversion H.
  - apply res_bind_ok in H as (e & He & H).
    apply res_map_ok in H as (es & Hes & ->). simpl.
    unfold stock_item in He. apply res_map_ok in He as (n & _ & ->).
    simpl. f_equal. now apply IH.
Qed.

(** X1.  When [create_stocks] returns, its entries name the identifiers of
    the remote list, each as often as the list holds it: the list of the
    entries' identifiers is a permutation of the remote list, so there
    are as many entries as remote identifiers, and no identifier comes
    twice when none is listed twice.  The same holds for the entries of
    [market.py]. *)
Theorem create_stocks_covers_remote
    (feed : list watch) (remote : list string) :
  (forall stocks remaining,
      Seller.create_stocks feed remote = (Ok stocks, remaining) ->
      Permutation (map Seller.offer_id stocks) remote /\
      length stocks = length remote /\
      (NoDup remote -> NoDup (map Seller.offer_id stocks))) /\
  (forall warehouse_id date stocks remaining,
      Market.create_stocks feed warehouse_id date remote = (Ok stocks, remaining) ->
      Permutation (map Market.sku stocks) remote /\
      length stocks = length remote).
Proof.
  assert (Hs : forall stocks,
             fst (Seller.create_stocks feed remote) = Ok stocks ->
             Permutation (map Seller.offer_id stocks) remote).
  { intros stocks Hrun.
    destruct (create_stocks_run feed remote) as [Hres _].
    rewrite Hrun in Hres. symmetry in Hres.
    apply res_map_ok in Hres as (entries & Htr & ->).
    rewrite map_app, map_map. cbn [stub Seller.offer_id]. rewrite map_id.
    rewrite (traverse_stock_item_ids _ _ Htr).
    apply matched_depleted_permutation. }
  split.
  - intros stocks remaining Hrun.
    assert (Hp : Permutation (map Seller.offer_id stocks) remote)
      by (apply Hs; now rewrite Hrun).
    split; [exact Hp|]. split.
    + rewrite <- (length_map Seller.offer_id). now apply Permutation_length.
    + intros Hnd. eapply Permutation_NoDup; [symmetry; exact Hp | exact Hnd].
  - intros warehouse_id date stocks remaining Hrun.
    rewrite market_create_stocks in Hrun. inversion Hrun as [[Hres Hrem]].
    apply res_map_ok in Hres as (s & Hsel & ->).
    assert (Hp : Permutation (map Market.sku (map (to_market warehouse_id date) s)) remote).
    { rewrite map_map. cbn [to_market Market.stock_record Market.sku]. now apply Hs. }
    split; [exact Hp|].
    rewrite <- (length_map Market.sku). now apply Permutation_length.
Qed.

Lemma create_stocks_covers_remote_witness :
  Seller.create_stocks [watch_123; watch_123_again] ["124"; "123"; "123"] =
    (Ok [{| Seller.offer_id := "123"; Seller.stock := 10%Z |};
         {| Seller.offer_id := "123"; Seller.stock := 7%Z |};
         {| Seller.offer_id := "124"; Seller.stock := 0%Z |}], ["124"]) /\
  Permutation ["123"; "123"; "124"] ["124"; "123"; "123"].
Proof.
  assert (H : Seller.create_stocks [watch_123; watch_123_again] ["124"; "123"; "123"] =
              (Ok [{| Seller.offer_id := "123"; Seller.stock := 10%Z |};
                   {| Seller.offer_id := "123"; Seller.stock := 7%Z |};
                   {| Seller.offer_id := "124"; Seller.stock := 0%Z |}], ["124"]))
    by reflexivity.
  split; [exact H|].
  exact (proj1 (proj1 (create_stocks_covers_remote _ _) _ _ H)).
Defined.

(** ** [create_stocks]: when it fails, and what it leaves then *)

Lemma matched_In feed :
  forall ids w, In w (matched feed ids) -> In w feed /\ In (Kod w) ids.
Proof.
  induction feed as [|u rest IH]; simpl; intros ids w H; [tauto|].
  destruct (Py.contains (Kod u) ids) eqn:E.
  - destruct H as [<-|H].
    + split; [now left | now apply contains_In].
    + apply IH in H as [H1 H2]. split; [now right|].
      eapply remove_first_In, H2.
  - apply IH in H as [H1 H2]. split; [now right | exact H2].
Qed.

Lemma stock_of_count_raises count e :
  Seller.stock_of_count count = Raise e -> e = ValueError.
Proof.
  unfold Seller.stock_of_count.
  destruct (String.eqb count ">10"); [discriminate|].
  destruct (String.eqb count "1"); [discriminate|].
  destruct (Py.int count); [discriminate|]. congruence.
Qed.

Lemma traverse_all_ok {A B} (f : A -> res B) l :
  (forall a, In a l -> exists b, f a = Ok b) -> exists r, traverse f l = Ok r.
Proof.
  induction l as [|a l IH]; simpl; intros H; [eauto|].
  destruct (H a) as [b Hb]; [now left|].
  destruct IH as [r Hr]; [intros a' Ha'; apply H; now right|].
  rewrite Hb, Hr. simpl. eauto.
Qed.

Lemma traverse_raises {A B} (f : A -> res B) l e :
  traverse f l = Raise e -> exists a, In a l /\ f a = Raise e.
Proof.
  induction l as [|a l IH]; simpl; [discriminate|].
  destruct (f a) as [b|e'] eqn:Ea; simpl.
  - destruct (traverse f l) as [r|e']; simpl; [discriminate|].
    intros H. inversion H; subst. destruct (IH eq_refl) as (a' & Ha' & Hf).
    exists a'. split; [now right | exact Hf].
  - intros H. inversion H; subst. exists a. split; [now left | exact Ea].
Qed.

(** X2.  [create_stocks] fails only on a feed row whose identifier is in
    the remote list: it returns whenever the quantity of every such row
    is accepted by the quantity rule, and when it raises, the exception
    is [ValueError] and some row with a remotely listed identifier has a
    quantity the rule rejects.  Rows that are not listed remotely are
    never parsed; with an empty remote list every feed gives the empty
    result. *)
Theorem create_stocks_fails_only_on_listed_rows
    (feed : list watch) (ids : list string) :
  ((forall w, In w feed -> In (Kod w) ids ->
              exists n, Seller.stock_of_count (Kolichestvo w) = Ok n) ->
   exists stocks, fst (Seller.create_stocks feed ids) = Ok stocks) /\
  (forall e, fst (Seller.create_stocks feed ids) = Raise e ->
             e = ValueError /\
             exists w, In w feed /\ In (Kod w) ids /\
                       Seller.stock_of_count (Kolichestvo w) = Raise ValueError) /\
  Seller.create_stocks feed [] = (Ok [], []).
Proof.
  destruct (create_stocks_run feed ids) as [Hres _].
  split; [|split].
  - intros Hok.
    destruct (traverse_all_ok stock_item (matched feed ids)) as [entries He].
    { intros w Hw. apply matched_In in Hw as [Hw Hid].
      destruct (Hok w Hw Hid) as [n Hn]. unfold stock_item. rewrite Hn.
      simpl. eauto. }
    rewrite Hres, He. simpl. eauto.
  - intros e He. rewrite He in Hres. symmetry in Hres.
    destruct (traverse stock_item (matched feed ids)) as [entries|e'] eqn:Et;
      [discriminate|].
    inversion Hres; subst e'.
    apply traverse_raises in Et as (w & Hw & Hf).
    apply matched_In in Hw as [Hw Hid].
    unfold stock_item in Hf.
    destruct (Seller.stock_of_count (Kolichestvo w)) as [n|e0] eqn:En;
      [discriminate|].
    inversion Hf; subst e0.
    pose proof (stock_of_count_raises _ _ En) as ->.
    split; [reflexivity|]. exists w. now repeat split.
  - clear Hres. unfold Seller.create_stocks, bind, get, ret.
    assert (H : forall acc, Seller.stocks_loop feed acc [] = (Ok acc, [])).
    { induction feed as [|w rest IH]; intros acc; [reflexivity|].
      rewrite stocks_loop_cons. simpl. apply IH. }
    rewrite H. reflexivity.
Qed.

Lemma create_stocks_fails_only_on_listed_rows_witness :
  (exists stocks,
      fst (Seller.create_stocks [watch_123; watch_777_broken] ["123"; "124"]) = Ok stocks) /\
  fst (Seller.create_stocks [watch_123; watch_777_broken] ["123"; "777"]) =
    Raise ValueError /\
  (exists w, In w [watch_123; watch_777_broken] /\ In (Kod w) ["123"; "777"] /\
             Seller.stock_of_count (Kolichestvo w) = Raise ValueError).
Proof.
  split; [|split].
  - apply (proj1 (create_stocks_fails_only_on_listed_rows
                    [watch_123; watch_777_broken] ["123"; "124"])).
    intros w [<-|[<-|[]]] Hid.
    + exists 10%Z. reflexivity.
    + exfalso. simpl in Hid. intuition discriminate.
  - reflexivity.
  - assert (H : fst (Seller.create_stocks [watch_123; watch_777_broken] ["123"; "777"]) =
                Raise ValueError) by reflexivity.
    exact (proj2 (proj1 (proj2 (create_stocks_fails_only_on_listed_rows
                                  [watch_123; watch_777_broken] ["123"; "777"])) _ H)).
Defined.

Lemma stocks_loop_app pre :
  forall l acc ids acc' ids',
    Seller.stocks_loop pre acc ids = (Ok acc', ids') ->
    Seller.stocks_loop (pre ++ l) acc ids = Seller.stocks_loop l acc' ids'.
Proof.
  induction pre as [|w pre IH]; intros l acc ids acc' ids' H.
  - simpl in H. unfold ret in H. now inversion H.
  - cbn [app]. rewrite stocks_loop_cons in *.
    destruct (Py.contains (Kod w) ids); [|now apply IH].
    destruct (Seller.stock_of_count (Kolichestvo w)); [|discriminate].
    destruct (Py.remove (Kod w) ids); [|discriminate].
    now apply IH.
Qed.

(** X3.  A failure of [create_stocks] is not rolled back.  When the rows
    before a row are normalised without error and that row finds its
    identifier in the list but carries a quantity the rule rejects, the
    call raises [ValueError] and leaves the caller's list without the
    identifiers the earlier rows have consumed. *)
Theorem create_stocks_failure_keeps_removals
    (pre post : list watch) (w : watch) (ids : list string) :
  (forall u, In u pre -> In (Kod u) ids ->
             exists n, Seller.stock_of_count (Kolichestvo u) = Ok n) ->
  Py.contains (Kod w) (depleted pre ids) = true ->
  Seller.stock_of_count (Kolichestvo w) = Raise ValueError ->
  Seller.create_stocks (pre ++ w :: post) ids = (Raise ValueError, depleted pre ids).
Proof.
  intros Hpre Hw Hbad.
  destruct (stocks_loop_run pre [] ids) as [Hres Hids].
  destruct (traverse_all_ok stock_item (matched pre ids)) as [entries He].
  { intros u Hu. apply matched_In in Hu as [Hu Hid].
    destruct (Hpre u Hu Hid) as [n Hn]. unfold stock_item. rewrite Hn.
    simpl. eauto. }
  rewrite He in Hres. simpl in Hres.
  destruct (Seller.stocks_loop pre [] ids) as [r ids'] eqn:Hrun.
  simpl in Hres. subst r. specialize (Hids _ _ eq_refl). subst ids'.
  unfold Seller.create_stocks, bind.
  rewrite (stocks_loop_app pre (w :: post) _ _ _ _ Hrun).
  rewrite stocks_loop_cons, Hw, Hbad. reflexivity.
Qed.

Lemma create_stocks_failure_keeps_removals_witness :
  Seller.create_stocks ([watch_123] ++ watch_777_broken :: [watch_123_again])
                       ["777"; "123"; "124"] =
  (Raise ValueError, ["777"; "124"]).
Proof.
  apply (create_stocks_failure_keeps_removals
           [watch_123] [watch_123_again] watch_777_broken ["777"; "123"; "124"]).
  - intros u [<-|[]] _. exists 10%Z. reflexivity.
  - reflexivity.
  - reflexivity.
Defined.

Lemma stocks_loop_no_match feed :
  forall acc ids,
    (forall w, In w feed -> Py.contains (Kod w) ids = false) ->
    Seller.stocks_loop feed acc ids = (Ok acc, ids).
Proof.
  induction feed as [|w rest IH]; intros acc ids H; [reflexivity|].
  rewrite stocks_loop_cons, (H w) by now left.
  apply IH. intros u Hu. apply H. now right.
Qed.

(** X4.  The list [create_stocks] leaves is used up for that feed: when
    the remote identifiers are pairwise distinct, a second call with the
    same feed and the list the first call left matches no row; it returns
    one zero entry for each identifier left and nothing else, whatever
    the quantities of the feed, and leaves the list as it is. *)
Theorem create_stocks_again_only_zeroes
    (feed : list watch) (ids : list string)
    (stocks : list Seller.stock_entry) (remaining : list string) :
  NoDup ids ->
  Seller.create_stocks feed ids = (Ok stocks, remaining) ->
  Seller.create_stocks feed remaining = (Ok (map stub remaining), remaining).
Proof.
  intros Hnd Hrun.
  destruct (create_stocks_run feed ids) as [_ Hrem].
  rewrite (Hrem _ _ Hrun).
  unfold Seller.create_stocks, bind, get, ret.
  rewrite stocks_loop_no_match; [reflexivity|].
  intros w Hw. now apply depleted_no_feed_identifier.
Qed.

Lemma create_stocks_again_only_zeroes_witness :
  NoDup ["123"; "124"] /\
  Seller.create_stocks [watch_123] ["124"] =
    (Ok [{| Seller.offer_id := "124"; Seller.stock := 0%Z |}], ["124"]).
Proof.
  assert (Hnd : NoDup ["123"; "124"])
    by (repeat constructor; simpl; intuition discriminate).
  split; [exact Hnd|].
  exact (create_stocks_again_only_zeroes [watch_123] ["123"; "124"] _ _ Hnd eq_refl).
Defined.

(** ** [create_stocks]: several rows for one identifier *)

Lemma remove_first_gone x l : NoDup l -> ~ In x (remove_first x l).
Proof.
  induction 1 as [|z l Hz Hl IH]; simpl; [tauto|].
  destruct (String.eqb_spec z x) as [->|Hne]; [exact Hz|].
  simpl. tauto.
Qed.

Lemma first_rows_reconcile feed :
  forall seen ids,
    NoDup ids ->
    (forall x, In x seen -> ~ In x ids) ->
    matched feed ids = matched (first_rows seen feed) ids /\
    depleted feed ids = depleted (first_rows seen feed) ids.
Proof.
  unfold depleted.
  induction feed as [|w rest IH]; intros seen ids Hnd Hseen; [now split|].
  cbn [first_rows matched fold_left].
  destruct (Py.contains (Kod w) seen) eqn:Es.
  - apply contains_In in Es. pose proof (Hseen _ Es) as Hout.
    rewrite remove_first_absent by exact Hout.
    apply contains_false in Hout. rewrite Hout. now apply IH.
  - apply contains_false in Es. cbn [matched fold_left].
    destruct (Py.contains (Kod w) ids) eqn:Ei.
    + destruct (IH (Kod w :: seen) (remove_first (Kod w) ids)) as [H1 H2].
      * now apply remove_first_NoDup.
      * intros x [<-|Hx]; [now apply remove_first_gone|].
        intros Hin. apply (Hseen x Hx). eapply remove_first_In, Hin.
      * split; [now f_equal | exact H2].
    + apply contains_false in Ei. rewrite remove_first_absent by exact Ei.
      apply IH; [exact Hnd|].
      intros x [<-|Hx]; [exact Ei | now apply Hseen].
Qed.

Lemma first_rows_distinct feed :
  forall seen,
    NoDup (map Kod (first_rows seen feed)) /\
    (forall w, In w (first_rows seen feed) -> ~ In (Kod w) seen).
Proof.
  induction feed as [|w rest IH]; intros seen; [split; [constructor | intros w []]|].
  cbn [first_rows].
  destruct (Py.contains (Kod w) seen) eqn:Es; [apply IH|].
  apply contains_false in Es.
  destruct (IH (Kod w :: seen)) as [Hnd Hout]. split.
  - simpl. constructor; [|exact Hnd].
    intros Hin. apply in_map_iff in Hin as (u & Hu & Hin).
    apply (Hout u Hin). left. now symmetry.
  - intros u [<-|Hu]; [exact Es|].
    intros Hin. apply (Hout u Hu). now right.
Qed.

(** X5.  Of several feed rows with one identifier the first one decides.
    When the remote identifiers are pairwise distinct, [create_stocks]
    returns for any feed what it returns for the feed reduced to the
    first row of each identifier, and that is the full outer join of the
    reduced feed and the remote list: later rows of an identifier neither
    replace the first one nor add to it, and their quantities are never
    parsed. *)
Theorem create_stocks_first_row_wins (feed : list watch) (ids : list string) :
  NoDup ids ->
  NoDup (map Kod (first_rows [] feed)) /\
  fst (Seller.create_stocks feed ids) =
    fst (Seller.create_stocks (first_rows [] feed) ids) /\
  fst (Seller.create_stocks feed ids) = full_outer_join (first_rows [] feed) ids.
Proof.
  intros Hnd.
  destruct (first_rows_distinct feed []) as [Hfr _].
  destruct (first_rows_reconcile feed [] ids Hnd) as [Hm Hd]; [intros x []|].
  destruct (create_stocks_run feed ids) as [H1 _].
  destruct (create_stocks_run (first_rows [] feed) ids) as [H2 _].
  split; [exact Hfr|]. split.
  - now rewrite H1, H2, Hm, Hd.
  - rewrite H1, Hm, Hd. unfold full_outer_join.
    now rewrite matched_distinct, depleted_distinct.
Qed.

Lemma create_stocks_first_row_wins_witness :
  NoDup ["123"; "124"] /\
  first_rows [] [watch_123; watch_777_broken; watch_123_again] =
    [watch_123; watch_777_broken] /\
  fst (Seller.create_stocks [watch_123; watch_777_broken; watch_123_again]
                            ["123"; "124"]) =
    full_outer_join [watch_123; watch_777_broken] ["123"; "124"].
Proof.
  assert (Hnd : NoDup ["123"; "124"])
    by (repeat constructor; simpl; intuition discriminate).
  split; [exact Hnd|]. split; [reflexivity|].
  exact (proj2 (proj2 (create_stocks_first_row_wins
                         [watch_123; watch_777_broken; watch_123_again]
                         ["123"; "124"] Hnd))).
Defined.

(** ** Quantities and prices as numbers *)

Lemma digit_value_range c d : digit_value c d -> (0 <= d <= 9)%Z.
Proof.
  unfold digit_value. cbn [In]. intros H.
  repeat (destruct H as [[= _ <-] | H]; [lia|]). destruct H.
Qed.

Lemma tail_digits_range l ds :
  literal_tail l ds -> Forall (fun d => 0 <= d <= 9)%Z ds.
Proof.
  induction 1; constructor; eauto using digit_value_range.
Qed.

Lemma positional_nonneg ds :
  Forall (fun d => 0 <= d <= 9)%Z ds -> (0 <= positional ds)%Z.
Proof.
  induction 1 as [|d ds Hd _ IH]; cbn [positional]; [lia|].
  assert (0 <= 10 ^ Z.of_nat (length ds))%Z by (apply Z.pow_nonneg; lia).
  nia.
Qed.

Lemma literal_value_nonneg body ds :
  literal_body body ds -> (0 <= positional ds)%Z.
Proof.
  intros (c & d & l & ds' & -> & -> & Hc & Ht).
  apply positional_nonneg. constructor;
    [eapply digit_value_range; eassumption | eapply tail_digits_range; eassumption].
Qed.

Lemma folded_blank c a : folded c a -> blank a -> white_space c.
Proof.
  destruct 1 as [c Hc | c r Hr Hc | c r Hr Hc]; intros B.
  - left. rewrite <- (N_ascii_embedding c) by lia.
    unfold blank in B. cbn [In] in B |- *.
    repeat (destruct B as [<- | B]; [cbn; tauto|]). destruct B.
  - right. eauto.
  - exfalso. apply is_space_blank in B.
    destruct (in_digit_range _ _ Hr Hc) as (zero & d & _ & Hd & Ec & Er).
    rewrite Er, Ec in B.
    replace (zero + d - zero)%N with d in B by lia.
    assert (Hd' : In d [0; 1; 2; 3; 4; 5; 6; 7; 8; 9]%N) by (cbn [In]; lia).
    repeat (destruct Hd' as [<- | Hd']; [discriminate|]). destruct Hd'.
Qed.

Lemma folded_minus c : folded c "-"%char -> c = 45%N.
Proof.
  intros H. remember "-"%char as a eqn:Ea.
  destruct H as [c Hc | c r Hr Hc | c r Hr Hc]; [| discriminate |].
  - apply (f_equal N_of_ascii) in Ea.
    rewrite N_ascii_embedding in Ea by lia.
    change (N_of_ascii "-") with 45%N in Ea. lia.
  - exfalso.
    destruct (in_digit_range _ _ Hr Hc) as (zero & d & _ & Hd & Ec & Er).
    rewrite Er, Ec in Ea. apply (f_equal N_of_ascii) in Ea.
    rewrite N_ascii_embedding in Ea by lia.
    change (N_of_ascii "-") with 45%N in Ea. lia.
Qed.

Lemma digits_decimal n :
  Py.digits 0 0 false (list_ascii_of_string (decimal n))
  = Some (Z.of_N n, N.of_nat (String.length (decimal n))).
Proof.
  rewrite <- length_chars.
  destruct (decimal_chars n) as [E Hnil]. rewrite E.
  pose proof (numeral_digits (N.to_uint n)) as Hd.
  pose proof (digits_numeral (N.to_uint n) 0) as Hv.
  change (Pos.of_uint (N.to_uint n)) with (N.of_uint (N.to_uint n)) in Hv.
  rewrite DecimalN.Unsigned.of_to in Hv.
  destruct (numeral (N.to_uint n)) as [|c l] eqn:El.
  - exfalso. apply Hnil. unfold numeral in El.
    destruct (N.to_uint n); simpl in El; congruence.
  - transitivity (Py.digits 0 0 true (c :: l)); [|exact Hv].
    inversion Hd as [|? ? Hc _]; subst.
    cbn [Py.digits]. unfold is_digit in Hc.
    destruct (Py.digit_of c); [reflexivity | congruence].
Qed.

Lemma int_minus_decimal n :
  (Z.of_nat (String.length (decimal n)) <= 4300)%Z ->
  Py.int (String "-" (decimal n)) = Some (- Z.of_N n)%Z.
Proof.
  intros Hlen.
  assert (Ha : ascii_text (String "-" (decimal n))).
  { constructor; [reflexivity | apply digits_ascii, decimal_digits]. }
  rewrite (int_ascii _ Ha). cbn [list_ascii_of_string].
  pose proof (decimal_digits n) as Hd.
  pose proof (digits_decimal n) as Hv.
  assert (Hs : Py.strip ("-"%char :: list_ascii_of_string (decimal n))
               = "-"%char :: list_ascii_of_string (decimal n)).
  { destruct (list_ascii_of_string (decimal n)) as [|c l] eqn:El using rev_ind;
      [discriminate Hv|].
    apply Forall_app in Hd as [_ Hz]. inversion Hz as [|? ? Hz' _]; subst.
    assert (Hm : ~ blank "-"%char)
      by (intros B; now apply is_space_blank in B).
    assert (Hc : ~ blank c).
    { intros B. apply is_space_blank in B.
      now rewrite (digit_not_space _ Hz') in B. }
    pose proof (strip_core [] [] "-"%char l c
                  (Forall_nil _) (Forall_nil _) Hm Hc) as Hs.
    cbn [app] in Hs. now rewrite app_nil_r in Hs. }
  unfold Py.parse_int. rewrite Hs.
  change (Ascii.eqb "-" "+") with false. change (Ascii.eqb "-" "-") with true.
  cbn [orb]. rewrite Hv. unfold Py.max_str_digits.
  replace (_ <=? _)%N with true by (symmetry; apply N.leb_le; lia).
  reflexivity.
Qed.

(** X6.  The quantity rule yields a negative stock only for a token
    written with a minus sign, and it does yield one then: when
    [create_stocks] computes a stock below zero for a quantity, the first
    character of the quantity text after its leading white space (of
    ASCII or of Unicode) is ["-"]; and ["-"] followed by the decimal text
    of a number, of at most 4300 digits, becomes the negative of that
    number.  Nothing in the rule rejects a negative quantity. *)
Theorem negative_stock_needs_minus_sign :
  (forall (cps : list N) (n : Z),
     Forall code_point cps ->
     Seller.stock_of_count (text cps) = Ok n ->
     (n < 0)%Z ->
     exists ws rest, cps = ws ++ 45%N :: rest /\ Forall white_space ws) /\
  (forall n : N,
     (Z.of_nat (String.length (decimal n)) <= 4300)%Z ->
     Seller.stock_of_count (String "-" (decimal n)) = Ok (- Z.of_N n)%Z).
Proof.
  split.
  - intros cps n Hcps H Hneg. unfold Seller.stock_of_count in H.
    destruct (String.eqb (text cps) ">10"); [inversion H; lia|].
    destruct (String.eqb (text cps) "1"); [inversion H; lia|].
    destruct (Py.int (text cps)) as [v|] eqn:E; [|discriminate].
    injection H as ->.
    apply (int_text _ _ Hcps) in E as (l & Hl & Hv).
    destruct Hv as (ws1 & sign & s & body & ds & ws2
                    & -> & H1 & Hs & Hb & _ & _ & ->).
    pose proof (literal_value_nonneg _ _ Hb) as Hpos.
    destruct Hs; [lia | lia |].
    apply Forall2_app_inv_r in Hl as (cps1 & cps2 & Hl1 & Hl2 & ->).
    cbn [app] in Hl2. inversion Hl2 as [|c a rest r Hc _]; subst.
    exists cps1, rest. split; [now rewrite (folded_minus _ Hc)|].
    clear - Hl1 H1. induction Hl1 as [|c a cps1 l Hc _ IH]; constructor.
    + inversion H1; subst. eapply folded_blank; eassumption.
    + inversion H1; subst. now apply IH.
  - intros n Hlen. unfold Seller.stock_of_count. cbn [String.eqb Ascii.eqb].
    change (Ascii.eqb "-" ">") with false. cbv iota.
    change (Ascii.eqb "-" "1") with false. cbv iota.
    now rewrite int_minus_decimal.
Qed.

Lemma negative_stock_needs_minus_sign_witness :
  Seller.stock_of_count (text [160; 45; 1637]%N) = Ok (-5)%Z /\
  (exists ws rest,
     [160; 45; 1637]%N = ws ++ 45%N :: rest /\ Forall white_space ws) /\
  Seller.stock_of_count (String "-" (decimal 5)) = Ok (-5)%Z.
Proof.
  assert (H : Seller.stock_of_count (text [160; 45; 1637]%N) = Ok (-5)%Z)
    by reflexivity.
  split; [exact H|]. split.
  - apply (proj1 negative_stock_needs_minus_sign [160; 45; 1637]%N (-5)%Z).
    + repeat constructor.
    + exact H.
    + reflexivity.
  - apply (proj2 negative_stock_needs_minus_sign 5%N). vm_compute. discriminate.
Defined.

Lemma before_dot_append_dot s t :
  Py.before_dot (String.append s (String "." t)) = Py.before_dot s.
Proof.
  induction s as [|c s IH]; [reflexivity|].
  simpl. destruct (Ascii.eqb c "."); [reflexivity|]. now rewrite IH.
Qed.

Lemma only_digits_of_digits s :
  Forall is_digit (list_ascii_of_string s) -> Py.only_digits s = s.
Proof.
  induction s as [|c s IH]; simpl; intros H; [reflexivity|].
  inversion H as [|? ? Hc Hs]; subst. unfold is_digit in Hc.
  destruct (Py.digit_of c); [|congruence]. now rewrite IH.
Qed.

Lemma before_dot_of_digits s :
  Forall is_digit (list_ascii_of_string s) -> Py.before_dot s = s.
Proof.
  induction s as [|c s IH]; simpl; intros H; [reflexivity|].
  inversion H as [|? ? Hc Hs]; subst.
  rewrite (digit_not_dot c Hc). now rewrite IH.
Qed.

Lemma price_conversion_of_digits s :
  Forall is_digit (list_ascii_of_string s) -> Seller.price_conversion s = s.
Proof.
  intros H. unfold Seller.price_conversion.
  rewrite before_dot_of_digits by exact H. now apply only_digits_of_digits.
Qed.

(** X7.  [price_conversion] reads nothing after the first full stop and
    is idempotent: adding a full stop and any text to a price does not
    change the result (so the decimals of a price are cut off, not
    rounded), and converting a converted price gives it back. *)
Theorem price_conversion_cuts_decimals (price tail : string) :
  Seller.price_conversion (String.append price (String "." tail)) =
    Seller.price_conversion price /\
  Seller.price_conversion (Seller.price_conversion price) =
    Seller.price_conversion price.
Proof.
  split.
  - unfold Seller.price_conversion. now rewrite before_dot_append_dot.
  - apply price_conversion_of_digits, only_digits_are_digits.
Qed.

(** X8.  A price written as a whole number, a full stop and anything
    after it comes back as that number: for a listed row whose price
    cell is the decimal text of [n] followed by ["."] and any text,
    [create_prices] of [seller.py] sends the decimal text of [n], and
    [create_prices] of [market.py] sends the value [n] when that text has
    at most 4300 digits; with more digits its [int] raises
    [ValueError]. *)
Theorem create_prices_reads_whole_number
    (id count tail : string) (n : N) :
  let w := {| Kod := id; Kolichestvo := count;
              Tsena := String.append (decimal n) (String "." tail) |} in
  fst (Seller.create_prices [w] [id]) =
    Ok [{| Seller.auto_action_enabled := "UNKNOWN";
           Seller.currency_code := "RUB";
           Seller.price_offer_id := id;
           Seller.old_price := "0";
           Seller.price := decimal n |}] /\
  ((Z.of_nat (String.length (decimal n)) <= 4300)%Z ->
   fst (Market.create_prices [w] [id]) =
     Ok [{| Market.id := id;
            Market.price := {| Market.value := Z.of_N n;
                               Market.currencyId := "RUR" |} |}]) /\
  ((4300 < Z.of_nat (String.length (decimal n)))%Z ->
   fst (Market.create_prices [w] [id]) = Raise ValueError).
Proof.
  intros w.
  assert (Hp : Seller.price_conversion (Tsena w) = decimal n).
  { unfold w, Seller.price_conversion. cbn [Tsena].
    rewrite before_dot_append_dot.
    apply (price_conversion_of_digits _ (decimal_digits n)). }
  rewrite seller_create_prices_run, market_create_prices_run.
  unfold listed. cbn [filter Kod w Py.contains]. rewrite String.eqb_refl.
  cbn [map traverse fst]. unfold seller_price, market_price.
  rewrite Hp. split; [reflexivity|]. split; intros Hlen.
  - now rewrite int_decimal.
  - now rewrite int_decimal_long.
Qed.

Lemma create_prices_reads_whole_number_witness :
  fst (Market.create_prices
         [{| Kod := "123"; Kolichestvo := "5";
             Tsena := String.append (decimal 5990) ".00 руб." |}] ["123"]) =
    Ok [{| Market.id := "123";
           Market.price := {| Market.value := 5990;
                              Market.currencyId := "RUR" |} |}] /\
  fst (Market.create_prices
         [{| Kod := "123"; Kolichestvo := "5";
             Tsena := String.append (decimal (10 ^ 4300)) ".00 руб." |}]
         ["123"]) = Raise ValueError.
Proof.
  split.
  - apply (create_prices_reads_whole_number "123" "5" "00 руб." 5990).
    vm_compute. discriminate.
  - apply (create_prices_reads_whole_number "123" "5" "00 руб." (10 ^ 4300)).
    vm_compute. reflexivity.
Defined.

Lemma market_price_ok w :
  (exists p, market_price w = Ok p) <->
  Seller.price_conversion (Tsena w) <> EmptyString /\
  (Z.of_nat (String.length (Seller.price_conversion (Tsena w))) <= 4300)%Z.
Proof.
  unfold market_price.
  destruct (int_of_digits (Seller.price_conversion (Tsena w))
              (only_digits_are_digits _)) as [Hok Hbad].
  split.
  - intros [p Hp]. split.
    + intros E. rewrite Hbad in Hp by now left. discriminate.
    + apply Z.nlt_ge. intros Hlen.
      rewrite Hbad in Hp by now right. discriminate.
  - intros H. destruct (Hok H) as (v & -> & _). eauto.
Qed.

Lemma traverse_ok_each {A B} (f : A -> res B) l r :
  traverse f l = Ok r -> forall a, In a l -> exists b, f a = Ok b.
Proof.
  revert r. induction l as [|a l IH]; simpl; intros r H a' Ha'; [tauto|].
  apply res_bind_ok in H as (b & Hb & H).
  apply res_map_ok in H as (r' & Hr' & _).
  destruct Ha' as [<-|Ha']; [eauto | eapply IH; eassumption].
Qed.

Lemma traverse_results {A B} (f : A -> res B) l r :
  traverse f l = Ok r -> forall b, In b r -> exists a, In a l /\ f a = Ok b.
Proof.
  revert r. induction l as [|a l IH]; simpl; intros r H b Hb.
  - inversion H; subst. destruct Hb.
  - apply res_bind_ok in H as (b0 & Hb0 & H).
    apply res_map_ok in H as (r' & Hr' & ->).
    destruct Hb as [<-|Hb]; [exists a; now split; [left|]|].
    destruct (IH _ Hr' _ Hb) as (a' & Ha' & Hf). exists a'. split; [now right|exact Hf].
Qed.

Lemma listed_In ids feed w :
  In w (listed ids feed) <-> In w feed /\ In (Kod w) ids.
Proof. unfold listed. rewrite filter_In, contains_In. tauto. Qed.

(** X9.  [create_prices] of [market.py] returns exactly when every feed
    row with a remotely listed identifier has between 1 and 4300 digits
    before the first full stop of its price; otherwise the [int] of the
    first such row that has none, or more, raises [ValueError].  The
    values it returns are never negative. *)
Theorem market_create_prices_needs_digits
    (feed : list watch) (ids : list string) :
  ((forall w, In w feed -> In (Kod w) ids ->
              Seller.price_conversion (Tsena w) <> EmptyString /\
              (Z.of_nat (String.length (Seller.price_conversion (Tsena w)))
               <= 4300)%Z) <->
   exists prices, fst (Market.create_prices feed ids) = Ok prices) /\
  (forall e, fst (Market.create_prices feed ids) = Raise e -> e = ValueError) /\
  (forall prices p,
      fst (Market.create_prices feed ids) = Ok prices -> In p prices ->
      (0 <= Market.value (Market.price p))%Z).
Proof.
  rewrite market_create_prices_run. cbn [fst].
  split; [split|split].
  - intros Hall. apply traverse_all_ok. intros w Hw.
    apply listed_In in Hw as [Hw Hid]. apply market_price_ok. now apply Hall.
  - intros [prices Hp] w Hw Hid. apply market_price_ok.
    eapply traverse_ok_each; [exact Hp|]. now apply listed_In.
  - intros e He. apply traverse_raises in He as (w & _ & Hf).
    unfold market_price in Hf.
    destruct (Py.int (Seller.price_conversion (Tsena w))); congruence.
  - intros prices p Hp Hin.
    destruct (traverse_results _ _ _ Hp _ Hin) as (w & _ & Hf).
    assert (Hok : exists q, market_price w = Ok q) by eauto.
    apply market_price_ok in Hok.
    destruct (proj1 (int_of_digits _ (only_digits_are_digits _)) Hok)
      as (v & Hv & Hpos).
    unfold market_price in Hf. unfold Seller.price_conversion in *.
    rewrite Hv in Hf. inversion Hf; subst p. exact Hpos.
Qed.

Lemma market_create_prices_needs_digits_witness :
  exists prices,
    fst (Market.create_prices [watch_123; watch_777] ["123"; "777"]) = Ok prices.
Proof.
  apply (proj1 (proj1 (market_create_prices_needs_digits
                         [watch_123; watch_777] ["123"; "777"]))).
  intros w [<-|[<-|[]]] _; (split; [discriminate | vm_compute; discriminate]).
Defined.

(** ** [divide]: the number of chunks *)

(** X10.  For a positive size [n], [divide] cuts a list of [len] items
    into [(len + n - 1) / n] chunks, the quotient rounded up; a non-empty
    list no longer than [n] comes back as one chunk, the list itself. *)
Theorem divide_chunk_number {A} (lst : list A) (n : Z) (chunks : list (list A)) :
  (0 < n)%Z ->
  Seller.divide lst n = Ok chunks ->
  Z.of_nat (length chunks) = ((Z.of_nat (length lst) + n - 1) / n)%Z /\
  (lst <> [] -> (Z.of_nat (length lst) <= n)%Z -> chunks = [lst]).
Proof.
  intros Hn Hd. rewrite divide_positive in Hd by exact Hn.
  inversion Hd as [Hc]. clear Hd.
  assert (Hk : Z.of_nat (chunk_count (length lst) n) =
               ((Z.of_nat (length lst) + n - 1) / n)%Z).
  { unfold chunk_count, Py.range_length.
    destruct (0 <? n)%Z eqn:E; [|apply Z.ltb_ge in E; lia].
    destruct (0 <? Z.of_nat (length lst))%Z eqn:E'.
    - apply Z.ltb_lt in E'.
      replace (Z.of_nat (length lst) + n - 1)%Z
        with (Z.of_nat (length lst) - 0 - 1 + 1 * n)%Z by lia.
      rewrite Z.div_add by lia.
      rewrite Z2Nat.id; [reflexivity|].
      assert (0 <= (Z.of_nat (length lst) - 0 - 1) / n)%Z by (apply Z.div_pos; lia).
      lia.
    - apply Z.ltb_ge in E'.
      replace (Z.of_nat (length lst)) with 0%Z by lia.
      rewrite Z.div_small by lia. reflexivity. }
  split.
  - now rewrite length_map, length_seq.
  - intros Hne Hle.
    assert (Hlen : 0 < length lst) by (destruct lst; simpl; [congruence | lia]).
    assert (H1 : chunk_count (length lst) n = 1).
    { apply Nat2Z.inj. rewrite Hk.
      replace (Z.of_nat (length lst) + n - 1)%Z
        with (Z.of_nat (length lst) - 1 + 1 * n)%Z by lia.
      rewrite Z.div_add by lia. rewrite Z.div_small by lia. reflexivity. }
    rewrite H1. simpl. unfold chunk_at. simpl.
    rewrite firstn_all2 by lia. reflexivity.
Qed.

Lemma divide_chunk_number_witness :
  Seller.divide [1; 2; 3; 4; 5] 2 = Ok [[1; 2]; [3; 4]; [5]] /\
  Z.of_nat (length [[1; 2]; [3; 4]; [5]]) = ((Z.of_nat (length [1; 2; 3; 4; 5]) + 2 - 1) / 2)%Z.
Proof.
  assert (H : Seller.divide [1; 2; 3; 4; 5] 2 = Ok [[1; 2]; [3; 4]; [5]]) by reflexivity.
  split; [exact H|].
  exact (proj1 (divide_chunk_number [1; 2; 3; 4; 5] 2 _ ltac:(reflexivity) H)).
Defined.

(** ** Dispatch: where a run stops *)

Lemma snoc_split {R} (l : list R) r before q after :
  l ++ [r] = before ++ q :: after ->
  (after = [] /\ l = before /\ r = q) \/
  (exists after', after = after' ++ [r] /\ l = before ++ q :: after').
Proof.
  destruct after as [|x after] using rev_ind; intros H.
  - left. apply app_inj_tail in H as [-> ->]. auto.
  - right. clear IHafter. exists after.
    change (before ++ q :: after ++ [x]) with (before ++ (q :: after) ++ [x]) in H.
    rewrite app_assoc in H. apply app_inj_tail in H as [-> ->]. auto.
Qed.

Lemma all_accepted_nil {R} (accepted : list R -> R -> bool) : all_accepted accepted [].
Proof. intros before r after H. destruct before; discriminate. Qed.

Lemma all_accepted_stops {R} (accepted : list R -> R -> bool) log :
  all_accepted accepted log -> stops_at_rejection accepted log.
Proof. intros H before r after E Hr. rewrite (H _ _ _ E) in Hr. discriminate. Qed.

Section Dispatch.

Context {R A : Type}.
Variable accepted : list R -> R -> bool.
Variable send : A -> Eff (list R) unit.
Variable mk : A -> R.
Hypothesis send_posts :
  forall a log,
    send a log =
    (if accepted log (mk a) then Ok tt else Raise RequestException, log ++ [mk a]).

Lemma accepted_extends log r :
  all_accepted accepted log -> accepted log r = true ->
  all_accepted accepted (log ++ [r]).
Proof.
  intros Hlog Hr before q after E.
  apply snoc_split in E as [(_ & -> & ->)|(after' & _ & ->)]; [exact Hr|].
  eapply Hlog. reflexivity.
Qed.

Lemma rejected_ends log r :
  all_accepted accepted log -> stops_at_rejection accepted (log ++ [r]).
Proof.
  intros Hlog before q after E Hq.
  apply snoc_split in E as [(-> & _)|(after' & _ & ->)]; [reflexivity|].
  rewrite (Hlog _ _ _ eq_refl) in Hq. discriminate.
Qed.

(** The loop over the batches keeps the log clean: it goes on only after
    an accepted request and ends at the first rejected one. *)
Lemma for_each_stops batches :
  forall log,
    all_accepted accepted log ->
    (fst (for_each batches send log) = Ok tt ->
     all_accepted accepted (snd (for_each batches send log))) /\
    stops_at_rejection accepted (snd (for_each batches send log)).
Proof.
  induction batches as [|a batches IH]; intros log Hlog.
  - simpl. split; [intros _; exact Hlog | now apply all_accepted_stops].
  - cbn [for_each]. unfold bind. rewrite send_posts.
    destruct (accepted log (mk a)) eqn:Ea.
    + apply IH. now apply accepted_extends.
    + cbn [fst snd]. split; [discriminate | now apply rejected_ends].
Qed.

End Dispatch.

Lemma seller_stock_loop_stops accepted sbs log :
  all_accepted accepted log ->
  (fst (for_each sbs (Seller.update_stocks accepted) log) = Ok tt ->
   all_accepted accepted (snd (for_each sbs (Seller.update_stocks accepted) log))) /\
  stops_at_rejection accepted (snd (for_each sbs (Seller.update_stocks accepted) log)).
Proof.
  apply (for_each_stops accepted (Seller.update_stocks accepted) Seller.UpdateStocks).
  reflexivity.
Qed.

Lemma seller_price_loop_stops accepted pbs log :
  all_accepted accepted log ->
  (fst (for_each pbs (Seller.update_price accepted) log) = Ok tt ->
   all_accepted accepted (snd (for_each pbs (Seller.update_price accepted) log))) /\
  stops_at_rejection accepted (snd (for_each pbs (Seller.update_price accepted) log)).
Proof.
  apply (for_each_stops accepted (Seller.update_price accepted) Seller.UpdatePrice).
  reflexivity.
Qed.

(** X11.  A run of [seller.py] stops at the first request the marketplace
    rejects: in the requests of [main], of [upload_stocks] and of
    [upload_prices], nothing follows a rejected request.  A rejected
    stock batch is not repeated, the later stock batches are not sent,
    and [main] sends no price after it. *)
Theorem seller_run_stops_at_rejection
    (accepted : list Seller.request -> Seller.request -> bool)
    (feed : list watch) (ids : list string) :
  stops_at_rejection accepted (Seller.main accepted feed ids) /\
  stops_at_rejection accepted (snd (Seller.upload_stocks accepted feed ids [])) /\
  stops_at_rejection accepted (snd (Seller.upload_prices accepted feed ids [])).
Proof.
  pose proof (all_accepted_nil accepted) as Hnil.
  pose proof (all_accepted_stops accepted [] Hnil) as Hstop.
  split; [|split].
  - unfold Seller.main, Seller.main_try. open_eff.
    destruct (Seller.create_stocks feed ids) as [[stocks|e] rest_ids]; [|exact Hstop].
    destruct (Seller.divide stocks 100) as [sbs|e]; [|exact Hstop].
    cbn [fst snd].
    destruct (seller_stock_loop_stops accepted sbs [] Hnil) as [Hok Hs].
    destruct (for_each sbs (Seller.update_stocks accepted) []) as [[u|e] log1];
      cbn [fst snd] in *; [|exact Hs].
    destruct u. specialize (Hok eq_refl).
    rewrite seller_create_prices_run. cbn [fst snd].
    destruct (Seller.divide (map seller_price (listed rest_ids feed)) 900) as [pbs|e];
      [|cbn [snd]; now apply all_accepted_stops].
    destruct (seller_price_loop_stops accepted pbs log1 Hok) as [_ Hp].
    destruct (for_each pbs (Seller.update_price accepted) log1) as [r log2].
    exact Hp.
  - unfold Seller.upload_stocks. open_eff.
    destruct (Seller.create_stocks feed ids) as [[stocks|e] rest_ids]; [|exact Hstop].
    destruct (Seller.divide stocks 100) as [sbs|e]; [|exact Hstop].
    cbn [fst snd].
    destruct (seller_stock_loop_stops accepted sbs [] Hnil) as [_ Hs].
    destruct (for_each sbs (Seller.update_stocks accepted) []) as [[u|e] log1];
      exact Hs.
  - unfold Seller.upload_prices. open_eff.
    rewrite seller_create_prices_run. cbn [fst snd].
    destruct (Seller.divide (map seller_price (listed ids feed)) 1000) as [pbs|e];
      [|exact Hstop].
    cbn [fst snd].
    destruct (seller_price_loop_stops accepted pbs [] Hnil) as [_ Hp].
    destruct (for_each pbs (Seller.update_price accepted) []) as [[u|e] log1];
      exact Hp.
Qed.

Lemma seller_run_stops_at_rejection_witness :
  tl (Seller.main never [watch_123] ["123"; "123"]) = [].
Proof.
  apply (proj1 (seller_run_stops_at_rejection never [watch_123] ["123"; "123"])
               []
               (Seller.UpdateStocks [{| Seller.offer_id := "123"; Seller.stock := 10%Z |};
                                     {| Seller.offer_id := "123"; Seller.stock := 0%Z |}])
               (tl (Seller.main never [watch_123] ["123"; "123"])));
    reflexivity.
Defined.

Lemma market_stock_loop_stops accepted campaign_id sbs log :
  all_accepted accepted log ->
  (fst (for_each sbs (fun some_stock => Market.update_stocks accepted some_stock campaign_id)
                 log) = Ok tt ->
   all_accepted accepted
     (snd (for_each sbs (fun some_stock => Market.update_stocks accepted some_stock campaign_id)
                    log))) /\
  stops_at_rejection accepted
    (snd (for_each sbs (fun some_stock => Market.update_stocks accepted some_stock campaign_id)
                   log)).
Proof.
  apply (for_each_stops accepted
           (fun some_stock => Market.update_stocks accepted some_stock campaign_id)
           (Market.UpdateStocks campaign_id)).
  reflexivity.
Qed.

(** X12.  The two campaigns of [main] of [market.py] share one [try]
    block: nothing follows a rejected request, so a stock batch of the
    FBS campaign that the marketplace rejects ends the run before any
    request of the DBS campaign. *)
Theorem market_run_stops_at_rejection
    (accepted : list Market.request -> Market.request -> bool) (r : Market.run) :
  stops_at_rejection accepted (Market.main accepted r).
Proof.
  pose proof (all_accepted_nil accepted) as Hnil.
  pose proof (all_accepted_stops accepted [] Hnil) as Hstop.
  unfold Market.main, Market.main_try. open_eff.
  destruct (Market.create_stocks (Market.watch_remnants r) (Market.warehouse_fbs_id r)
              (Market.date_fbs r) (Market.offer_ids_fbs r)) as [[stocks|e] rest_ids];
    [|exact Hstop].
  destruct (Seller.divide stocks 2000) as [sbs|e]; [|exact Hstop].
  cbn [fst snd].
  destruct (market_stock_loop_stops accepted (Market.campaign_fbs_id r) sbs [] Hnil)
    as [Hok Hs].
  destruct (for_each sbs _ []) as [[u|e] log1]; cbn [fst snd] in *; [|exact Hs].
  destruct u. specialize (Hok eq_refl).
  destruct (Market.create_stocks (Market.watch_remnants r) (Market.warehouse_dbs_id r)
              (Market.date_dbs r) (Market.offer_ids_dbs r)) as [[stocks'|e] rest_ids'];
    [|cbn [snd]; now apply all_accepted_stops].
  destruct (Seller.divide stocks' 2000) as [sbs'|e];
    [|cbn [snd]; now apply all_accepted_stops].
  cbn [fst snd].
  destruct (market_stock_loop_stops accepted (Market.campaign_dbs_id r) sbs' log1 Hok)
    as [_ Hs'].
  destruct (for_each sbs' _ log1) as [[u'|e] log2]; exact Hs'.
Qed.

Lemma market_run_stops_at_rejection_witness :
  tl (Market.main never (run_at "2022-12-31T12:00:00Z")) = [].
Proof.
  apply (market_run_stops_at_rejection never (run_at "2022-12-31T12:00:00Z")
           []
           (Market.UpdateStocks "fbs"
              [Market.stock_record "123" "warehouse_1" 10%Z "2022-12-31T12:00:00Z";
               Market.stock_record "124" "warehouse_1" 0%Z "2022-12-31T12:00:00Z"])
           (tl (Market.main never (run_at "2022-12-31T12:00:00Z"))));
    reflexivity.
Defined.

(** ** What a whole run sends *)

(** X13.  [main] of [seller.py] sends nothing at all when [create_stocks]
    raises (a remotely listed row with a quantity the rule rejects): no
    stock is updated in part, and no price is sent.  It sends nothing
    either when the catalogue is empty. *)
Theorem seller_main_sends_nothing
    (accepted : list Seller.request -> Seller.request -> bool)
    (feed : list watch) (ids : list string) :
  (forall e, fst (Seller.create_stocks feed ids) = Raise e ->
             Seller.main accepted feed ids = []) /\
  Seller.main accepted feed [] = [].
Proof.
  split.
  - intros e He. pose proof (seller_main_run accepted feed ids) as H.
    destruct (Seller.create_stocks feed ids) as [[stocks|e'] rest_ids];
      [discriminate | exact H].
  - pose proof (seller_main_run accepted feed []) as H.
    assert (Hl : forall acc, Seller.stocks_loop feed acc [] = (Ok acc, []))
      by (intros acc; now apply stocks_loop_no_match).
    unfold Seller.create_stocks, bind, get, ret in H. rewrite Hl in H.
    destruct H as (sbs & pbs & i & j & Hs & Hp & ->).
    rewrite listed_none in Hp by reflexivity.
    vm_compute in Hs, Hp. inversion Hs. inversion Hp. now destruct i, j.
Qed.

Lemma seller_main_sends_nothing_witness :
  fst (Seller.create_stocks [watch_123; watch_777_broken] ["123"; "777"]) =
    Raise ValueError /\
  Seller.main always [watch_123; watch_777_broken] ["123"; "777"] = [].
Proof.
  assert (H : fst (Seller.create_stocks [watch_123; watch_777_broken] ["123"; "777"]) =
              Raise ValueError) by reflexivity.
  split; [exact H|].
  exact (proj1 (seller_main_sends_nothing always _ _) _ H).
Defined.

Lemma seller_sends_when_accepted accepted :
  (forall log r, accepted log r = true) ->
  (forall a log,
      Seller.update_stocks accepted a log = (Ok tt, log ++ [Seller.UpdateStocks a])) /\
  (forall a log,
      Seller.update_price accepted a log = (Ok tt, log ++ [Seller.UpdatePrice a])).
Proof.
  intros H. split; intros a log;
    unfold Seller.update_stocks, Seller.update_price, Seller.post; now rewrite H.
Qed.

(** X14.  When the marketplace accepts every request and [create_stocks]
    returns, [main] of [seller.py] sends every stock entry exactly once,
    in order, cut into batches, and after them every price entry built by
    [create_prices] from the list [create_stocks] left. *)
Theorem seller_main_sends_everything
    (accepted : list Seller.request -> Seller.request -> bool)
    (feed : list watch) (ids : list string)
    (stocks : list Seller.stock_entry) (remaining : list string) :
  (forall log r, accepted log r = true) ->
  Seller.create_stocks feed ids = (Ok stocks, remaining) ->
  exists sbs pbs,
    Seller.main accepted feed ids =
      map Seller.UpdateStocks sbs ++ map Seller.UpdatePrice pbs /\
    concat sbs = stocks /\
    fst (Seller.create_prices feed remaining) = Ok (concat pbs).
Proof.
  intros Hacc Hrun.
  destruct (seller_sends_when_accepted accepted Hacc) as [Hst Hpr].
  destruct (divide_batches_within stocks 100 ltac:(lia)) as (sbs & Hs & Hcs & _).
  destruct (divide_batches_within (map seller_price (listed remaining feed)) 900
              ltac:(lia)) as (pbs & Hp & Hcp & _).
  exists sbs, pbs. split; [|split; [exact Hcs|]].
  - unfold Seller.main, Seller.main_try. open_eff. rewrite Hrun, Hs. cbn [fst snd].
    rewrite (for_each_accepted _ Seller.UpdateStocks Hst). cbn [fst snd].
    rewrite seller_create_prices_run. cbn [fst snd]. rewrite Hp.
    rewrite (for_each_accepted _ Seller.UpdatePrice Hpr). reflexivity.
  - rewrite seller_create_prices_run. cbn [fst]. now rewrite Hcp.
Qed.

Lemma seller_main_sends_everything_witness :
  exists sbs pbs,
    Seller.main always [watch_123] ["123"; "123"] =
      map Seller.UpdateStocks sbs ++ map Seller.UpdatePrice pbs /\
    concat sbs = [{| Seller.offer_id := "123"; Seller.stock := 10%Z |};
                  {| Seller.offer_id := "123"; Seller.stock := 0%Z |}] /\
    fst (Seller.create_prices [watch_123] ["123"]) = Ok (concat pbs).
Proof.
  exact (seller_main_sends_everything always [watch_123] ["123"; "123"] _ _
           (fun _ _ => eq_refl) eq_refl).
Defined.

Lemma market_sends_when_accepted accepted campaign_id :
  (forall log r, accepted log r = true) ->
  forall a log,
    Market.update_stocks accepted a campaign_id log =
    (Ok tt, log ++ [Market.UpdateStocks campaign_id a]).
Proof.
  intros H a log. unfold Market.update_stocks, Market.send. now rewrite H.
Qed.

(** X15.  In [main] of [market.py] the DBS campaign depends on the FBS
    campaign.  When [create_stocks] raises for the FBS campaign, nothing
    is sent, for neither campaign.  When it returns for both and the
    marketplace accepts every request, every stock entry of the FBS
    campaign is sent exactly once, in order, then every stock entry of
    the DBS campaign, each campaign reconciled against its own list. *)
Theorem market_main_campaigns
    (accepted : list Market.request -> Market.request -> bool) (r : Market.run) :
  (forall e,
      fst (Market.create_stocks (Market.watch_remnants r) (Market.warehouse_fbs_id r)
             (Market.date_fbs r) (Market.offer_ids_fbs r)) = Raise e ->
      Market.main accepted r = []) /\
  (forall fbs dbs,
      (forall log q, accepted log q = true) ->
      fst (Market.create_stocks (Market.watch_remnants r) (Market.warehouse_fbs_id r)
             (Market.date_fbs r) (Market.offer_ids_fbs r)) = Ok fbs ->
      fst (Market.create_stocks (Market.watch_remnants r) (Market.warehouse_dbs_id r)
             (Market.date_dbs r) (Market.offer_ids_dbs r)) = Ok dbs ->
      exists fbs_batches dbs_batches,
        Market.main accepted r =
          map (Market.UpdateStocks (Market.campaign_fbs_id r)) fbs_batches ++
          map (Market.UpdateStocks (Market.campaign_dbs_id r)) dbs_batches /\
        concat fbs_batches = fbs /\ concat dbs_batches = dbs).
Proof.
  split.
  - intros e He. unfold Market.main, Market.main_try. open_eff.
    destruct (Market.create_stocks (Market.watch_remnants r) (Market.warehouse_fbs_id r)
                (Market.date_fbs r) (Market.offer_ids_fbs r)) as [[stocks|e'] rest_ids];
      [discriminate | reflexivity].
  - intros fbs dbs Hacc Hf Hd.
    destruct (divide_batches_within fbs 2000 ltac:(lia)) as (fb & Hfb & Hcf & _).
    destruct (divide_batches_within dbs 2000 ltac:(lia)) as (db & Hdb & Hcd & _).
    exists fb, db. split; [|now split].
    unfold Market.main, Market.main_try. open_eff.
    destruct (Market.create_stocks (Market.watch_remnants r) (Market.warehouse_fbs_id r)
                (Market.date_fbs r) (Market.offer_ids_fbs r)) as [rf rest_f].
    cbn [fst] in Hf. subst rf. rewrite Hfb. cbn [fst snd].
    rewrite (for_each_accepted _ (Market.UpdateStocks (Market.campaign_fbs_id r))
               (market_sends_when_accepted accepted _ Hacc)).
    cbn [fst snd].
    destruct (Market.create_stocks (Market.watch_remnants r) (Market.warehouse_dbs_id r)
                (Market.date_dbs r) (Market.offer_ids_dbs r)) as [rd rest_d].
    cbn [fst] in Hd. subst rd. rewrite Hdb. cbn [fst snd].
    rewrite (for_each_accepted _ (Market.UpdateStocks (Market.campaign_dbs_id r))
               (market_sends_when_accepted accepted _ Hacc)).
    reflexivity.
Qed.

Lemma market_main_campaigns_witness :
  exists fbs_batches dbs_batches,
    Market.main always (run_at "2022-12-31T12:00:00Z") =
      map (Market.UpdateStocks "fbs") fbs_batches ++
      map (Market.UpdateStocks "dbs") dbs_batches /\
    concat fbs_batches =
      [Market.stock_record "123" "warehouse_1" 10%Z "2022-12-31T12:00:00Z";
       Market.stock_record "124" "warehouse_1" 0%Z "2022-12-31T12:00:00Z"] /\
    concat dbs_batches =
      [Market.stock_record "123" "warehouse_2" 10%Z "2022-12-31T12:00:00Z"].
Proof.
  exact (proj2 (market_main_campaigns always (run_at "2022-12-31T12:00:00Z")) _ _
           (fun _ _ => eq_refl) eq_refl eq_refl).
Defined.

(** ** Pagination: endless listings and failed requests *)

(** X16.  The token paginator of [market.py] has no bound of its own:
    against a marketplace whose every page carries a non-empty
    continuation token, [get_offer_ids] is still running after any number
    of iterations. *)
Theorem token_paginator_never_returns (pages : nat -> Market.mapping_page) :
  (forall i, token_missing pages i = false) ->
  forall fuel, Market.get_offer_ids (answering pages) fuel = None.
Proof.
  intros Hgo fuel. unfold Market.get_offer_ids.
  rewrite (market_loop_running pages fuel 0 fuel (fun i _ => Hgo i) (le_n fuel)
           : Market.listing_loop _ fuel 0 (Some EmptyString) [] [] = _).
  reflexivity.
Qed.

Lemma token_paginator_never_returns_witness :
  Market.get_offer_ids (answering market_pages_looping) 1000 = None.
Proof.
  apply (token_paginator_never_returns market_pages_looping).
  intros i. reflexivity.
Defined.

Section FailingListing.

Variable e : exn.

Lemma market_loop_advance (pages : nat -> Market.mapping_page) n d :
  forall k fuel,
    k + d <= n ->
    (forall i, i < n -> token_missing pages i = false) ->
    Market.listing_loop (failing_at n e pages) (d + fuel) k (market_cursor pages k)
      (market_listing pages k) (map (market_cursor pages) (seq 0 k)) =
    Market.listing_loop (failing_at n e pages) fuel (k + d) (market_cursor pages (k + d))
      (market_listing pages (k + d)) (map (market_cursor pages) (seq 0 (k + d))).
Proof.
  induction d as [|d IH]; intros k fuel Hk Hgo.
  - now rewrite Nat.add_0_r.
  - cbn [Nat.add Market.listing_loop]. unfold failing_at at 1.
    destruct (k <? n)%nat eqn:E; [|apply Nat.ltb_ge in E; lia].
    pose proof (Hgo k ltac:(lia)) as Htok. unfold token_missing in Htok.
    rewrite Htok, <- market_listing_S, <- map_last, <- seq_S.
    replace (k + S d) with (S k + d) by lia.
    apply (IH (S k) fuel); [lia | exact Hgo].
Qed.

Lemma seller_loop_advance (pages : nat -> Seller.product_page) n d :
  forall k fuel,
    k + d <= n ->
    (forall i, i < n -> total_reached pages i = false) ->
    Seller.listing_loop (failing_at n e pages) (d + fuel) k (seller_cursor pages k)
      (seller_listing pages k) (map (seller_cursor pages) (seq 0 k)) =
    Seller.listing_loop (failing_at n e pages) fuel (k + d) (seller_cursor pages (k + d))
      (seller_listing pages (k + d)) (map (seller_cursor pages) (seq 0 (k + d))).
Proof.
  induction d as [|d IH]; intros k fuel Hk Hgo.
  - now rewrite Nat.add_0_r.
  - cbn [Nat.add Seller.listing_loop]. unfold failing_at at 1.
    destruct (k <? n)%nat eqn:E; [|apply Nat.ltb_ge in E; lia].
    pose proof (Hgo k ltac:(lia)) as Htot. unfold total_reached in Htot.
    rewrite <- seller_listing_S, Htot, <- map_last, <- seq_S.
    replace (k + S d) with (S k + d) by lia.
    apply (IH (S k) fuel); [lia | exact Hgo].
Qed.

End FailingListing.

(** X17.  A failed listing request ends [get_offer_ids] at once, in both
    programs: when the first [n] replies are pages that do not end the
    listing and request [n] fails, the call raises the exception of that
    request.  It has sent [n + 1] requests, the failed one once, and the
    identifiers of the pages received are not returned. *)
Theorem listing_failure_ends_the_listing (e : exn) (n fuel : nat) :
  n < fuel ->
  (forall pages : nat -> Market.mapping_page,
      (forall i, i < n -> token_missing pages i = false) ->
      Market.get_offer_ids (failing_at n e pages) fuel =
      Some (Raise e, map (market_cursor pages) (seq 0 (S n)))) /\
  (forall pages : nat -> Seller.product_page,
      (forall i, i < n -> total_reached pages i = false) ->
      Seller.get_offer_ids (failing_at n e pages) fuel =
      Some (Raise e, map (seller_cursor pages) (seq 0 (S n)))).
Proof.
  intros Hfuel. replace fuel with (n + S (fuel - S n)) by lia.
  split; intros pages Hgo.
  - unfold Market.get_offer_ids.
    rewrite (market_loop_advance e pages n n 0 (S (fuel - S n)) (le_n n) Hgo
             : Market.listing_loop _ _ 0 (Some EmptyString) [] [] = _).
    cbn [Nat.add Market.listing_loop]. unfold failing_at at 1.
    rewrite Nat.ltb_irrefl. cbn [option_map fst snd res_map res_bind].
    now rewrite <- map_last, <- seq_S.
  - unfold Seller.get_offer_ids.
    rewrite (seller_loop_advance e pages n n 0 (S (fuel - S n)) (le_n n) Hgo
             : Seller.listing_loop _ _ 0 EmptyString [] [] = _).
    cbn [Nat.add Seller.listing_loop]. unfold failing_at at 1.
    rewrite Nat.ltb_irrefl. cbn [option_map fst snd res_map res_bind].
    now rewrite <- map_last, <- seq_S.
Qed.

Lemma listing_failure_ends_the_listing_witness :
  Market.get_offer_ids (failing_at 1 RequestException market_pages_example) 5 =
    Some (Raise RequestException, [Some EmptyString; Some "p1"]) /\
  Seller.get_offer_ids (failing_at 1 RequestException seller_pages_example) 5 =
    Some (Raise RequestException, [EmptyString; "124"]).
Proof.
  destruct (listing_failure_ends_the_listing RequestException 1 5 ltac:(lia))
    as [Hm Hs].
  split.
  - apply (Hm market_pages_example). intros i Hi. replace i with 0 by lia. reflexivity.
  - apply (Hs seller_pages_example). intros i Hi. replace i with 0 by lia. reflexivity.
Defined.

(** ** Entries of one payload, and what [upload_stocks] reports *)

(** X18.  All entries [create_stocks] of [market.py] returns in one call
    have the same shape: the warehouse given to the call, and exactly one
    item, of type ["FIT"], stamped with the one clock reading taken
    before the loops; entries from the feed and zero entries alike. *)
Theorem market_entries_share_stamp
    (feed : list watch) (warehouse_id date : string) (ids : list string)
    (stocks : list Market.stock_entry) (remaining : list string) :
  Market.create_stocks feed warehouse_id date ids = (Ok stocks, remaining) ->
  Forall (fun entry =>
            Market.warehouseId entry = warehouse_id /\
            exists n, Market.items entry =
                      [{| Market.count := n; Market.type := "FIT";
                          Market.updatedAt := date |}])
         stocks.
Proof.
  intros Hrun. rewrite market_create_stocks in Hrun. injection Hrun as Hres _.
  apply res_map_ok in Hres as (s & _ & ->).
  apply Forall_forall. intros entry Hin.
  apply in_map_iff in Hin as (x & <- & _).
  split; [reflexivity|]. now exists (Seller.stock x).
Qed.

Lemma market_entries_share_stamp_witness :
  Forall (fun entry =>
            Market.warehouseId entry = "warehouse_1" /\
            exists n, Market.items entry =
                      [{| Market.count := n; Market.type := "FIT";
                          Market.updatedAt := "2022-12-31T12:00:00Z" |}])
         [Market.stock_record "123" "warehouse_1" 10%Z "2022-12-31T12:00:00Z";
          Market.stock_record "124" "warehouse_1" 0%Z "2022-12-31T12:00:00Z"].
Proof.
  exact (market_entries_share_stamp [watch_123] "warehouse_1" "2022-12-31T12:00:00Z"
           ["123"; "124"] _ _ eq_refl).
Defined.

(** X19.  When the marketplace accepts every request and [create_stocks]
    returns, [upload_stocks] of [seller.py] returns the full list of
    entries and, as its first component, the entries with a stock other
    than 0.  These all come from feed rows: an identifier only the
    marketplace has is never reported there, nor is a row whose quantity
    the rule turns into 0. *)
Theorem upload_stocks_reports_feed_entries
    (accepted : list Seller.request -> Seller.request -> bool)
    (feed : list watch) (ids : list string)
    (stocks : list Seller.stock_entry) (remaining : list string) :
  (forall log r, accepted log r = true) ->
  Seller.create_stocks feed ids = (Ok stocks, remaining) ->
  exists not_empty,
    fst (Seller.upload_stocks accepted feed ids []) = Ok (not_empty, stocks) /\
    (forall entry, In entry not_empty <->
                   In entry stocks /\ Seller.stock entry <> 0%Z) /\
    (forall entry, In entry not_empty ->
                   exists w, In w feed /\ Kod w = Seller.offer_id entry /\
                             Seller.stock_of_count (Kolichestvo w) =
                             Ok (Seller.stock entry)).
Proof.
  intros Hacc Hrun.
  destruct (seller_sends_when_accepted accepted Hacc) as [Hst _].
  destruct (divide_batches_within stocks 100 ltac:(lia)) as (sbs & Hs & _).
  exists (filter (fun s => negb (Seller.stock s =? 0)%Z) stocks).
  assert (Hfilter : forall entry,
             In entry (filter (fun s => negb (Seller.stock s =? 0)%Z) stocks) <->
             In entry stocks /\ Seller.stock entry <> 0%Z).
  { intros entry. rewrite filter_In, negb_true_iff, Z.eqb_neq. tauto. }
  split; [|split; [exact Hfilter|]].
  - unfold Seller.upload_stocks. open_eff. rewrite Hrun, Hs. cbn [fst snd].
    rewrite (for_each_accepted _ Seller.UpdateStocks Hst). reflexivity.
  - intros entry Hin. apply Hfilter in Hin as [Hin Hnz].
    destruct (create_stocks_run feed ids) as [Hres _].
    rewrite Hrun in Hres. symmetry in Hres.
    apply res_map_ok in Hres as (entries & Htr & ->).
    apply in_app_or in Hin as [Hin|Hin].
    + destruct (traverse_results _ _ _ Htr _ Hin) as (w & Hw & Hitem).
      apply matched_In in Hw as [Hw _].
      unfold stock_item in Hitem.
      apply res_map_ok in Hitem as (n & Hn & ->).
      exists w. now repeat split.
    + apply in_map_iff in Hin as (id & <- & _). now destruct Hnz.
Qed.

Lemma upload_stocks_reports_feed_entries_witness :
  exists not_empty,
    fst (Seller.upload_stocks always [watch_123] ["123"; "124"] []) =
      Ok (not_empty,
          [{| Seller.offer_id := "123"; Seller.stock := 10%Z |};
           {| Seller.offer_id := "124"; Seller.stock := 0%Z |}]) /\
    (forall entry, In entry not_empty ->
                   exists w, In w [watch_123] /\ Kod w = Seller.offer_id entry /\
                             Seller.stock_of_count (Kolichestvo w) =
                             Ok (Seller.stock entry)).
Proof.
  destruct (upload_stocks_reports_feed_entries always [watch_123] ["123"; "124"] _ _
              (fun _ _ => eq_refl) eq_refl) as (not_empty & H1 & _ & H3).
  exists not_empty. now split.
Defined.

Lemma market_price_sends_when_accepted accepted campaign_id :
  (forall log r, accepted log r = true) ->
  forall a log,
    Market.update_price accepted a campaign_id log =
    (Ok tt, log ++ [Market.UpdatePrice campaign_id a]).
Proof.
  intros H a log. unfold Market.update_price, Market.send. now rewrite H.
Qed.

(** X20.  [upload_prices] builds the whole price list before it sends
    anything.  In [market.py], when [create_prices] raises, the call
    raises the same exception and no request has been sent; when it
    returns and the marketplace accepts every request, every price is
    sent exactly once, in order, and the call returns the list.  In
    [seller.py] the list is always built, so against such a marketplace
    the call always sends every price and returns the list. *)
Theorem upload_prices_builds_before_sending
    (market_accepted : list Market.request -> Market.request -> bool)
    (seller_accepted : list Seller.request -> Seller.request -> bool)
    (feed : list watch) (campaign_id : string) (ids : list string) :
  (forall e,
      fst (Market.create_prices feed ids) = Raise e ->
      Market.upload_prices market_accepted feed campaign_id ids [] = (Raise e, [])) /\
  (forall prices,
      (forall log r, market_accepted log r = true) ->
      fst (Market.create_prices feed ids) = Ok prices ->
      exists batches,
        Market.upload_prices market_accepted feed campaign_id ids [] =
          (Ok prices, map (Market.UpdatePrice campaign_id) batches) /\
        concat batches = prices) /\
  ((forall log r, seller_accepted log r = true) ->
   exists batches,
     Seller.upload_prices seller_accepted feed ids [] =
       (Ok (map seller_price (listed ids feed)), map Seller.UpdatePrice batches) /\
     concat batches = map seller_price (listed ids feed)).
Proof.
  split; [|split].
  - intros e He. unfold Market.upload_prices. open_eff.
    destruct (Market.create_prices feed ids) as [[prices|e'] rest_ids];
      cbn [fst] in He; [discriminate|]. now inversion He.
  - intros prices Hacc Hp.
    destruct (divide_batches_within prices 500 ltac:(lia)) as (pbs & Hd & Hc & _).
    exists pbs. split; [|exact Hc].
    unfold Market.upload_prices. open_eff.
    destruct (Market.create_prices feed ids) as [rp rest_ids].
    cbn [fst] in Hp. subst rp. rewrite Hd. cbn [fst snd].
    rewrite (for_each_accepted _ (Market.UpdatePrice campaign_id)
               (market_price_sends_when_accepted market_accepted _ Hacc)).
    reflexivity.
  - intros Hacc.
    destruct (seller_sends_when_accepted seller_accepted Hacc) as [_ Hpr].
    destruct (divide_batches_within (map seller_price (listed ids feed)) 1000
                ltac:(lia)) as (pbs & Hd & Hc & _).
    exists pbs. split; [|exact Hc].
    unfold Seller.upload_prices. open_eff.
    rewrite seller_create_prices_run. cbn [fst snd]. rewrite Hd. cbn [fst snd].
    rewrite (for_each_accepted _ Seller.UpdatePrice Hpr). reflexivity.
Qed.

Lemma upload_prices_builds_before_sending_witness :
  Market.upload_prices always [watch_123; watch_on_request] "fbs" ["123"] [] =
    (Raise ValueError, []) /\
  exists batches,
    Seller.upload_prices always [watch_123; watch_on_request] ["123"] [] =
      (Ok (map seller_price (listed ["123"] [watch_123; watch_on_request])),
       map Seller.UpdatePrice batches) /\
    concat batches = map seller_price (listed ["123"] [watch_123; watch_on_request]).
Proof.
  destruct (upload_prices_builds_before_sending always always
              [watch_123; watch_on_request] "fbs" ["123"]) as (Hfail & _ & Hseller).
  split.
  - apply Hfail. reflexivity.
  - apply Hseller. reflexivity.
Defined.

(** ** [upload_prices] of [seller.py]: the size of its batches *)

(** X21.  The body of [upload_prices] of [seller.py], a coroutine
    function that no run calls, cuts the prices into batches of 1000, not
    into the batches of 900 of [main]: every batch it would hand to
    [update_price] holds between 1 and 1000 entries, all but the last
    exactly 1000, and 1000 listed rows would go out as one batch. *)
Theorem seller_upload_prices_cuts_at_1000 :
  (forall accepted feed ids,
      exists pb,
        snd (Seller.upload_prices accepted feed ids []) = map Seller.UpdatePrice pb /\
        batches_within 1000 pb) /\
  map seller_request_size
      (snd (Seller.upload_prices always (numbered_feed 1000) (numbered_ids 1000) [])) =
  [1000].
Proof.
  split; [|vm_compute; reflexivity].
  intros accepted feed ids.
  destruct (seller_upload_prices_run accepted feed ids) as (pbs & j & Hp & ->).
  destruct (divide_batches_within (map seller_price (listed ids feed)) 1000
              ltac:(lia)) as (pbs' & Hp' & _ & Hpw).
  assert (pbs' = pbs) by congruence. subst.
  exists (firstn j pbs). split; [reflexivity|]. now apply batches_within_firstn.
Qed.
